(** * GeoViz data-tool utility: fragmenter and validator

    A shallow embedding of [python-scripts/GeoViz_Compatibility_Tool.py]
    and [python-scripts/GeoViz_Validator.py].

    Conventions of the embedding.
    - Python [int] is [Z].  A finite Python [float] is the rational number
      it denotes.  Where a float is made from a literal ([float(s)]) and
      where a float expression is turned into an integer (the ceilings of
      lines 114, 316, 317 and 429 of the compatibility tool), every
      operation is rounded as IEEE-754 binary64 does ([F64]), because
      there a rounding error changes the result by a whole unit.  The
      bookkeeping in megabytes of the estimator, its recommendation, the
      file sizes and the fill values of the synthesized arrays are kept as
      exact rationals; [inf] and [nan] are not values of the model, an
      infinity being represented only where an expression can overflow.
    - [dict]-like containers ([ds.sizes], [ds.variables], [ds.attrs], the
      file system) are [gmap]s with [string] keys.
    - Exceptions are values of [exn]; effectful code lives in a small
      state-and-error monad over [World]. *)

From Stdlib Require Import ZArith QArith Qround Qabs Qpower Lia Lqa.
From Stdlib Require Import Ascii String DecimalString.
From stdpp Require Import base option list gmap strings.

Local Open Scope Z_scope.

(** ** Python exceptions raised by the two tools *)

Inductive exn : Type :=
| ValueError (msg : string)
| ZeroDivisionError
| KeyError (key : string)
| IndexError
| FileNotFoundError (path : string)
| OSError (path : string)
| TypeError
| EOFError
| OverflowError.

(** ** IEEE-754 binary64 arithmetic

    An arithmetic operation on floats returns the exact result rounded to
    the nearest representable number, ties going to the even significand;
    a result past the largest finite number is an infinity.  The two zeros
    are not told apart. *)

Module F64.

Local Open Scope Q_scope.

(** The largest [k] with [2^k <= x], for [x > 0]. *)
Definition ilog2 (x : Q) : Z :=
  let k := (Z.log2 (Qnum x) - Z.log2 (Z.pos (Qden x)))%Z in
  if Qle_bool (2 ^ k) x then k else (k - 1)%Z.

(** The nearest integer, ties to even. *)
Definition rne (t : Q) : Z :=
  let f := Qfloor t in
  match Qcompare (t - inject_Z f) (1 # 2) with
  | Lt => f
  | Gt => (f + 1)%Z
  | Eq => if Z.even f then f else (f + 1)%Z
  end.

(** The exponent of the last place of [x]: 53 significant bits, and no
    exponent below that of the subnormal numbers. *)
Definition expo (x : Q) : Z := Z.max (ilog2 (Qabs x) - 52) (-1074).

(** The nearest number with a 53-bit significand. *)
Definition round (x : Q) : Q :=
  if Qeq_bool x 0 then 0
  else Qred (inject_Z (rne (x / 2 ^ expo x)) * 2 ^ expo x).

(** The float produced by an operation whose exact result is [x]; [None]
    is an infinity. *)
Definition result (x : Q) : option Q :=
  let r := round x in
  if Qle_bool (2 ^ 1024) (Qabs r) then None else Some r.

(** The largest relative error of a rounding in the normal range,
    [2^-53]. *)
Definition eps : Q := 1 # 9007199254740992.

(** [float(n)], also applied to an [int] operand of a float operation. *)
Definition of_int (n : Z) : exn + Q :=
  match result (inject_Z n) with
  | Some x => inr x
  | None => inl OverflowError
  end.

End F64.

(** ** Numeric helpers *)

(** [np.ceil] followed by [int(...)], on a finite float. *)
Definition np_ceil (x : Q) : Z := Qceiling x.

(** [int(np.ceil(x))] for a float [x] that may be an infinity. *)
Definition int_ceil (x : option Q) : exn + Z :=
  match x with
  | Some q => inr (np_ceil q)
  | None => inl OverflowError
  end.

(** [int(np.ceil(n * percentage / 100))] for an int [n] and a float
    [percentage]: the product and the quotient are each rounded. *)
Definition ceil_share (n : Z) (percentage : Q) : exn + Z :=
  match F64.of_int n with
  | inl e => inl e
  | inr x =>
      int_ceil (match F64.result (x * percentage) with
                | Some y => F64.result (y / 100)
                | None => None                      (* inf / 100 *)
                end)
  end.

(** [int(np.ceil(a / b))] for ints [a] and [b]: the true division of two
    ints is the quotient rounded once. *)
Definition ceil_ratio (a b : Z) : exn + Z :=
  if (b =? 0)%Z then inl ZeroDivisionError
  else match F64.result (inject_Z a / inject_Z b) with
       | Some q => inr (np_ceil q)
       | None => inl OverflowError
       end.

(** [int(np.ceil(100 / percentage))] for a float [percentage]. *)
Definition ceil_inverse_share (percentage : Q) : exn + Z :=
  if Qeq_bool percentage 0 then inl ZeroDivisionError
  else int_ceil (F64.result (100 / percentage)).

(** Python true division [a / b]; raises [ZeroDivisionError] on [b = 0]. *)
Definition py_div (a b : Q) : exn + Q :=
  if Qeq_bool b 0 then inl ZeroDivisionError else inr (a / b)%Q.

(** [range(n)]: empty when [n <= 0]. *)
Definition py_range (n : Z) : list Z := map Z.of_nat (seq 0 (Z.to_nat n)).

(** ** Partition arithmetic of [create_fragments] (lines 316-317, 346-348) *)

Module Planner.

(** [int(np.ceil(n_traj * percentage / 100))] *)
Definition trajectories_per_fragment (n_traj : Z) (percentage : Q) : exn + Z :=
  ceil_share n_traj percentage.

(** [int(np.ceil(n_traj / trajectories_per_fragment))] *)
Definition num_fragments (n_traj tpf : Z) : exn + Z :=
  ceil_ratio n_traj tpf.

(** Loop body, lines 347-348: [(start_idx, end_idx)] of iteration [i]. *)
Definition fragment_range (n_traj tpf i : Z) : Z * Z :=
  (i * tpf, Z.min ((i + 1) * tpf) n_traj).

(** The ranges visited by [for i in range(num_fragments)]. *)
Definition fragment_ranges (n_traj tpf num : Z) : list (Z * Z) :=
  map (fragment_range n_traj tpf) (py_range num).

(** The whole plan for a dataset size and a percentage. *)
Definition plan (n_traj : Z) (percentage : Q) : exn + list (Z * Z) :=
  match trajectories_per_fragment n_traj percentage with
  | inl e => inl e
  | inr tpf =>
      match num_fragments n_traj tpf with
      | inl e => inl e
      | inr num => inr (fragment_ranges n_traj tpf num)
      end
  end.

(** *** Properties of a sequence of half-open ranges *)

Definition in_range (i : Z) (r : Z * Z) : Prop := r.1 <= i < r.2.

(** Each range is non-empty and starts where the previous one ended;
    the first starts at [a], the last ends at [b]. *)
Fixpoint contiguous (a : Z) (rs : list (Z * Z)) (b : Z) : Prop :=
  match rs with
  | [] => a = b
  | r :: rs' => r.1 = a /\ r.1 < r.2 /\ contiguous r.2 rs' b
  end.

Definition pairwise_disjoint (rs : list (Z * Z)) : Prop :=
  forall (j k : nat) r1 r2, rs !! j = Some r1 -> rs !! k = Some r2 -> j <> k ->
    forall i, ~ (in_range i r1 /\ in_range i r2).

Definition covers (rs : list (Z * Z)) (n : Z) : Prop :=
  forall i, 0 <= i < n <-> exists r, r ∈ rs /\ in_range i r.

(** Every range but the last has exactly [w] elements; the last has
    between 1 and [w]. *)
Definition only_last_short (w : Z) (rs : list (Z * Z)) : Prop :=
  forall (k : nat) r, rs !! k = Some r ->
    0 < r.2 - r.1 <= w /\ ((S k < length rs)%nat -> r.2 - r.1 = w).

End Planner.


(** ** Python string methods used by the tools

    Strings are byte strings here; the methods below agree with Python's
    on ASCII input ([is_ascii]). *)

Module Str.

Definition chars (s : string) : list ascii := list_ascii_of_string s.
Definition of_chars (l : list ascii) : string := string_of_list_ascii l.

(** [s.isascii()] *)
Definition is_ascii (s : string) : bool :=
  forallb (fun c => (N_of_ascii c <? 128)%N) (chars s).

(** Whitespace removed by [str.strip()]: space, \t, \n, \v, \f, \r and
    the four separators 0x1c-0x1f. *)
Definition is_space (c : ascii) : bool :=
  let n := N_of_ascii c in
  ((n =? 32) || ((9 <=? n) && (n <=? 13)) || ((28 <=? n) && (n <=? 31)))%N.

Definition is_digit (c : ascii) : bool :=
  let n := N_of_ascii c in ((48 <=? n) && (n <=? 57))%N.

Definition lower_char (c : ascii) : ascii :=
  let n := N_of_ascii c in
  if ((65 <=? n) && (n <=? 90))%N then ascii_of_N (n + 32) else c.

Fixpoint lstrip (l : list ascii) : list ascii :=
  match l with
  | c :: l' => if is_space c then lstrip l' else l
  | [] => []
  end.

(** [s.strip()] *)
Definition strip (s : string) : string :=
  of_chars (rev (lstrip (rev (lstrip (chars s))))).

(** [s.lower()] *)
Definition lower (s : string) : string := of_chars (map lower_char (chars s)).

(** [s.isdigit()]: non-empty and all digits.  On ASCII text these are the
    digits 0-9; beyond ASCII Python also accepts other digit characters
    (a superscript two, say), which this model does not cover. *)
Definition isdigit (s : string) : bool :=
  match chars s with
  | [] => false
  | l => forallb is_digit l
  end.

Definition digit_val (c : ascii) : Z := Z.of_N (N_of_ascii c) - 48.

Definition digits_val (l : list ascii) : Z :=
  fold_left (fun acc c => 10 * acc + digit_val c) l 0.

(** [int(s)] for a string of ASCII digits (one short enough for the
    limit Python puts on integer conversions, 4300 digits by default). *)
Definition to_int (s : string) : Z := digits_val (chars s).

Fixpoint is_prefix (p l : list ascii) : bool :=
  match p, l with
  | [], _ => true
  | a :: p', b :: l' => if Ascii.eqb a b then is_prefix p' l' else false
  | _ :: _, [] => false
  end.

(** [s.endswith(suffix)] *)
Definition endswith (s suffix : string) : bool :=
  is_prefix (rev (chars suffix)) (rev (chars s)).

(** Non-overlapping left-to-right removal of a non-empty substring:
    [s.replace(sub, '')].  [fuel] bounds the scan by the length. *)
Fixpoint remove_go (fuel : nat) (sub l : list ascii) : list ascii :=
  match fuel with
  | O => l
  | S fuel' =>
      match l with
      | [] => []
      | c :: l' =>
          if is_prefix sub l then remove_go fuel' sub (drop (length sub) l)
          else c :: remove_go fuel' sub l'
      end
  end.

Definition remove_all (sub s : string) : string :=
  of_chars (remove_go (length (chars s)) (chars sub) (chars s)).

(** Longest prefix whose characters all satisfy [p]. *)
Fixpoint take_while (p : ascii -> bool) (l : list ascii) : list ascii :=
  match l with
  | c :: l' => if p c then c :: take_while p l' else []
  | [] => []
  end.

(** [os.path.basename] (POSIX): the part after the last slash. *)
Definition basename (s : string) : string :=
  of_chars (rev (take_while (fun c => negb (Ascii.eqb c "/")) (rev (chars s)))).

(** [s[:n]] *)
Definition truncate (n : nat) (s : string) : string := of_chars (take n (chars s)).

(** Decimal rendering of a non-negative integer, [str(n)]. *)
Definition of_Z (z : Z) : string :=
  DecimalString.NilZero.string_of_int (Z.to_int z).

(** [f"{n:03d}"] for [n >= 0]: zero-padded to at least three digits. *)
Definition fmt_03d (z : Z) : string :=
  let s := chars (of_Z z) in
  of_chars (replicate (3 - length s) "0"%char ++ s).

(** *** [float(s)]

    Accepts an optional sign, decimal digits with an optional fractional
    part, and an optional exponent; surrounding whitespace is ignored.
    The value is the nearest binary64 number.  [inf], [nan], digit-group
    underscores and literals too large for a finite float are outside the
    model and are rejected like any other malformed literal. *)

Definition split_at (sep : ascii -> bool) (l : list ascii)
  : list ascii * option (list ascii) :=
  let pre := take_while (fun c => negb (sep c)) l in
  match drop (length pre) l with
  | [] => (pre, None)
  | _ :: post => (pre, Some post)
  end.

Definition all_digits (l : list ascii) : bool := forallb is_digit l.

Definition parse_sign (l : list ascii) : bool * list ascii :=
  match l with
  | "-"%char :: l' => (true, l')
  | "+"%char :: l' => (false, l')
  | _ => (false, l)
  end.

Definition pow10 (e : Z) : Q :=
  if 0 <=? e then inject_Z (10 ^ e) else (1 / inject_Z (10 ^ (- e)))%Q.

Definition parse_mantissa (l : list ascii) : option Q :=
  let '(ip, fp) := split_at (fun c => Ascii.eqb c ".") l in
  let fp := default [] fp in
  if all_digits ip && all_digits fp && negb (Nat.eqb (length ip + length fp) 0)
  then Some (inject_Z (digits_val ip)
             + inject_Z (digits_val fp) / inject_Z (10 ^ Z.of_nat (length fp)))%Q
  else None.

Definition parse_exponent (l : list ascii) : option Z :=
  let '(neg, ds) := parse_sign l in
  if all_digits ds && negb (Nat.eqb (length ds) 0)
  then Some (if neg then - digits_val ds else digits_val ds)
  else None.

Definition to_float (s : string) : exn + Q :=
  let '(neg, body) := parse_sign (chars (strip s)) in
  let '(mant, ex) :=
    split_at (fun c => Ascii.eqb c "e" || Ascii.eqb c "E") body in
  let r :=
    m ← parse_mantissa mant;
    e ← match ex with None => Some 0 | Some el => parse_exponent el end;
    Some (Qred ((if neg then - m else m) * pow10 e))%Q in
  match r with
  | Some q =>
      match F64.result q with
      | Some x => inr x
      | None => inl (ValueError "could not convert string to float")
      end
  | None => inl (ValueError "could not convert string to float")
  end.

End Str.

(** ** Formatted messages

    An f-string is kept as the list of its literal pieces and interpolated
    values, so that the rendering of numbers (float [repr], [:,], [:.2f])
    need not be modelled. *)

Inductive fpiece : Type :=
| Lit (s : string)                    (* literal text or an interpolated str *)
| FmtZ (spec : string) (z : Z)        (* an interpolated int *)
| FmtQ (spec : string) (x : Q)        (* an interpolated float *)
| FmtA (xs : list Q)                  (* an interpolated array *)
| FmtE (e : exn).                     (* an interpolated exception *)

Abbreviation fstr := (list fpiece).

(** ** Labeled datasets (the part of xarray the tools rely on) *)

Inductive dtype : Type :=
| Float32 | Float64 | UInt8 | Int64 | Object | Unicode (width : nat).

(** One array element; [CNaN] is the floating-point not-a-number. *)
Inductive cell : Type :=
| CFloat (x : Q)
| CNaN
| CInt (z : Z)
| CStr (s : string).

(** A variable.  [da_values] holds the rows along the first dimension; a
    two-dimensional variable has one inner list per index of [da_dims]'s
    head. *)
Record DataArray : Type := mkDataArray {
  da_values : list (list cell);
  da_dtype : dtype;
  da_dims : list string;
  da_attrs : gmap string string
}.

(** A global attribute value: a text, a number, or an array of two or
    more numbers (a one-element array is read back as a number). *)
Inductive attr : Type :=
| AStr (s : string)
| AInt (z : Z)
| AFloat (x : Q)
| AArray (x0 x1 : Q) (more : list Q).

Record Dataset : Type := mkDataset {
  sizes : gmap string Z;              (* ds.sizes / ds.dims *)
  coords : gmap string DataArray;     (* ds.coords *)
  data_vars : gmap string DataArray;  (* ds.data_vars *)
  attrs : gmap string attr            (* ds.attrs *)
}.

(** [ds.variables]: data variables and coordinates together. *)
Definition variables (ds : Dataset) : gmap string DataArray :=
  data_vars ds ∪ coords ds.

(** [name in m] for a dict-like [m]. *)
Definition py_in {A} (name : string) (m : gmap string A) : bool :=
  bool_decide (is_Some (m !! name)).

(** [m[name]], raising [KeyError]. *)
Definition py_getitem {A} (m : gmap string A) (name : string) : exn + A :=
  match m !! name with
  | Some v => inr v
  | None => inl (KeyError name)
  end.

(** [ds[name] = da] for a name that is not a coordinate. *)
Definition set_variable (name : string) (da : DataArray) (ds : Dataset) : Dataset :=
  mkDataset (sizes ds) (coords ds) (<[name := da]> (data_vars ds)) (attrs ds).

(** [ds.attrs[name] = v] *)
Definition set_attr (name : string) (v : attr) (ds : Dataset) : Dataset :=
  mkDataset (sizes ds) (coords ds) (data_vars ds) (<[name := v]> (attrs ds)).

(** [np.full((n_traj, n_time), c)] *)
Definition np_full (n_traj n_time : Z) (c : cell) : list (list cell) :=
  replicate (Z.to_nat n_traj) (replicate (Z.to_nat n_time) c).

(** Conversion of a fill value to the array's dtype.  Unicode arrays of
    width [w] keep the first [w] characters of a string; the rounding of
    float32 is not modelled. *)
Definition cast (t : dtype) (c : cell) : cell :=
  match t, c with
  | Unicode w, CStr s => CStr (Str.truncate w s)
  | _, _ => c
  end.

(** [xr.DataArray(np.full(shape, value, dtype=t), dims=('trajectory',
    'time'), attrs=...)] *)
Definition full_array (n_traj n_time : Z) (value : cell) (t : dtype)
    (ats : list (string * string)) : DataArray :=
  mkDataArray (np_full n_traj n_time (cast t value)) t
              ["trajectory"; "time"]%string (list_to_map ats).

(** [l[start:stop]] for non-negative bounds (the only ones the tools
    produce); out-of-range bounds are clamped as in Python. *)
Definition py_slice {A} (start stop : Z) (l : list A) : list A :=
  take (Z.to_nat stop - Z.to_nat start) (drop (Z.to_nat start) l).

(** [len(range(n)[start:stop])] *)
Definition slice_len (start stop n : Z) : Z :=
  Z.of_nat (Nat.min (Z.to_nat stop - Z.to_nat start)
                    (Z.to_nat n - Z.to_nat start)).

(** Restriction of a variable to a trajectory slice: along the rows when
    "trajectory" is its first dimension, inside each row when it is the
    second; other variables are not indexed by trajectory. *)
Definition isel_array (start stop : Z) (da : DataArray) : DataArray :=
  match da_dims da with
  | d0 :: rest =>
      if String.eqb d0 "trajectory" then
        mkDataArray (py_slice start stop (da_values da))
                    (da_dtype da) (da_dims da) (da_attrs da)
      else match rest with
           | d1 :: _ =>
               if String.eqb d1 "trajectory" then
                 mkDataArray (map (py_slice start stop) (da_values da))
                             (da_dtype da) (da_dims da) (da_attrs da)
               else da
           | [] => da
           end
  | [] => da
  end.

(** [ds.isel(trajectory=slice(start, stop))] *)
Definition isel_trajectory (start stop : Z) (ds : Dataset) : Dataset :=
  mkDataset (alter (slice_len start stop) "trajectory"%string (sizes ds))
            (isel_array start stop <$> coords ds)
            (isel_array start stop <$> data_vars ds)
            (attrs ds).

(** ** Variable synthesis: [add_missing_sediment_variables] (lines 164-247) *)

(** The particle property parameter set, with the defaults of the
    signature. *)
Record Params : Type := mkParams {
  particle_class : string;
  particle_size_class : string;
  particle_diameter : Q;      (* metres *)
  particle_density : Q        (* kg/m3 *)
}.

Definition default_params : Params :=
  mkParams "other" "medium" (1 # 10000) 1027.

Module Synth.

Local Open Scope string_scope.

(** One [if name not in ds.variables: ds[name] = ...;
    added_vars.append(...)] block. *)
Definition add_if_absent (name : string) (da : DataArray) (msg : fstr)
    (st : Dataset * list fstr) : Dataset * list fstr :=
  let '(ds, added_vars) := st in
  if negb (py_in name (variables ds))
  then (set_variable name da ds, (added_vars ++ [msg])%list)
  else (ds, added_vars).

Definition diameter_array (n_traj n_time : Z) (p : Params) : DataArray :=
  full_array n_traj n_time (CFloat (particle_diameter p)) Float32
    [("units", "m"); ("long_name", "Particle diameter")].

Definition density_array (n_traj n_time : Z) (p : Params) : DataArray :=
  full_array n_traj n_time (CFloat (particle_density p)) Float32
    [("units", "kg m-3"); ("long_name", "Particle density")].

Definition class_array (n_traj n_time : Z) (p : Params) : DataArray :=
  full_array n_traj n_time (CStr (particle_class p)) Object
    [("units", "");
     ("classes", "oil,other,bubble,faecal_pellets,copepod,diatom_chain,oily_gas");
     ("long_name", "Particle classification")].

Definition size_class_array (n_traj n_time : Z) (p : Params) : DataArray :=
  full_array n_traj n_time (CStr (particle_size_class p)) (Unicode 6)
    [("units", "");
     ("classes", "small,medium,large");
     ("long_name", "Particle size classification")].

(** [np.zeros((n_traj, n_time), dtype=np.uint8)] *)
Definition settled_array (n_traj n_time : Z) : DataArray :=
  full_array n_traj n_time (CInt 0) UInt8
    [("units", "1"); ("long_name", "Particle settled on seafloor")].

Definition diffusivity_array (n_traj n_time : Z) : DataArray :=
  full_array n_traj n_time (CFloat (2 # 100)) Float32
    [("units", "m²/s"); ("long_name", "Ocean vertical diffusivity")].

Definition mixed_layer_array (n_traj n_time : Z) : DataArray :=
  full_array n_traj n_time (CFloat 50) Float32
    [("units", "m"); ("long_name", "Ocean mixed layer thickness")].

(** The seven [if name not in ds.variables] blocks of lines 179-241, in
    order: the name tested, the array assigned and the text appended to
    [added_vars]. *)
Definition derived_variables (n_traj n_time : Z) (p : Params)
  : list (string * DataArray * fstr) :=
  [("particulate_diameter", diameter_array n_traj n_time p,
    [Lit "particulate_diameter ("; FmtQ "" (particle_diameter p); Lit " m)"]);
   ("particulate_density", density_array n_traj n_time p,
    [Lit "particulate_density ("; FmtQ "" (particle_density p);
     Lit " kg/m³)"]);
   ("particulate_class", class_array n_traj n_time p,
    [Lit "particulate_class ("; Lit (particle_class p); Lit ")"]);
   ("particulate_size_class", size_class_array n_traj n_time p,
    [Lit "particulate_size_class ("; Lit (particle_size_class p); Lit ")"]);
   ("settled", settled_array n_traj n_time, [Lit "settled (0)"]);
   ("ocean_vertical_diffusivity", diffusivity_array n_traj n_time,
    [Lit "ocean_vertical_diffusivity (0.02 m²/s)"]);
   ("ocean_mixed_layer_thickness", mixed_layer_array n_traj n_time,
    [Lit "ocean_mixed_layer_thickness (50 m)"])].

(** The seven derived variable names. *)
Definition derived_names : list string :=
  ["particulate_diameter"; "particulate_density"; "particulate_class";
   "particulate_size_class"; "settled"; "ocean_vertical_diffusivity";
   "ocean_mixed_layer_thickness"].

Definition run_block (st : Dataset * list fstr)
    (block : string * DataArray * fstr) : Dataset * list fstr :=
  add_if_absent block.1.1 block.1.2 block.2 st.

(** Lines 243-245. *)
Definition mark_class (ds : Dataset) : Dataset :=
  if negb (py_in "opendrift_class" (attrs ds))
  then set_attr "opendrift_class" (AStr "SedimentDrift") ds
  else ds.

(** The function itself.  The dataset is mutated in place by the code;
    here the mutated dataset is returned next to the list of additions. *)
Definition add_missing_sediment_variables (ds : Dataset) (p : Params)
  : exn + (Dataset * list fstr) :=
  match py_getitem (sizes ds) "trajectory" with
  | inl e => inl e
  | inr n_traj =>
  match py_getitem (sizes ds) "time" with
  | inl e => inl e
  | inr n_time =>
      let '(ds, added_vars) :=
        fold_left run_block (derived_variables n_traj n_time p) (ds, []) in
      inr (mark_class ds, added_vars)
  end end.

End Synth.

(** ** The environment of a run and the monad of effectful code *)

Inductive fs_entry : Type :=
| Directory
| File (size : Z) (content : option Dataset).  (* [None]: not a NetCDF file *)

Inductive event : Type :=
| EvOpen (path : string)        (* xr.open_dataset *)
| EvClose (path : string)       (* close() on a dataset read from [path] *)
| EvMemoryEstimate              (* estimate_memory_requirements *)
| EvInput                       (* input(...) *)
| EvWrite (path : string).      (* ds.to_netcdf *)

Record World : Type := mkWorld {
  fs : gmap string fs_entry;          (* files by path *)
  stdin : list string;                (* lines still to be read by input() *)
  available_memory : Z;               (* psutil.virtual_memory().available *)
  nc_size : Dataset -> Z;             (* size in bytes of a serialized dataset *)
  writable : string -> bool;          (* can this path be opened for writing? *)
  open_error : string -> exn;         (* raised by xarray on a path it cannot open *)
  rng : nat -> Z -> Z -> list Z;      (* k-th draw of np.random.choice(n, m) *)
  rng_calls : nat;                    (* draws made so far *)
  open_handles : list string;         (* source files currently open *)
  trace : list event                  (* what has happened, oldest first *)
}.

Definition M (A : Type) : Type := World -> (exn + A) * World.

Definition ret {A} (x : A) : M A := fun w => (inr x, w).

Definition bind {A B} (m : M A) (f : A -> M B) : M B := fun w =>
  match m w with
  | (inr x, w') => f x w'
  | (inl e, w') => (inl e, w')
  end.

Notation "'let*' x ':=' m 'in' k" := (bind m (fun x => k))
  (at level 10, x name, m at level 100, k at level 200).
Notation "m '>>' k" := (bind m (fun _ => k))
  (at level 90, right associativity).

Definition raise {A} (e : exn) : M A := fun w => (inl e, w).

(** Result of a pure computation that may raise. *)
Definition lift {A} (r : exn + A) : M A := fun w => (r, w).

(** World updates. *)
Definition record_event (e : event) (w : World) : World :=
  mkWorld (fs w) (stdin w) (available_memory w) (nc_size w) (writable w)
          (open_error w) (rng w) (rng_calls w) (open_handles w) (trace w ++ [e]).

Definition set_fs (m : gmap string fs_entry) (w : World) : World :=
  mkWorld m (stdin w) (available_memory w) (nc_size w) (writable w)
          (open_error w) (rng w) (rng_calls w) (open_handles w) (trace w).

Definition set_stdin (lines : list string) (w : World) : World :=
  mkWorld (fs w) lines (available_memory w) (nc_size w) (writable w)
          (open_error w) (rng w) (rng_calls w) (open_handles w) (trace w).

Definition set_open_handles (hs : list string) (w : World) : World :=
  mkWorld (fs w) (stdin w) (available_memory w) (nc_size w) (writable w)
          (open_error w) (rng w) (rng_calls w) hs (trace w).

Definition set_rng_calls (n : nat) (w : World) : World :=
  mkWorld (fs w) (stdin w) (available_memory w) (nc_size w) (writable w)
          (open_error w) (rng w) n (open_handles w) (trace w).

Definition emit (e : event) : M unit := fun w => (inr tt, record_event e w).

(** [for x in l: st = body(x, st)] *)
Fixpoint for_each {A S} (l : list A) (body : A -> S -> M S) (st : S) : M S :=
  match l with
  | [] => ret st
  | x :: l' => let* st' := body x st in for_each l' body st'
  end.

Module Sys.

(** [xr.open_dataset(path)].  Which exception a path that holds no
    dataset raises is decided by xarray and its backends
    ([FileNotFoundError] from the netCDF library for a missing [.nc] file,
    [ValueError] when no backend recognises an existing file, ...); it is
    taken from the environment. *)
Definition open_dataset (path : string) : M Dataset :=
  emit (EvOpen path) >>
  fun w =>
    match fs w !! path with
    | Some (File _ (Some ds)) =>
        (inr ds, set_open_handles (path :: open_handles w) w)
    | _ => (inl (open_error w path), w)
    end.

Fixpoint remove_first (x : string) (l : list string) : list string :=
  match l with
  | [] => []
  | y :: l' => if String.eqb x y then l' else y :: remove_first x l'
  end.

(** [ds.close()] on the dataset opened from [path]. *)
Definition close (path : string) : M unit :=
  emit (EvClose path) >>
  fun w => (inr tt, set_open_handles (remove_first path (open_handles w)) w).

(** [d.close()] on a dataset [d] that reads from the file opened from
    [path]: a slice shares the file of the dataset it was taken from.
    [closed] tells whether that file has been closed already, through [d]
    or through another dataset sharing it; closing again is harmless, and
    only the call is recorded. *)
Definition close_shared (path : string) (closed : bool) : M unit :=
  if closed then emit (EvClose path) else close path.

(** [input(prompt)] *)
Definition input : M string :=
  emit EvInput >>
  fun w =>
    match stdin w with
    | line :: rest => (inr line, set_stdin rest w)
    | [] => (inl EOFError, w)
    end.

(** [psutil.virtual_memory().available] *)
Definition virtual_memory_available : M Z := fun w => (inr (available_memory w), w).

(** [ds.to_netcdf(path)] *)
Definition to_netcdf (ds : Dataset) (path : string) : M unit :=
  emit (EvWrite path) >>
  fun w =>
    if writable w path
    then (inr tt, set_fs (<[path := File (nc_size w ds) (Some ds)]> (fs w)) w)
    else (inl (OSError path), w).

(** [os.path.getsize(path)] *)
Definition getsize (path : string) : M Z := fun w =>
  match fs w !! path with
  | Some (File size _) => (inr size, w)
  | Some Directory => (inr 4096, w)
  | None => (inl (FileNotFoundError path), w)
  end.

(** [np.random.choice(n, m, replace=False)] *)
Definition random_choice (n m : Z) : M (list Z) := fun w =>
  (inr (rng w (rng_calls w) n m), set_rng_calls (S (rng_calls w)) w).

(** [os.path.exists], [os.path.isfile] *)
Definition exists_ (path : string) : M bool := fun w =>
  (inr (bool_decide (is_Some (fs w !! path))), w).

Definition isfile (path : string) : M bool := fun w =>
  (inr (match fs w !! path with Some (File _ _) => true | _ => false end), w).

End Sys.

(** ** Memory budget estimator (lines 96-162) *)

Definition Qltb (x y : Q) : bool := negb (Qle_bool y x).

(** [max(a, b)] and [min(a, b)] on floats. *)
Definition py_max (a b : Q) : Q := if Qltb a b then b else a.
Definition py_min (a b : Q) : Q := if Qltb b a then b else a.

Module Estimator.

Definition MiB : Q := inject_Z (1024 ^ 2).

(** The tuple returned by [estimate_memory_requirements]. *)
Record estimate : Type := mkEstimate {
  estimated_mb : Q;
  available_mb : Q;
  is_safe : bool;
  recommended_percentage : Q
}.

(** Body of [estimate_memory_requirements] once the sizes, the number of
    data variables and the available memory have been read. *)
Definition estimate_of (available n_traj n_time n_vars : Z) (percentage : Q)
  : exn + estimate :=
  let available_mb := (inject_Z available / MiB)%Q in
  match ceil_share n_traj percentage with
  | inl e => inl e
  | inr frag_traj =>
      let frag_bytes := frag_traj * n_time * 4 * n_vars in
      let estimated_mb := ((inject_Z frag_bytes / MiB) * 3)%Q in
      let is_safe := Qltb estimated_mb (available_mb * (1 # 2))%Q in
      if negb is_safe then
        let target_mb := (available_mb * (3 # 10))%Q in
        match py_div target_mb estimated_mb with
        | inl e => inl e
        | inr ratio =>
            let recommended := (ratio * percentage)%Q in
            let recommended := py_max 1 (py_min 100 recommended) in
            inr (mkEstimate estimated_mb available_mb is_safe recommended)
        end
      else inr (mkEstimate estimated_mb available_mb is_safe percentage)
  end.


Definition estimate_memory_requirements (ds : Dataset) (percentage : Q)
  : M estimate :=
  emit EvMemoryEstimate >>
  let* available := Sys.virtual_memory_available in
  let* n_traj := lift (py_getitem (sizes ds) "trajectory") in
  let* n_time := lift (py_getitem (sizes ds) "time") in
  let n_vars := Z.of_nat (size (data_vars ds)) in
  lift (estimate_of available n_traj n_time n_vars percentage).

(** [check_memory_safety]: the printed figures are not kept, but the
    divisions evaluated for them can raise. *)
Definition check_memory_safety (ds : Dataset) (percentage : Q) : M bool :=
  let* est := estimate_memory_requirements ds percentage in
  let* _ := lift (py_div (estimated_mb est) (available_mb est)) in
  if negb (is_safe est) then
    let* _ := lift (py_div 100 (recommended_percentage est)) in
    let* response := Sys.input in
    ret (String.eqb (Str.lower (Str.strip response)) "y")
  else ret true.

End Estimator.

(** ** Fragmentation orchestrator: [create_fragments] (lines 250-413) *)

Module Fragmenter.

Local Open Scope string_scope.

(** [f"{output_prefix}_fragment_{fragment_num:03d}_of_{num_fragments:03d}.nc"] *)
Definition fragment_file_name (output_prefix : string) (fragment_num num : Z)
  : string :=
  output_prefix ++ "_fragment_" ++ Str.fmt_03d fragment_num
                ++ "_of_" ++ Str.fmt_03d num ++ ".nc".

(** Lines 377-382: the provenance attributes of a fragment. *)
Definition annotate (fragment_num num start_idx end_idx : Z)
    (input_file : string) (ds : Dataset) : Dataset :=
  let ds := set_attr "fragment_number" (AInt fragment_num) ds in
  let ds := set_attr "total_fragments" (AInt num) ds in
  let ds := set_attr "fragment_trajectory_start" (AInt start_idx) ds in
  let ds := set_attr "fragment_trajectory_end" (AInt end_idx) ds in
  let ds := set_attr "original_file" (AStr (Str.basename input_file)) ds in
  set_attr "modified_by" (AStr "fragment_with_sediment.py") ds.

(** One iteration of the loop of lines 346-392.  The loop state is the
    list of the files written so far and whether the source file has been
    closed: [ds_fragment.close()] (line 392) closes the file the slice
    shares with [ds], so the source is closed from the end of the first
    iteration on (reading a later slice reopens it for the time of the
    write). *)
Definition write_fragment (ds : Dataset) (input_file output_prefix : string)
    (n_traj tpf num : Z) (add_sediment_vars : bool) (p : Params)
    (i : Z) (st : list string * bool) : M (list string * bool) :=
  let '(output_files, closed) := st in
  let '(start_idx, end_idx) := Planner.fragment_range n_traj tpf i in
  let fragment_num := i + 1 in
  let output_file := fragment_file_name output_prefix fragment_num num in
  let ds_fragment := isel_trajectory start_idx end_idx ds in
  let* ds_fragment :=
    (if add_sediment_vars
     then let* r := lift (Synth.add_missing_sediment_variables ds_fragment p) in
          ret r.1
     else ret ds_fragment) in
  let ds_fragment :=
    annotate fragment_num num start_idx end_idx input_file ds_fragment in
  Sys.to_netcdf ds_fragment output_file >>
  let* file_size := Sys.getsize output_file in
  Sys.close_shared input_file closed >>
  ret ((output_files ++ [output_file])%list, true).

(** [sum(os.path.getsize(f) / (1024**2) for f in output_files)] *)
Definition total_size (output_files : list string) : M Q :=
  for_each output_files
    (fun f acc => let* sz := Sys.getsize f in
                  ret (acc + inject_Z sz / Estimator.MiB)%Q) 0%Q.

Definition create_fragments (input_file : string)
    (output_prefix : option string) (percentage : Q)
    (add_sediment_vars : bool) (p : Params) : M (list string) :=
  let output_prefix :=
    match output_prefix with
    | None => Str.remove_all ".nc" input_file
    | Some pre => pre
    end in
  let* ds := Sys.open_dataset input_file in
  let* n_traj := lift (py_getitem (sizes ds) "trajectory") in
  let* n_time := lift (py_getitem (sizes ds) "time") in
  let* ok := Estimator.check_memory_safety ds percentage in
  if negb ok then
    Sys.close input_file >> ret []
  else
    if Qle_bool percentage 0 || Qltb 100 percentage then
      raise (ValueError "Percentage must be between 0 and 100")
    else
      let* tpf := lift (Planner.trajectories_per_fragment n_traj percentage) in
      let* num := lift (Planner.num_fragments n_traj tpf) in
      (* printed: (trajectories_per_fragment / n_traj) * 100 *)
      let* _ := lift (py_div (inject_Z tpf) (inject_Z n_traj)) in
      let* st :=
        for_each (py_range num)
                 (write_fragment ds input_file output_prefix n_traj tpf num
                                 add_sediment_vars p) ([], false) in
      let '(output_files, closed) := st in
      Sys.close_shared input_file closed >>
      let* original := Sys.getsize input_file in
      let original_size := (inject_Z original / Estimator.MiB)%Q in
      let* total_fragment_size := total_size output_files in
      (* printed: (total_fragment_size / original_size - 1) * 100 *)
      let* _ := lift (py_div total_fragment_size original_size) in
      ret output_files.

(** *** [interactive_mode] (lines 416-502) *)

Definition classes : list string :=
  ["oil"; "other"; "bubble"; "faecal_pellets"; "copepod"; "diatom_chain";
   "oily_gas"].

Definition size_classes : list string := ["small"; "medium"; "large"].

(** [options[int(choice)-1] if choice.isdigit() and 1 <= int(choice) <= n
    else default], for an ASCII answer.  (Where [isdigit] accepts a
    character that [int] rejects the code raises [ValueError]; such answers
    are not ASCII.) *)
Definition select (options : list string) (default : string)
    (choice : string) : string :=
  if Str.isdigit choice
     && (1 <=? Str.to_int choice)%Z
     && (Str.to_int choice <=? Z.of_nat (length options))%Z
  then nth (Z.to_nat (Str.to_int choice - 1)) options default
  else default.

(** [float(s) if s else default], after an optional conversion. *)
Definition float_or (s : string) (default : Q) (conv : Q -> Q) : M Q :=
  if String.eqb s "" then ret default
  else let* x := lift (Str.to_float s) in ret (conv x).

Definition ask_params : M Params :=
  let* choice := Sys.input in
  let particle_class := select classes "other" (Str.strip choice) in
  let* choice := Sys.input in
  let particle_size_class := select size_classes "medium" (Str.strip choice) in
  let* diameter_input := Sys.input in
  let* particle_diameter :=
    float_or (Str.strip diameter_input) (1 # 10000) (fun mm => mm / 1000)%Q in
  let* density_input := Sys.input in
  let* particle_density :=
    float_or (Str.strip density_input) 1027 (fun x => x) in
  ret (mkParams particle_class particle_size_class
                particle_diameter particle_density).

(** Returns [None] when the user cancels at the final confirmation. *)
Definition interactive_mode (input_file : string) : M (option (list string)) :=
  let* percentage_input := Sys.input in
  let* percentage := float_or (Str.strip percentage_input) 10 (fun x => x) in
  let* ds := Sys.open_dataset input_file in
  let* n_traj := lift (py_getitem (sizes ds) "trajectory") in
  let* num_fragments := lift (ceil_inverse_share percentage) in
  (* printed: n_traj // num_fragments *)
  (if (num_fragments =? 0)%Z then raise ZeroDivisionError else ret tt) >>
  Sys.close input_file >>
  let* add_vars := Sys.input in
  let add_sediment_vars := negb (String.eqb (Str.lower (Str.strip add_vars)) "n") in
  let* p := (if add_sediment_vars then ask_params else ret default_params) in
  let* output_prefix := Sys.input in
  let output_prefix :=
    if String.eqb (Str.strip output_prefix) "" then None
    else Some (Str.strip output_prefix) in
  let* proceed := Sys.input in
  if String.eqb (Str.lower (Str.strip proceed)) "n" then ret None
  else
    let* files := create_fragments input_file output_prefix percentage
                                   add_sediment_vars p in
    ret (Some files).

(** *** [main] (lines 505-542); [argv] is [sys.argv]. *)
Definition main (argv : list string) : M unit :=
  match argv with
  | [] | [_] => ret tt                       (* usage text only *)
  | [_; input_file] => interactive_mode input_file >> ret tt
  | _ :: input_file :: percentage :: rest =>
      let* percentage := lift (Str.to_float percentage) in
      let output_prefix := head rest in
      create_fragments input_file output_prefix percentage true default_params
      >> ret tt
  end.

End Fragmenter.

(** ** The validator ([GeoViz_Validator.py]) *)

Module Validator.

Local Open Scope string_scope.

(** [class ValidationResult] (lines 62-93) *)
Record ValidationResult : Type := mkResult {
  errors : list fstr;      (* critical issues that prevent usage *)
  warnings : list fstr;    (* issues that may cause problems *)
  missing : list fstr;     (* missing required variables *)
  info : list fstr;        (* informational messages *)
  passed : list fstr       (* successful checks *)
}.

Definition empty_result : ValidationResult := mkResult [] [] [] [] [].

Definition add_error (message : fstr) (r : ValidationResult) :=
  mkResult (errors r ++ [Lit "❌ ERROR: " :: message]) (warnings r)
           (missing r) (info r) (passed r).

Definition add_warning (message : fstr) (r : ValidationResult) :=
  mkResult (errors r) (warnings r ++ [Lit "⚠️  WARNING: " :: message])
           (missing r) (info r) (passed r).

Definition add_missing (message : fstr) (r : ValidationResult) :=
  mkResult (errors r) (warnings r)
           (missing r ++ [Lit "⚠️  MISSING: " :: message]) (info r) (passed r).

Definition add_info (message : fstr) (r : ValidationResult) :=
  mkResult (errors r) (warnings r) (missing r)
           (info r ++ [Lit "ℹ️  INFO: " :: message]) (passed r).

Definition add_pass (message : fstr) (r : ValidationResult) :=
  mkResult (errors r) (warnings r) (missing r) (info r)
           (passed r ++ [Lit "✓ " :: message]).

(** [is_valid]: no critical errors. *)
Definition is_valid (r : ValidationResult) : bool :=
  Nat.eqb (length (errors r)) 0.

(** [has_all_required]: no missing required variable. *)
Definition has_all_required (r : ValidationResult) : bool :=
  Nat.eqb (length (missing r)) 0.

(** [validate_file_access] (lines 147-166) *)
Definition validate_file_access (filepath : string) : M ValidationResult :=
  let result := empty_result in
  let* ex := Sys.exists_ filepath in
  if negb ex then
    ret (add_error [Lit "File not found: "; Lit filepath] result)
  else
    let* isf := Sys.isfile filepath in
    if negb isf then
      ret (add_error [Lit "Path is not a file: "; Lit filepath] result)
    else
      let result :=
        if negb (Str.endswith filepath ".nc")
        then add_warning [Lit "File does not have .nc extension"] result
        else result in
      let* size := Sys.getsize filepath in
      let file_size_mb := (inject_Z size / Estimator.MiB)%Q in
      let result :=
        add_info [Lit "File size: "; FmtQ ".2f" file_size_mb; Lit " MB"] result in
      ret (add_pass [Lit "File exists and is accessible"] result).

(** [validate_dimensions] (lines 169-200) *)
Definition check_dim (ds : Dataset) (dim : string) (result : ValidationResult) :=
  match sizes ds !! dim with
  | Some size =>
      add_pass [Lit "Required dimension '"; Lit dim; Lit "' present (";
                FmtZ "," size; Lit " elements)"] result
  | None => add_error [Lit "Missing required dimension: "; Lit dim] result
  end.

Definition check_size (n : Z) (none few : string) (result : ValidationResult) :=
  if (n <? 1)%Z then add_error [Lit none] result
  else if (n <? 10)%Z
       then add_warning [Lit few; FmtZ "" n; Lit ")"] result
       else result.

Definition validate_dimensions (ds : Dataset) : ValidationResult :=
  let result := empty_result in
  let result := fold_left (fun r dim => check_dim ds dim r)
                          ["trajectory"; "time"] result in
  match sizes ds !! "trajectory", sizes ds !! "time" with
  | Some n_traj, Some n_time =>
      let result :=
        add_info [Lit "Total data points: "; FmtZ "," (n_traj * n_time)] result in
      let result := check_size n_traj "No trajectories in dataset"
                               "Very few trajectories (" result in
      check_size n_time "No time steps in dataset"
                 "Very few time steps (" result
  | _, _ => result
  end.

(** [validate_sediment_variables] (lines 203-234); the two dicts are
    kept as association lists in insertion order. *)
Definition required_vars : list (string * string) :=
  [("particulate_diameter", "Particle diameter");
   ("particulate_density", "Particle density");
   ("particulate_class", "Particle classification");
   ("particulate_size_class", "Particle size classification");
   ("settled", "Settlement status")].

Definition optional_vars : list (string * string) :=
  [("ocean_vertical_diffusivity", "Ocean vertical mixing coefficient");
   ("ocean_mixed_layer_thickness", "Mixed layer depth")].

Definition check_required (ds : Dataset) (result : ValidationResult)
    (item : string * string) : ValidationResult :=
  let '(var_name, description) := item in
  if py_in var_name (variables ds)
  then add_pass [Lit "Required variable '"; Lit var_name; Lit "' present"] result
  else add_missing [Lit var_name; Lit " ("; Lit description; Lit ")"] result.

Definition check_optional (ds : Dataset) (result : ValidationResult)
    (item : string * string) : ValidationResult :=
  let '(var_name, description) := item in
  if py_in var_name (variables ds)
  then add_pass [Lit "Optional variable '"; Lit var_name; Lit "' present"] result
  else add_info [Lit "Optional variable '"; Lit var_name;
                 Lit "' not present ("; Lit description; Lit ")"] result.

Definition validate_sediment_variables (ds : Dataset) : ValidationResult :=
  let result := empty_result in
  let result := fold_left (check_required ds) required_vars result in
  fold_left (check_optional ds) optional_vars result.

(** [validate_trajectory_variables] (lines 237-254) *)
Definition common_vars : list (string * string) :=
  [("lon", "Longitude"); ("lat", "Latitude"); ("z", "Depth");
   ("status", "Particle status")].

Definition check_common (ds : Dataset) (result : ValidationResult)
    (item : string * string) : ValidationResult :=
  let '(var_name, description) := item in
  if py_in var_name (variables ds)
  then add_pass [Lit "Trajectory variable '"; Lit var_name; Lit "' present (";
                 Lit description; Lit ")"] result
  else add_warning [Lit "Common variable '"; Lit var_name; Lit "' not found (";
                    Lit description; Lit ")"] result.

Definition validate_trajectory_variables (ds : Dataset) : ValidationResult :=
  fold_left (check_common ds) common_vars empty_result.

(** [validate_attributes] (lines 257-282) *)
Definition fmt_attr (a : attr) : fpiece :=
  match a with
  | AStr s => Lit s
  | AInt z => FmtZ "" z
  | AFloat x => FmtQ "" x
  | AArray x0 x1 more => FmtA (x0 :: x1 :: more)
  end.

(** [a != s] used as a condition, for a text [s]: a number differs from
    every text; an array is compared element by element, and the array of
    truth values that results has no truth value of its own. *)
Definition attr_differs (a : attr) (s : string) : exn + bool :=
  match a with
  | AStr s' => inr (negb (String.eqb s' s))
  | AInt _ | AFloat _ => inr true
  | AArray _ _ _ =>
      inl (ValueError "The truth value of an array with more than one element is ambiguous.")
  end.

Definition recommended_attrs : list string :=
  ["title"; "institution"; "source"; "history"; "Conventions"].

Definition check_attr (ds : Dataset) (result : ValidationResult)
    (name : string) : ValidationResult :=
  if py_in name (attrs ds)
  then add_pass [Lit "Metadata attribute '"; Lit name; Lit "' present"] result
  else add_info [Lit "Optional metadata '"; Lit name; Lit "' not present"] result.

Definition validate_attributes (ds : Dataset) : exn + ValidationResult :=
  let result := empty_result in
  let checked :=
    match attrs ds !! "opendrift_class" with
    | Some opendrift_class =>
        let result :=
          add_pass [Lit "OpenDrift class: "; fmt_attr opendrift_class] result in
        match attr_differs opendrift_class "SedimentDrift" with
        | inl e => inl e
        | inr true =>
            inr (add_info [Lit "OpenDrift class is '"; fmt_attr opendrift_class;
                           Lit "' (expected 'SedimentDrift')"] result)
        | inr false => inr result
        end
    | None =>
        inr (add_warning [Lit "Missing 'opendrift_class' attribute"] result)
    end in
  match checked with
  | inl e => inl e
  | inr result => inr (fold_left (check_attr ds) recommended_attrs result)
  end.

(** [validate_data_integrity] (lines 285-349) *)

(** [traverse] for computations that may raise. *)
Fixpoint map_exn {A B} (f : A -> exn + B) (l : list A) : exn + list B :=
  match l with
  | [] => inr []
  | x :: l' =>
      match f x with
      | inl e => inl e
      | inr y => match map_exn f l' with
                 | inl e => inl e
                 | inr ys => inr (y :: ys)
                 end
      end
  end.

Definition index {A} (l : list A) (i : Z) : exn + A :=
  match l !! Z.to_nat i with
  | Some x => inr x
  | None => inl IndexError
  end.

(** [da.isel(trajectory=traj_indices, time=time_indices).values],
    flattened.  A variable that lacks one of the two dimensions makes
    [isel] raise; variables with further dimensions are not modelled and
    take the same path. *)
Definition isel_values (da : DataArray) (traj_indices time_indices : list Z)
  : exn + list cell :=
  let pick rows_idx cols_idx :=
    match map_exn (fun i =>
                     match index (da_values da) i with
                     | inl e => inl e
                     | inr row => map_exn (index row) cols_idx
                     end) rows_idx with
    | inl e => inl e
    | inr rows => inr (concat rows)
    end in
  match da_dims da with
  | [d0; d1] =>
      if String.eqb d0 "trajectory" && String.eqb d1 "time"
      then pick traj_indices time_indices
      else if String.eqb d0 "time" && String.eqb d1 "trajectory"
           then pick time_indices traj_indices
           else inl (ValueError "Dimensions do not exist")
  | _ => inl (ValueError "Dimensions do not exist")
  end.

(** [sample[~np.isnan(sample)]]: [np.isnan] rejects non-numeric arrays. *)
Definition drop_nan (sample : list cell) : exn + list Q :=
  match map_exn (fun c => match c with
                          | CFloat x => inr (Some x)
                          | CInt z => inr (Some (inject_Z z))
                          | CNaN => inr None
                          | CStr _ => inl TypeError
                          end) sample with
  | inl e => inl e
  | inr l => inr (omap id l)
  end.

(** [np.min], [np.max] of a non-empty array given as head and tail. *)
Definition np_min (x : Q) (l : list Q) : Q := fold_left py_min l x.
Definition np_max (x : Q) (l : list Q) : Q := fold_left (fun a b => py_max a b) l x.

(** The [try] block shared, up to its texts and bounds, by the longitude
    and latitude checks. *)
Definition check_range (ds : Dataset) (name : string) (bound : Q)
    (label range_text : string) (traj_indices time_indices : list Z)
    (result : ValidationResult) : ValidationResult :=
  match variables ds !! name with
  | None => result
  | Some da =>
      let attempt :=
        match isel_values da traj_indices time_indices with
        | inl e => inl e
        | inr sample => drop_nan sample
        end in
      match attempt with
      | inl e =>
          add_warning [Lit "Could not validate "; Lit (Str.lower label);
                       Lit ": "; FmtE e] result
      | inr [] => result
      | inr (x :: valid) =>
          let lo := np_min x valid in
          let hi := np_max x valid in
          if Qltb lo (- bound) || Qltb bound hi
          then add_warning [Lit label; Lit " sample values outside valid range ";
                            Lit range_text; Lit ": ["; FmtQ ".2f" lo; Lit ", ";
                            FmtQ ".2f" hi; Lit "]"] result
          else add_pass [Lit label; Lit " sample range valid: [";
                         FmtQ ".2f" lo; Lit ", "; FmtQ ".2f" hi; Lit "]"] result
      end
  end.

Definition sample_indices (n sample : Z) : M (list Z) :=
  if (sample <? n)%Z then Sys.random_choice n sample else ret (py_range n).

Definition validate_data_integrity (ds : Dataset) (quick : bool)
  : M ValidationResult :=
  let result := empty_result in
  if quick then
    ret (add_info [Lit "Skipping data sampling (--quick mode)"] result)
  else
    let result := add_info [Lit "Sampling data for integrity checks..."] result in
    let n_traj := default 0%Z (sizes ds !! "trajectory") in
    let n_time := default 0%Z (sizes ds !! "time") in
    let sample_traj := Z.min 100 n_traj in
    let sample_time := Z.min 100 n_time in
    let* traj_indices := sample_indices n_traj sample_traj in
    let* time_indices := sample_indices n_time sample_time in
    let result := check_range ds "lon" 180 "Longitude" "[-180, 180]"
                              traj_indices time_indices result in
    let result := check_range ds "lat" 90 "Latitude" "[-90, 90]"
                              traj_indices time_indices result in
    ret (add_info [Lit "Data integrity checked using "; FmtZ "" sample_traj;
                   Lit "×"; FmtZ "" sample_time; Lit " sample"] result).

(** [validate_dataset] (lines 408-500) *)

(** [try: m  except Exception as e: h(e)] *)
Definition try_catch {A} (m : M A) (h : exn -> M A) : M A := fun w =>
  match m w with
  | (inl e, w') => h e w'
  | r => r
  end.

(** Lines 473-477: the five [extend] calls. *)
Definition merge (overall check_result : ValidationResult) : ValidationResult :=
  mkResult (errors overall ++ errors check_result)
           (warnings overall ++ warnings check_result)
           (missing overall ++ missing check_result)
           (info overall ++ info check_result)
           (passed overall ++ passed check_result).

Definition checks (quick : bool) : list (string * (Dataset -> M ValidationResult)) :=
  [("Dimensions", fun ds => ret (validate_dimensions ds));
   ("SedimentDrift Variables", fun ds => ret (validate_sediment_variables ds));
   ("Trajectory Variables", fun ds => ret (validate_trajectory_variables ds));
   ("Attributes", fun ds => lift (validate_attributes ds));
   ("Data Integrity", fun ds => validate_data_integrity ds quick)].

(** Body of the loop of lines 467-493. *)
Definition run_check (ds : Dataset)
    (check : string * (Dataset -> M ValidationResult))
    (overall_result : ValidationResult) : M ValidationResult :=
  try_catch
    (let* check_result := check.2 ds in ret (merge overall_result check_result))
    (fun e => ret (add_error [Lit "Validation check failed: "; FmtE e]
                             overall_result)).

Definition validate_dataset (filepath : string) (verbose quick : bool)
  : M ValidationResult :=
  let* file_result := validate_file_access filepath in
  if negb (is_valid file_result) then ret file_result
  else
    let* opened :=
      try_catch (let* ds := Sys.open_dataset filepath in ret (inr ds))
                (fun e => ret (inl e)) in
    match opened with
    | inl e =>
        ret (add_error [Lit "Failed to open NetCDF file: "; FmtE e] empty_result)
    | inr ds =>
        let* overall_result := for_each (checks quick) (run_check ds) empty_result in
        Sys.close filepath >>
        ret overall_result
    end.

Definition mem (x : string) (l : list string) : bool :=
  existsb (String.eqb x) l.

(** [main] (lines 503-529): the value handed to [sys.exit]. *)
Definition main (argv : list string) : M Z :=
  match argv with
  | [] | [_] => ret 1%Z
  | _ :: input_file :: _ =>
      let verbose := mem "--verbose" argv || mem "-v" argv in
      let quick := mem "--quick" argv || mem "-q" argv in
      let* result := validate_dataset input_file verbose quick in
      ret (if is_valid result && has_all_required result then 0 else 1)%Z
  end.

End Validator.

(** ** A sample run environment

    A source file [mydata.nc] of 250 trajectories and 10 samples with
    longitude and latitude and none of the derived variables. *)

Module Sample.

Local Open Scope string_scope.

Definition track (c : Q) : DataArray :=
  mkDataArray (np_full 250 10 (CFloat c)) Float32 ["trajectory"; "time"] ∅.

Definition source : Dataset :=
  mkDataset (list_to_map [("trajectory", 250%Z); ("time", 10%Z)]) ∅
            (list_to_map [("lon", track 4); ("lat", track 52)]) ∅.

(** What the netCDF library raises for a [.nc] path that does not
    exist. *)
Definition missing_file (path : string) : exn := FileNotFoundError path.

(** The environment with [available] bytes of free memory and [lines]
    waiting on standard input. *)
Definition world (available : Z) (lines : list string) : World :=
  mkWorld (list_to_map [("mydata.nc", File 20000 (Some source))]) lines
          available (fun _ => 8000%Z) (fun _ => true) missing_file
          (fun _ _ m => py_range m) 0 [] [].

End Sample.

(** ** Predicates used to state the properties *)

(** The float value of [n * percentage / 100] when no operation overflows:
    the int is converted, the product is rounded, then the quotient. *)
Definition share (n : Z) (percentage : Q) : Q :=
  F64.round (F64.round (F64.round (inject_Z n) * percentage) / 100).

(** What a run of [if name not in ds.variables] blocks does to a dataset:
    nothing but the variables changes, no variable that existed is
    touched, every tested name exists afterwards, and a variable that
    differs afterwards is a tested name that was absent. *)
Record synthesized (names : list string) (ds ds' : Dataset) : Prop := {
  syn_sizes : sizes ds' = sizes ds;
  syn_coords : coords ds' = coords ds;
  syn_attrs : attrs ds' = attrs ds;
  syn_kept : forall name da,
    variables ds !! name = Some da -> variables ds' !! name = Some da;
  syn_present : forall name,
    name ∈ names -> is_Some (variables ds' !! name);
  syn_changed : forall name,
    variables ds' !! name <> variables ds !! name ->
    name ∈ names /\ variables ds !! name = None
}.

(** A computation that writes no file: the file system is unchanged and
    no write event is recorded. *)
Definition writes_nothing {A} (m : M A) : Prop :=
  forall w,
    fs (m w).2 = fs w /\
    exists evs, trace (m w).2 = trace w ++ evs /\
                forall path, EvWrite path ∉ evs.

(** ** [ValidationResult.print_summary] (lines 95-144)

    The summary is kept as the list of the texts handed to [print], one
    entry per call. *)

Module Summary.

Local Open Scope string_scope.

Definition nl : string := String (ascii_of_nat 10) "".

(** ["=" * 80] *)
Definition rule : string := Str.of_chars (replicate 80 "="%char).

(** One [if self.<category>: print(header); for msg in ...: print(f"  {msg}")]
    block. *)
Definition section_lines (icon_and_title : string) (msgs : list fstr)
  : list fstr :=
  match msgs with
  | [] => []
  | _ => [Lit (nl ++ icon_and_title ++ " (");
          FmtZ "" (Z.of_nat (length msgs)); Lit "):"]
         :: map (fun msg => Lit "  " :: msg) msgs
  end.

(** Lines 132-142: the final result message. *)
Definition result_lines (r : Validator.ValidationResult) : list fstr :=
  match Validator.errors r, Validator.missing r with
  | _ :: _, _ =>
      [[Lit "RESULT: ❌ Dataset has critical errors that prevent usage"]]
  | [], _ :: _ =>
      [[Lit "RESULT: Required Variables are Missing"];
       [Lit (nl ++ "Recommendation: Use GeoViz_Compatibility_Tool.py to add missing variables.")]]
  | [], [] =>
      [[Lit "RESULT: ✓ Dataset passed all checks, it contains all required variables."];
       [Lit (nl ++ "If the dataset is too big for visualization, use GeoViz_Compatibility_Tool.py")];
       [Lit "to create smaller fragments to visualize them one by one."];
       [Lit "Otherwise you can use GeoViz to visualize this dataset directly."]]
  end.

Definition print_summary (r : Validator.ValidationResult) : list fstr :=
  [[Lit (nl ++ rule)]; [Lit "VALIDATION SUMMARY"]; [Lit rule]]
  ++ section_lines "✓ Passed Checks" (Validator.passed r)
  ++ section_lines "⚠️  Missing Variables" (Validator.missing r)
  ++ section_lines "ℹ️  Information" (Validator.info r)
  ++ section_lines "⚠️  Warnings" (Validator.warnings r)
  ++ section_lines "❌ Critical Errors" (Validator.errors r)
  ++ [[Lit (nl ++ rule)]]
  ++ result_lines r
  ++ [[Lit rule]].

End Summary.

(** ** What a run of the fragment loop leaves behind *)

Module Run.

(** The dataset built and written by iteration [i] of the loop of
    [create_fragments] (lines 347-382): the slice, with the derived
    variables added when requested, and the provenance attributes. *)
Definition fragment_dataset (ds : Dataset) (input_file : string)
    (n_traj tpf num : Z) (add_sediment_vars : bool) (p : Params) (i : Z)
  : Dataset :=
  let r := Planner.fragment_range n_traj tpf i in
  let sliced := isel_trajectory r.1 r.2 ds in
  let filled :=
    if add_sediment_vars
    then match Synth.add_missing_sediment_variables sliced p with
         | inr res => res.1
         | inl _ => sliced
         end
    else sliced in
  Fragmenter.annotate (i + 1) num r.1 r.2 input_file filled.

(** The output prefix in use: the one given, or the input name without
    [.nc]. *)
Definition prefix_of (input_file : string) (output_prefix : option string)
  : string :=
  match output_prefix with
  | None => Str.remove_all ".nc" input_file
  | Some pre => pre
  end.

(** The file system after the datasets [frag i] have been written, in
    order, under the names [name i], for [i] in [idxs]. *)
Definition written_fs (size_of : Dataset -> Z) (name : Z -> string)
    (frag : Z -> Dataset) (idxs : list Z) (m : gmap string fs_entry)
  : gmap string fs_entry :=
  fold_left (fun m i => <[name i := File (size_of (frag i)) (Some (frag i))]> m)
            idxs m.

(** What the iterations [idxs] of the loop record: each fragment is
    written, then closed. *)
Definition loop_events (source : string) (name : Z -> string) (idxs : list Z)
  : list event :=
  concat (map (fun i => [EvWrite (name i); EvClose source]) idxs).

(** The world after those iterations: the files exist, the events have
    been recorded, and the source file, if it was still open ([closed] is
    false), has been closed by the first of them. *)
Definition written_world (source : string) (name : Z -> string)
    (frag : Z -> Dataset) (idxs : list Z) (closed : bool) (w : World) : World :=
  mkWorld (written_fs (nc_size w) name frag idxs (fs w))
          (stdin w) (available_memory w) (nc_size w) (writable w)
          (open_error w) (rng w) (rng_calls w)
          (match idxs with
           | [] => open_handles w
           | _ :: _ => if closed then open_handles w
                       else Sys.remove_first source (open_handles w)
           end)
          (trace w ++ loop_events source name idxs).

(** [path] names a non-empty regular file. *)
Definition is_file (m : gmap string fs_entry) (path : string) : Prop :=
  exists size content, m !! path = Some (File size content) /\ 0 < size.

(** A computation with an optional result that, whenever it returns
    [None], has written no file. *)
Definition quiet_when_none {A} (m : M (option A)) : Prop :=
  forall w,
    (m w).1 = inr None ->
    fs (m w).2 = fs w /\
    exists evs, trace (m w).2 = trace w ++ evs /\
                forall path, EvWrite path ∉ evs.

End Run.

(** * Properties *)

(** ** Binary64 rounding *)



Section Pow2.
Local Open Scope Q_scope.

Lemma pow2_pos (e : Z) : 0 < 2 ^ e.
Proof. apply Qpower_0_lt. reflexivity. Qed.

Lemma pow2_plus (a b : Z) : 2 ^ (a + b) == 2 ^ a * 2 ^ b.
Proof. apply Qpower_plus. discriminate. Qed.

Lemma pow2_le (a b : Z) : (a <= b)%Z -> 2 ^ a <= 2 ^ b.
Proof. intros H. apply Qpower_le_compat_l; [exact H | discriminate]. Qed.

Lemma pow2_lt (a b : Z) : (a < b)%Z -> 2 ^ a < 2 ^ b.
Proof. intros H. apply Qpower_lt_compat_l; [exact H | reflexivity]. Qed.

Lemma pow2_lt_inv (a b : Z) : 2 ^ a < 2 ^ b -> (a < b)%Z.
Proof. intros H. apply (Qpower_lt_compat_l_inv 2); [exact H | reflexivity]. Qed.

Lemma pow2_succ (a : Z) : 2 ^ (a + 1) == 2 * 2 ^ a.
Proof. rewrite pow2_plus. change (2 ^ 1) with 2. ring. Qed.

Lemma pow2_pred (a : Z) : 2 ^ (a - 1) == 2 ^ a * (1 # 2).
Proof.
  unfold Z.sub. rewrite pow2_plus. change (2 ^ (-1)) with (/ 2). reflexivity.
Qed.

Lemma pow2_inject (e : Z) : (0 <= e)%Z -> 2 ^ e == inject_Z (2 ^ e).
Proof. intros H. symmetry. apply (Zpower_Qpower 2 e H). Qed.

Lemma pow2_minus (a b : Z) : 2 ^ (a - b) == 2 ^ a / 2 ^ b.
Proof. apply Qpower_minus. discriminate. Qed.

End Pow2.



Section Log2.
Local Open Scope Q_scope.

(** A quotient of integers between two quotients of powers of two. *)
Lemma quotient_bounds (a : Z) (b : positive) :
  (0 < a)%Z ->
  let k := (Z.log2 a - Z.log2 (Z.pos b))%Z in
  2 ^ (k - 1) <= a # b /\ a # b < 2 ^ (k + 1).
Proof.
  intros Ha k.
  destruct (Z.log2_spec a Ha) as [La Ua].
  destruct (Z.log2_spec (Z.pos b) (Pos2Z.is_pos b)) as [Lb Ub].
  pose proof (Z.log2_nonneg a) as Na.
  pose proof (Z.log2_nonneg (Z.pos b)) as Nb.
  set (la := Z.log2 a) in *. set (lb := Z.log2 (Z.pos b)) in *.
  assert (E1 : 2 ^ (k - 1) == inject_Z (2 ^ la) / inject_Z (2 ^ Z.succ lb)).
  { replace (k - 1)%Z with (la - Z.succ lb)%Z by (unfold k; lia).
    rewrite pow2_minus, !pow2_inject by lia. reflexivity. }
  assert (E2 : 2 ^ (k + 1) == inject_Z (2 ^ Z.succ la) / inject_Z (2 ^ lb)).
  { replace (k + 1)%Z with (Z.succ la - lb)%Z by (unfold k; lia).
    rewrite pow2_minus, !pow2_inject by lia. reflexivity. }
  assert (P1 : (0 < 2 ^ Z.succ lb)%Z) by (apply Z.pow_pos_nonneg; lia).
  assert (P2 : (0 < 2 ^ lb)%Z) by (apply Z.pow_pos_nonneg; lia).
  rewrite E1, E2. unfold Qdiv. split.
  - apply Qle_shift_div_r.
    + unfold Qlt, inject_Z. simpl. lia.
    + unfold Qle, Qmult, inject_Z. simpl. nia.
  - apply Qlt_shift_div_l.
    + unfold Qlt, inject_Z. simpl. lia.
    + unfold Qlt, Qmult, inject_Z. simpl. nia.
Qed.

Lemma ilog2_spec (x : Q) :
  0 < x -> 2 ^ F64.ilog2 x <= x /\ x < 2 ^ (F64.ilog2 x + 1).
Proof.
  intros Hx. destruct x as [a b].
  assert (Ha : (0 < a)%Z).
  { unfold Qlt in Hx. simpl in Hx. lia. }
  destruct (quotient_bounds a b Ha) as [L U].
  unfold F64.ilog2. cbn [Qnum Qden].
  set (k := (Z.log2 a - Z.log2 (Z.pos b))%Z) in *.
  destruct (Qle_bool (2 ^ k) (a # b)) eqn:E.
  - split; [apply Qle_bool_iff; exact E | exact U].
  - split; [exact L |].
    replace (k - 1 + 1)%Z with k by lia.
    apply Qnot_le_lt. intros H. apply Qle_bool_iff in H. congruence.
Qed.

Lemma ilog2_unique (x : Q) (k : Z) :
  2 ^ k <= x -> x < 2 ^ (k + 1) -> F64.ilog2 x = k.
Proof.
  intros L U.
  assert (Hx : 0 < x) by (eapply Qlt_le_trans; [apply (pow2_pos k) | exact L]).
  destruct (ilog2_spec x Hx) as [L' U'].
  assert (F64.ilog2 x < k + 1)%Z.
  { apply pow2_lt_inv. eapply Qle_lt_trans; [exact L' | exact U]. }
  assert (k < F64.ilog2 x + 1)%Z.
  { apply pow2_lt_inv. eapply Qle_lt_trans; [exact L | exact U']. }
  lia.
Qed.

Lemma ilog2_wd (x y : Q) : 0 < x -> x == y -> F64.ilog2 x = F64.ilog2 y.
Proof.
  intros Hx E. symmetry.
  destruct (ilog2_spec x Hx) as [L U].
  apply ilog2_unique; rewrite <- E; assumption.
Qed.

Lemma ilog2_mono (x y : Q) : 0 < x -> x <= y -> (F64.ilog2 x <= F64.ilog2 y)%Z.
Proof.
  intros Hx Hxy.
  destruct (ilog2_spec x Hx) as [L _].
  destruct (ilog2_spec y) as [_ U]; [eapply Qlt_le_trans; eassumption |].
  assert (F64.ilog2 x < F64.ilog2 y + 1)%Z; [| lia].
  apply pow2_lt_inv. eapply Qle_lt_trans; [exact L |].
  eapply Qle_lt_trans; [exact Hxy | exact U].
Qed.

End Log2.



Section Nearest.
Local Open Scope Q_scope.

Lemma floor_bounds (t : Q) : inject_Z (Qfloor t) <= t /\ t < inject_Z (Qfloor t) + 1.
Proof.
  split; [apply Qfloor_le |].
  pose proof (Qlt_floor t) as H. rewrite inject_Z_plus in H. exact H.
Qed.

(** [rne t] is the floor of [t] or the next integer, whichever is nearer;
    at equal distance, the even one. *)
Lemma rne_spec (t : Q) :
  let f := Qfloor t in
  (t - inject_Z f < 1 # 2 /\ F64.rne t = f) \/
  (1 # 2 < t - inject_Z f /\ F64.rne t = (f + 1)%Z) \/
  (t - inject_Z f == 1 # 2 /\ F64.rne t = if Z.even f then f else (f + 1)%Z).
Proof.
  intros f. unfold F64.rne. fold f.
  destruct (Qcompare (t - inject_Z f) (1 # 2)) eqn:E.
  - right; right. split; [apply Qeq_alt; exact E | reflexivity].
  - left. split; [apply Qlt_alt; exact E | reflexivity].
  - right; left. split; [apply Qgt_alt; exact E | reflexivity].
Qed.

Lemma rne_error (t : Q) : Qabs (inject_Z (F64.rne t) - t) <= 1 # 2.
Proof.
  destruct (floor_bounds t) as [L U].
  apply Qabs_Qle_condition.
  destruct (rne_spec t) as [[H ->] | [[H ->] | [H E]]].
  - split; lra.
  - rewrite inject_Z_plus. change (inject_Z 1) with 1. split; lra.
  - rewrite E. destruct (Z.even (Qfloor t)).
    + split; lra.
    + rewrite inject_Z_plus. change (inject_Z 1) with 1. split; lra.
Qed.

Lemma rne_wd (s t : Q) : s == t -> F64.rne s = F64.rne t.
Proof.
  intros E. unfold F64.rne. rewrite (Qfloor_comp s t E).
  assert (E' : s - inject_Z (Qfloor t) == t - inject_Z (Qfloor t))
    by (rewrite E; reflexivity).
  rewrite (Qcompare_comp _ _ E' (1 # 2) (1 # 2) (Qeq_refl _)). reflexivity.
Qed.

Lemma rne_int (z : Z) : F64.rne (inject_Z z) = z.
Proof.
  destruct (rne_spec (inject_Z z)) as [[H R] | [[H R] | [H R]]];
    rewrite Qfloor_Z in *; [exact R | exfalso; lra | exfalso; lra].
Qed.

Lemma rne_mono (s t : Q) : s <= t -> (F64.rne s <= F64.rne t)%Z.
Proof.
  intros Hst.
  pose proof (Qfloor_resp_le s t Hst) as Hf.
  destruct (floor_bounds s) as [Ls Us]. destruct (floor_bounds t) as [Lt Ut].
  destruct (Z.eq_dec (Qfloor s) (Qfloor t)) as [E | NE].
  - (* same floor: compare the fractional parts *)
    destruct (rne_spec s) as [[Hs Rs] | [[Hs Rs] | [Hs Rs]]];
      destruct (rne_spec t) as [[Ht Rt] | [[Ht Rt] | [Ht Rt]]];
      rewrite Rs, Rt, ?E; rewrite ?E in Hs;
      try lia; try (exfalso; lra);
      destruct (Z.even (Qfloor t)); lia.
  - (* the floor of [s] is smaller: [rne s <= floor s + 1 <= floor t <= rne t] *)
    assert (F64.rne s <= Qfloor s + 1)%Z.
    { destruct (rne_spec s) as [[_ ->] | [[_ ->] | [_ ->]]];
        try lia; destruct (Z.even _); lia. }
    assert (Qfloor t <= F64.rne t)%Z.
    { destruct (rne_spec t) as [[_ ->] | [[_ ->] | [_ ->]]];
        try lia; destruct (Z.even _); lia. }
    lia.
Qed.

Lemma rne_le_int (t : Q) (z : Z) : t <= inject_Z z -> (F64.rne t <= z)%Z.
Proof. intros H. rewrite <- (rne_int z). apply rne_mono. exact H. Qed.

Lemma rne_ge_int (t : Q) (z : Z) : inject_Z z <= t -> (z <= F64.rne t)%Z.
Proof. intros H. rewrite <- (rne_int z) at 1. apply rne_mono. exact H. Qed.

Lemma floor_unique (t : Q) (z : Z) :
  inject_Z z <= t -> t < inject_Z z + 1 -> Qfloor t = z.
Proof.
  intros L U.
  destruct (floor_bounds t) as [L' U'].
  assert (H1 : inject_Z z < inject_Z (Qfloor t + 1)).
  { rewrite inject_Z_plus. change (inject_Z 1) with 1. lra. }
  assert (H2 : inject_Z (Qfloor t) < inject_Z (z + 1)).
  { rewrite inject_Z_plus. change (inject_Z 1) with 1. lra. }
  rewrite <- Zlt_Qlt in H1, H2. lia.
Qed.

Lemma rne_opp (t : Q) : F64.rne (- t) = (- F64.rne t)%Z.
Proof.
  destruct (floor_bounds t) as [L U].
  destruct (Qeq_dec t (inject_Z (Qfloor t))) as [E | NE].
  - rewrite (rne_wd t _ E), rne_int.
    rewrite (rne_wd (- t) (inject_Z (- Qfloor t))), rne_int; [reflexivity |].
    rewrite inject_Z_opp, <- E. reflexivity.
  - assert (Lt' : inject_Z (Qfloor t) < t).
    { apply Qle_lteq in L. destruct L as [L | L]; [exact L |].
      exfalso. apply NE. symmetry. exact L. }
    assert (F : Qfloor (- t) = (- Qfloor t - 1)%Z).
    { apply floor_unique.
      - unfold Z.sub. rewrite inject_Z_plus, !inject_Z_opp.
        change (inject_Z 1) with 1. lra.
      - unfold Z.sub. rewrite inject_Z_plus, !inject_Z_opp.
        change (inject_Z 1) with 1. lra. }
    assert (IF : inject_Z (Qfloor (- t)) == - inject_Z (Qfloor t) - 1).
    { rewrite F. unfold Z.sub. rewrite inject_Z_plus, !inject_Z_opp.
      change (inject_Z 1) with 1. ring. }
    destruct (rne_spec t) as [[Ht Rt] | [[Ht Rt] | [Ht Rt]]];
      destruct (rne_spec (- t)) as [[Hn Rn] | [[Hn Rn] | [Hn Rn]]];
      rewrite Rt, Rn, ?F; rewrite ?IF in Hn;
      try lia; try (exfalso; lra).
    rewrite Z.sub_1_r, Z.even_pred, <- Z.negb_even, Z.even_opp.
    destruct (Z.even (Qfloor t)); simpl; lia.
Qed.

End Nearest.



Section Rounding.
Local Open Scope Q_scope.

Lemma Qabs_pos_lt (x : Q) : ~ x == 0 -> 0 < Qabs x.
Proof.
  intros H. apply Qabs_case; intros Hx.
  - apply Qle_lteq in Hx. destruct Hx as [Hx | Hx]; [exact Hx |].
    exfalso. apply H. symmetry. exact Hx.
  - apply Qle_lteq in Hx. destruct Hx as [Hx | Hx]; [lra |].
    exfalso. apply H. exact Hx.
Qed.

Lemma expo_wd (x y : Q) : ~ x == 0 -> x == y -> F64.expo x = F64.expo y.
Proof.
  intros Hx E. unfold F64.expo.
  rewrite (ilog2_wd (Qabs x) (Qabs y)); [reflexivity | |].
  - apply Qabs_pos_lt. exact Hx.
  - rewrite E. reflexivity.
Qed.

Lemma expo_opp (x : Q) : ~ x == 0 -> F64.expo (- x) = F64.expo x.
Proof.
  intros Hx. unfold F64.expo.
  rewrite (ilog2_wd (Qabs (- x)) (Qabs x)); [reflexivity | |].
  - apply Qabs_pos_lt. intros H. apply Hx. lra.
  - apply Qabs_opp.
Qed.

Lemma round_eq (x : Q) :
  ~ x == 0 ->
  F64.round x == inject_Z (F64.rne (x / 2 ^ F64.expo x)) * 2 ^ F64.expo x.
Proof.
  intros Hx. unfold F64.round.
  destruct (Qeq_bool x 0) eqn:E.
  - exfalso. apply Hx. apply Qeq_bool_iff. exact E.
  - apply Qred_correct.
Qed.

Lemma round_zero (x : Q) : x == 0 -> F64.round x = 0.
Proof.
  intros Hx. unfold F64.round.
  apply Qeq_bool_iff in Hx. rewrite Hx. reflexivity.
Qed.

Lemma round_wd (x y : Q) : x == y -> F64.round x = F64.round y.
Proof.
  intros E. unfold F64.round.
  destruct (Qeq_bool x 0) eqn:Ex; destruct (Qeq_bool y 0) eqn:Ey.
  - reflexivity.
  - apply Qeq_bool_iff in Ex. apply Qeq_bool_neq in Ey.
    exfalso. apply Ey. rewrite <- E. exact Ex.
  - apply Qeq_bool_iff in Ey. apply Qeq_bool_neq in Ex.
    exfalso. apply Ex. rewrite E. exact Ey.
  - apply Qeq_bool_neq in Ex.
    apply Qred_complete.
    rewrite (expo_wd x y Ex E).
    rewrite (rne_wd (x / 2 ^ F64.expo y) (y / 2 ^ F64.expo y)); [reflexivity |].
    rewrite E. reflexivity.
Qed.

Lemma round_opp (x : Q) : F64.round (- x) == - F64.round x.
Proof.
  destruct (Qeq_dec x 0) as [E | NE].
  - rewrite (round_zero x E), (round_zero (- x)); [reflexivity |].
    rewrite E. reflexivity.
  - assert (NE' : ~ - x == 0) by (intros H; apply NE; lra).
    rewrite (round_eq x NE), (round_eq (- x) NE'), (expo_opp x NE).
    rewrite (rne_wd (- x / 2 ^ F64.expo x) (- (x / 2 ^ F64.expo x))).
    + rewrite rne_opp, inject_Z_opp. ring.
    + field. apply Qnot_eq_sym, Qlt_not_eq, pow2_pos.
Qed.

Lemma round_nonneg (x : Q) : 0 <= x -> 0 <= F64.round x.
Proof.
  intros Hx. destruct (Qeq_dec x 0) as [E | NE].
  - rewrite (round_zero x E). lra.
  - rewrite (round_eq x NE).
    apply Qmult_le_0_compat; [| apply Qlt_le_weak, pow2_pos].
    change 0 with (inject_Z 0). rewrite <- Zle_Qle.
    apply rne_ge_int. change (inject_Z 0) with 0.
    apply Qle_shift_div_l; [apply pow2_pos | lra].
Qed.

(** The distance to the rounded value is at most half a unit in the last
    place. *)
Lemma round_error (x : Q) :
  ~ x == 0 -> Qabs (F64.round x - x) <= 2 ^ F64.expo x * (1 # 2).
Proof.
  intros NE. rewrite (round_eq x NE).
  set (e := F64.expo x). pose proof (pow2_pos e) as He.
  pose proof (rne_error (x / 2 ^ e)) as H.
  assert (E : inject_Z (F64.rne (x / 2 ^ e)) * 2 ^ e - x
              == (inject_Z (F64.rne (x / 2 ^ e)) - x / 2 ^ e) * 2 ^ e).
  { field. lra. }
  rewrite E, Qabs_Qmult, (Qabs_pos (2 ^ e)) by lra.
  rewrite (Qmult_comm (2 ^ e)). apply Qmult_le_compat_r; lra.
Qed.

Lemma expo_normal (x : Q) :
  2 ^ (-1022) <= x -> F64.expo x = (F64.ilog2 x - 52)%Z /\ 2 ^ (F64.expo x + 52) <= x.
Proof.
  intros Hx.
  assert (Px : 0 < x) by (eapply Qlt_le_trans; [apply (pow2_pos (-1022)) | exact Hx]).
  assert (Ea : F64.ilog2 (Qabs x) = F64.ilog2 x).
  { apply ilog2_wd; [apply Qabs_pos_lt; lra | apply Qabs_pos; lra]. }
  destruct (ilog2_spec x Px) as [L U].
  assert (-1022 < F64.ilog2 x + 1)%Z.
  { apply pow2_lt_inv. eapply Qle_lt_trans; [exact Hx | exact U]. }
  unfold F64.expo. rewrite Ea. split; [lia |].
  replace (Z.max (F64.ilog2 x - 52) (-1074) + 52)%Z with (F64.ilog2 x) by lia.
  exact L.
Qed.

(** In the normal range the relative error is at most [2^-53]. *)
Lemma round_relative (x : Q) :
  2 ^ (-1022) <= x -> Qabs (F64.round x - x) <= x * 2 ^ (-53).
Proof.
  intros Hx.
  assert (Px : 0 < x) by (eapply Qlt_le_trans; [apply (pow2_pos (-1022)) | exact Hx]).
  destruct (expo_normal x Hx) as [_ L].
  eapply Qle_trans; [apply round_error; lra |].
  assert (E : 2 ^ F64.expo x * (1 # 2) == 2 ^ (F64.expo x + 52) * 2 ^ (-53)).
  { rewrite pow2_plus. change (2 ^ 52) with (inject_Z (2 ^ 52)).
    change (2 ^ (-53)) with (1 # (2 ^ 53)). 
    assert (inject_Z (2 ^ 52) * (1 # 2 ^ 53) == 1 # 2) by reflexivity.
    rewrite <- Qmult_assoc, H. reflexivity. }
  rewrite E. apply Qmult_le_compat_r; [exact L | apply Qlt_le_weak, pow2_pos].
Qed.

Lemma round_lower (x : Q) :
  2 ^ (-1022) <= x -> x * (1 - 2 ^ (-53)) <= F64.round x.
Proof.
  intros Hx. pose proof (round_relative x Hx) as H.
  apply Qabs_Qle_condition in H. lra.
Qed.

Lemma round_upper (x : Q) :
  2 ^ (-1022) <= x -> F64.round x <= x * (1 + 2 ^ (-53)).
Proof.
  intros Hx. pose proof (round_relative x Hx) as H.
  apply Qabs_Qle_condition in H. lra.
Qed.

End Rounding.



Section Representable.
Local Open Scope Q_scope.

(** A number [m * 2^k] with a significand below [2^53] and an exponent not
    below that of the subnormal numbers is its own rounding. *)
Lemma round_exact_pos (m k : Z) :
  (0 < m < 2 ^ 53)%Z -> (-1074 <= k)%Z ->
  F64.round (inject_Z m * 2 ^ k) == inject_Z m * 2 ^ k.
Proof.
  intros Hm Hk. set (x := inject_Z m * 2 ^ k).
  pose proof (pow2_pos k) as Pk.
  assert (Pm : 0 < inject_Z m).
  { change 0 with (inject_Z 0). rewrite <- Zlt_Qlt. lia. }
  assert (Px : 0 < x) by (apply Qmult_lt_0_compat; assumption).
  assert (NE : ~ x == 0) by lra.
  assert (Ux : x < 2 ^ (k + 53)).
  { rewrite Z.add_comm, pow2_plus. unfold x.
    apply Qmult_lt_compat_r; [exact Pk |].
    rewrite pow2_inject by lia. rewrite <- Zlt_Qlt. lia. }
  assert (Ea : F64.ilog2 (Qabs x) = F64.ilog2 x).
  { apply ilog2_wd; [apply Qabs_pos_lt; exact NE | apply Qabs_pos; lra]. }
  destruct (ilog2_spec x Px) as [L _].
  assert (F64.ilog2 x < k + 53)%Z.
  { apply pow2_lt_inv. eapply Qle_lt_trans; [exact L | exact Ux]. }
  assert (He : (F64.expo x <= k)%Z) by (unfold F64.expo; rewrite Ea; lia).
  rewrite (round_eq x NE).
  set (e := F64.expo x) in *. pose proof (pow2_pos e) as Pe.
  assert (E : x / 2 ^ e == inject_Z (m * 2 ^ (k - e))).
  { rewrite inject_Z_mult, <- pow2_inject by lia.
    rewrite pow2_minus. unfold x. field. lra. }
  rewrite (rne_wd _ _ E), rne_int, <- E. field. lra.
Qed.

Lemma round_exact (m k : Z) :
  (Z.abs m < 2 ^ 53)%Z -> (-1074 <= k)%Z ->
  F64.round (inject_Z m * 2 ^ k) == inject_Z m * 2 ^ k.
Proof.
  intros Hm Hk.
  destruct (Z.lt_trichotomy m 0) as [N | [Z0 | P]].
  - assert (E : inject_Z m * 2 ^ k == - (inject_Z (- m) * 2 ^ k)).
    { rewrite inject_Z_opp. ring. }
    rewrite (round_wd _ _ E), round_opp, (round_exact_pos (- m) k) by lia.
    rewrite E. reflexivity.
  - subst m. rewrite round_zero; [| ring]. ring.
  - apply round_exact_pos; lia.
Qed.

Lemma round_int (n : Z) :
  (Z.abs n < 2 ^ 53)%Z -> F64.round (inject_Z n) == inject_Z n.
Proof.
  intros Hn.
  assert (E : inject_Z n == inject_Z n * 2 ^ 0) by (change (2 ^ 0) with 1; ring).
  rewrite (round_wd _ _ E), (round_exact n 0) by lia.
  symmetry. exact E.
Qed.

Lemma round_pow2 (k : Z) : (-1074 <= k)%Z -> F64.round (2 ^ k) == 2 ^ k.
Proof.
  intros Hk.
  assert (E : 2 ^ k == inject_Z 1 * 2 ^ k) by (change (inject_Z 1) with 1; ring).
  rewrite (round_wd _ _ E), (round_exact 1 k) by (simpl; lia).
  symmetry. exact E.
Qed.

Lemma expo_mono (x y : Q) : 0 < x -> x <= y -> (F64.expo x <= F64.expo y)%Z.
Proof.
  intros Px Hxy. unfold F64.expo.
  assert (F64.ilog2 (Qabs x) <= F64.ilog2 (Qabs y))%Z; [| lia].
  apply ilog2_mono.
  - apply Qabs_pos_lt. lra.
  - rewrite !Qabs_pos by lra. exact Hxy.
Qed.

Lemma round_mono_pos (x y : Q) : 0 < x -> x <= y -> F64.round x <= F64.round y.
Proof.
  intros Px Hxy.
  assert (Py : 0 < y) by lra.
  rewrite (round_eq x), (round_eq y) by lra.
  pose proof (expo_mono x y Px Hxy) as He.
  set (ex := F64.expo x) in *. set (ey := F64.expo y) in *.
  pose proof (pow2_pos ex) as Pex. pose proof (pow2_pos ey) as Pey.
  destruct (Z.eq_dec ex ey) as [E | NE].
  - rewrite E. apply Qmult_le_compat_r; [| lra].
    rewrite <- Zle_Qle. apply rne_mono.
    apply Qmult_le_compat_r; [exact Hxy |].
    apply Qlt_le_weak, Qinv_lt_0_compat. exact Pey.
  - (* [x] lies a binade below [y]: [round x <= 2^(ex+53) <= 2^(ey+52) <= round y] *)
    assert (Ax : F64.ilog2 (Qabs x) = F64.ilog2 x).
    { apply ilog2_wd; [apply Qabs_pos_lt; lra | apply Qabs_pos; lra]. }
    assert (Ay : F64.ilog2 (Qabs y) = F64.ilog2 y).
    { apply ilog2_wd; [apply Qabs_pos_lt; lra | apply Qabs_pos; lra]. }
    destruct (ilog2_spec x Px) as [_ Ux]. destruct (ilog2_spec y Py) as [Ly _].
    assert (Hx : x <= 2 ^ (53 + ex)).
    { apply Qlt_le_weak. eapply Qlt_le_trans; [exact Ux |].
      apply pow2_le. unfold ex, F64.expo. rewrite Ax. lia. }
    assert (Hy : 2 ^ (52 + ey) <= y).
    { eapply Qle_trans; [| exact Ly].
      apply pow2_le. unfold ey, ex, F64.expo in *. rewrite Ax, Ay in *. lia. }
    apply Qle_trans with (2 ^ (53 + ex)).
    + rewrite pow2_plus. apply Qmult_le_compat_r; [| lra].
      rewrite (pow2_inject 53) by lia. rewrite <- Zle_Qle. apply rne_le_int.
      rewrite <- (pow2_inject 53) by lia.
      apply Qle_shift_div_r; [exact Pex |]. rewrite <- pow2_plus. exact Hx.
    + apply Qle_trans with (2 ^ (52 + ey)); [apply pow2_le; lia |].
      rewrite pow2_plus. apply Qmult_le_compat_r; [| lra].
      rewrite (pow2_inject 52) by lia. rewrite <- Zle_Qle. apply rne_ge_int.
      rewrite <- (pow2_inject 52) by lia.
      apply Qle_shift_div_l; [exact Pey |]. rewrite <- pow2_plus. exact Hy.
Qed.

Lemma round_mono (x y : Q) : x <= y -> F64.round x <= F64.round y.
Proof.
  intros Hxy.
  destruct (Qlt_le_dec 0 x) as [Px | Nx].
  - apply round_mono_pos; assumption.
  - destruct (Qlt_le_dec y 0) as [Ny | Py].
    + (* both negative *)
      assert (H : F64.round (- y) <= F64.round (- x))
        by (apply round_mono_pos; lra).
      rewrite !round_opp in H. lra.
    + assert (H : 0 <= F64.round (- x)) by (apply round_nonneg; lra).
      rewrite round_opp in H.
      pose proof (round_nonneg y Py). lra.
Qed.

End Representable.
(** ** Numeric lemmas *)

Lemma np_ceil_bounds (x : Q) :
  (inject_Z (np_ceil x - 1) < x /\ x <= inject_Z (np_ceil x))%Q.
Proof. split; [apply Qceiling_lt | apply Qle_ceiling]. Qed.

Lemma np_ceil_unique (x : Q) (c : Z) :
  (inject_Z (c - 1) < x)%Q -> (x <= inject_Z c)%Q -> np_ceil x = c.
Proof.
  intros Hlo Hhi. destruct (np_ceil_bounds x) as [Hl Hh].
  assert (inject_Z (c - 1) < inject_Z (np_ceil x))%Q as H1
    by (eapply Qlt_le_trans; eauto).
  assert (inject_Z (np_ceil x - 1) < inject_Z c)%Q as H2
    by (eapply Qlt_le_trans; eauto).
  rewrite <- Zlt_Qlt in H1, H2. lia.
Qed.

Lemma np_ceil_mono (x y : Q) : (x <= y)%Q -> np_ceil x <= np_ceil y.
Proof. apply Qceiling_resp_le. Qed.

(** Ceiling of an integer quotient by a positive divisor. *)
Lemma np_ceil_quot (n t : Z) :
  0 < t ->
  let c := np_ceil (inject_Z n / inject_Z t)%Q in
  (c - 1) * t < n <= c * t.
Proof.
  intros Ht c.
  assert (0 < inject_Z t)%Q as Hq by (rewrite (Zlt_Qlt 0 t) in Ht; exact Ht).
  destruct (np_ceil_bounds (inject_Z n / inject_Z t)%Q) as [Hl Hh].
  fold c in Hl, Hh. split.
  - assert (inject_Z (c - 1) * inject_Z t < inject_Z n)%Q as H.
    { apply (Qmult_lt_r _ _ (inject_Z t)) in Hl; [|exact Hq].
      assert (inject_Z n / inject_Z t * inject_Z t == inject_Z n)%Q as E
        by (field; intros E0; rewrite E0 in Hq; discriminate).
      rewrite E in Hl. exact Hl. }
    rewrite <- inject_Z_mult, <- Zlt_Qlt in H. exact H.
  - assert (inject_Z n <= inject_Z c * inject_Z t)%Q as H.
    { apply (Qmult_le_r _ _ (inject_Z t)) in Hh; [|exact Hq].
      assert (inject_Z n / inject_Z t * inject_Z t == inject_Z n)%Q as E
        by (field; intros E0; rewrite E0 in Hq; discriminate).
      rewrite E in Hh. exact Hh. }
    rewrite <- inject_Z_mult, <- Zle_Qle in H. exact H.
Qed.

Lemma py_div_nonzero (a b : Q) : ~ (b == 0)%Q -> py_div a b = inr (a / b)%Q.
Proof.
  intros Hb. unfold py_div.
  destruct (Qeq_bool b 0) eqn:E; [|reflexivity].
  apply Qeq_bool_iff in E. contradiction.
Qed.

Lemma py_div_zero (a b : Q) : (b == 0)%Q -> py_div a b = inl ZeroDivisionError.
Proof.
  intros Hb. unfold py_div.
  apply Qeq_bool_iff in Hb. rewrite Hb. reflexivity.
Qed.

Lemma inject_Z_nonzero (z : Z) : z <> 0 -> ~ (inject_Z z == 0)%Q.
Proof.
  intros Hz E. apply Hz. unfold Qeq, inject_Z in E. simpl in E. lia.
Qed.

Lemma length_py_range (n : Z) : length (py_range n) = Z.to_nat n.
Proof. unfold py_range. rewrite length_map, length_seq. reflexivity. Qed.

Lemma lookup_py_range (n : Z) (k : nat) :
  (k < Z.to_nat n)%nat -> py_range n !! k = Some (Z.of_nat k).
Proof.
  intros Hk. unfold py_range.
  rewrite list_lookup_fmap, lookup_seq_lt by exact Hk. reflexivity.
Qed.

(** *** The ceilings of [create_fragments] in binary64 *)

Section Ceilings.
Local Open Scope Q_scope.

Lemma result_round (x : Q) :
  Qabs (F64.round x) < 2 ^ 1024 -> F64.result x = Some (F64.round x).
Proof.
  intros H. unfold F64.result.
  destruct (Qle_bool (2 ^ 1024) (Qabs (F64.round x))) eqn:E; [| reflexivity].
  apply Qle_bool_iff in E. exfalso. exact (Qlt_not_le _ _ H E).
Qed.

Lemma result_inv (x r : Q) : F64.result x = Some r -> r = F64.round x.
Proof.
  unfold F64.result.
  destruct (Qle_bool _ _); [discriminate | intros [= <-]; reflexivity].
Qed.

(** A non-negative value below a power of two in range rounds to a finite
    float below the same power. *)
Lemma result_below (x : Q) (k : Z) :
  0 <= x -> x <= 2 ^ k -> (-1074 <= k < 1024)%Z ->
  F64.result x = Some (F64.round x) /\ 0 <= F64.round x <= 2 ^ k.
Proof.
  intros H0 Hk Hr.
  pose proof (round_nonneg x H0) as Hn.
  pose proof (round_mono x (2 ^ k) Hk) as Hm.
  rewrite (round_pow2 k) in Hm by lia.
  split; [| split; assumption].
  apply result_round. rewrite Qabs_pos by exact Hn.
  eapply Qle_lt_trans; [exact Hm |]. apply pow2_lt. lia.
Qed.

Lemma inject_Z_pos (n : Z) : (0 < n)%Z -> 0 < inject_Z n.
Proof. intros H. change 0 with (inject_Z 0). rewrite <- Zlt_Qlt. exact H. Qed.

Lemma inject_Z_nonneg (n : Z) : (0 <= n)%Z -> 0 <= inject_Z n.
Proof. intros H. change 0 with (inject_Z 0). rewrite <- Zle_Qle. exact H. Qed.

Lemma of_int_small (n : Z) :
  (Z.abs n < 2 ^ 53)%Z ->
  F64.of_int n = inr (F64.round (inject_Z n)) /\ F64.round (inject_Z n) == inject_Z n.
Proof.
  intros Hn. pose proof (round_int n Hn) as E. split; [| exact E].
  unfold F64.of_int. rewrite result_round; [reflexivity |].
  rewrite E. apply Qabs_Qlt_condition.
  assert (inject_Z (- 2 ^ 53) < inject_Z n /\ inject_Z n < inject_Z (2 ^ 53)) as [A B]
    by (rewrite <- !Zlt_Qlt; lia).
  assert (inject_Z (2 ^ 53) < 2 ^ 1024) by reflexivity.
  rewrite inject_Z_opp in A. split; lra.
Qed.

(** What [ceil_share] returns, when it returns. *)
Lemma ceil_share_value (n : Z) (p : Q) (t : Z) :
  ceil_share n p = inr t -> t = np_ceil (share n p).
Proof.
  unfold ceil_share, F64.of_int, share.
  destruct (F64.result (inject_Z n)) as [x |] eqn:Ex; [| discriminate].
  apply result_inv in Ex. subst x.
  destruct (F64.result (F64.round (inject_Z n) * p)) as [y |] eqn:Ey;
    [| discriminate].
  apply result_inv in Ey. subst y.
  destruct (F64.result (F64.round (F64.round (inject_Z n) * p) / 100))
    as [z |] eqn:Ez; [| discriminate].
  apply result_inv in Ez. subst z. simpl. intros [= <-]. reflexivity.
Qed.

(** On at least one trajectory and a percentage that is a normal number
    up to 100, no operation overflows or underflows, and each of the two
    roundings moves the value by a relative [2^-53] at most. *)
Lemma share_bounds (n : Z) (p : Q) :
  (1 <= n < 2 ^ 53)%Z -> 2 ^ (-1000) <= p -> p <= 100 ->
  let x := inject_Z n * p / 100 in
  ceil_share n p = inr (np_ceil (share n p)) /\
  x * (1 - F64.eps) * (1 - F64.eps) <= share n p /\
  share n p <= x * (1 + F64.eps) * (1 + F64.eps) /\
  2 ^ (-1022) <= share n p /\
  share n p <= 2 ^ 60.
Proof.
  intros Hn Hlo Hhi x.
  destruct (of_int_small n ltac:(lia)) as [Eo Er].
  pose proof (pow2_pos (-1000)) as Pa.
  assert (Hs : 2 ^ (-1022) <= 2 ^ (-1000) * (1 # 256)).
  { assert (E : 2 ^ (-1000) * (1 # 256) == 2 ^ (-1008)).
    { change (1 # 256) with (2 ^ (-8)). rewrite <- pow2_plus. reflexivity. }
    rewrite E. apply pow2_le. lia. }
  set (a := 2 ^ (-1000)) in *.
  assert (N1 : 1 <= inject_Z n).
  { change 1 with (inject_Z 1). rewrite <- Zle_Qle. lia. }
  assert (N2 : inject_Z n <= 2 ^ 53).
  { rewrite (pow2_inject 53) by lia. rewrite <- Zle_Qle. lia. }
  set (x1 := F64.round (inject_Z n) * p).
  assert (E1 : x1 == inject_Z n * p) by (unfold x1; rewrite Er; reflexivity).
  assert (L1 : a <= x1).
  { rewrite E1. apply Qle_trans with (1 * p); [lra |].
    apply Qmult_le_compat_r; lra. }
  assert (U1 : x1 <= 2 ^ 60).
  { rewrite E1. apply Qle_trans with (2 ^ 53 * 100).
    - apply Qle_trans with (inject_Z n * 100).
      + rewrite !(Qmult_comm (inject_Z n)). apply Qmult_le_compat_r; lra.
      + apply Qmult_le_compat_r; lra.
    - discriminate. }
  destruct (result_below x1 60 ltac:(lra) U1 ltac:(lia)) as (R1 & P1 & B1).
  pose proof (round_lower x1 ltac:(lra)) as Lo1.
  pose proof (round_upper x1 ltac:(lra)) as Up1.
  change (2 ^ (-53)) with F64.eps in Lo1, Up1.
  set (y := F64.round x1) in *.
  assert (Ey : 0 < F64.eps /\ F64.eps < 1 # 2) by (split; reflexivity).
  assert (L2 : 2 ^ (-1022) <= y / 100).
  { apply Qle_shift_div_l; [reflexivity |].
    assert (a * (1 # 2) <= y) by nra. lra. }
  assert (U2 : y / 100 <= 2 ^ 60).
  { apply Qle_shift_div_r; [reflexivity |].
    assert (2 ^ 60 <= 2 ^ 60 * 100) by discriminate. lra. }
  destruct (result_below (y / 100) 60 ltac:(lra) U2 ltac:(lia)) as (R2 & P2 & B2).
  pose proof (round_lower (y / 100) L2) as Lo2.
  pose proof (round_upper (y / 100) L2) as Up2.
  change (2 ^ (-53)) with F64.eps in Lo2, Up2.
  pose proof (round_mono _ _ L2) as M2.
  rewrite (round_pow2 (-1022)) in M2 by lia.
  assert (Es : share n p = F64.round (y / 100)) by reflexivity.
  assert (Ex : x == x1 / 100) by (unfold x; rewrite E1; reflexivity).
  split; [| rewrite Es, Ex; repeat split].
  - unfold ceil_share. rewrite Eo. fold x1. rewrite R1. fold y. rewrite R2.
    reflexivity.
  - apply Qle_trans with (y / 100 * (1 - F64.eps)); [| exact Lo2].
    apply Qmult_le_compat_r; [| lra].
    unfold Qdiv. rewrite <- Qmult_assoc, (Qmult_comm (/ 100)), Qmult_assoc.
    apply Qmult_le_compat_r; [exact Lo1 | discriminate].
  - apply Qle_trans with (y / 100 * (1 + F64.eps)); [exact Up2 |].
    apply Qmult_le_compat_r; [| lra].
    unfold Qdiv. rewrite <- (Qmult_assoc x1), (Qmult_comm (/ 100)), Qmult_assoc.
    apply Qmult_le_compat_r; [exact Up1 | discriminate].
  - exact M2.
  - exact B2.
Qed.

Lemma np_ceil_pos (x : Q) : 0 < x -> (1 <= np_ceil x)%Z.
Proof.
  intros Hx. destruct (np_ceil_bounds x) as [_ H].
  assert (inject_Z 0 < inject_Z (np_ceil x)) as H'
    by (change (inject_Z 0) with 0; lra).
  rewrite <- Zlt_Qlt in H'. lia.
Qed.

Lemma np_ceil_succ (x : Q) : np_ceil (x + 1) = (np_ceil x + 1)%Z.
Proof.
  destruct (np_ceil_bounds x) as [L U].
  apply np_ceil_unique.
  - replace (np_ceil x + 1 - 1)%Z with (np_ceil x - 1 + 1)%Z by lia.
    rewrite inject_Z_plus. change (inject_Z 1) with 1. lra.
  - rewrite inject_Z_plus. change (inject_Z 1) with 1. lra.
Qed.

(** Two values less than one apart have ceilings at most one apart. *)
Lemma np_ceil_near (x y : Q) :
  x < y + 1 -> y < x + 1 ->
  (np_ceil y - 1 <= np_ceil x <= np_ceil y + 1)%Z.
Proof.
  intros A B.
  pose proof (np_ceil_mono x (y + 1) ltac:(lra)) as H1.
  pose proof (np_ceil_mono y (x + 1) ltac:(lra)) as H2.
  rewrite np_ceil_succ in H1, H2. lia.
Qed.

(** The fragment width of a count below [2^53]: at least one trajectory. *)
Lemma ceil_share_width (n : Z) (p : Q) :
  (1 <= n < 2 ^ 53)%Z -> 2 ^ (-1000) <= p -> p <= 100 ->
  exists t,
    ceil_share n p = inr t /\ t = np_ceil (share n p) /\
    (1 <= t <= 2 ^ 60)%Z.
Proof.
  intros Hn Hlo Hhi.
  destruct (share_bounds n p Hn Hlo Hhi) as (E & _ & _ & P & B).
  set (s := share n p) in *.
  exists (np_ceil s). split; [exact E |]. split; [reflexivity |].
  pose proof (pow2_pos (-1022)) as P22.
  split.
  - apply np_ceil_pos. lra.
  - pose proof (Qceiling_resp_le s (2 ^ 60) B) as H.
    rewrite (Qceiling_comp (2 ^ 60) (inject_Z (2 ^ 60))) in H
      by (apply pow2_inject; lia).
    rewrite Qceiling_Z in H. exact H.
Qed.

(** The fragment width: at least one trajectory, and within one of the
    exact ceiling of [n * percentage / 100]. *)
Lemma ceil_share_ok (n : Z) (p : Q) :
  (1 <= n < 2 ^ 51)%Z -> 2 ^ (-1000) <= p -> p <= 100 ->
  exists t,
    ceil_share n p = inr t /\ t = np_ceil (share n p) /\
    (1 <= t <= 2 ^ 60)%Z /\
    (np_ceil (inject_Z n * p / 100) - 1 <= t
     <= np_ceil (inject_Z n * p / 100) + 1)%Z.
Proof.
  intros Hn Hlo Hhi.
  destruct (share_bounds n p ltac:(lia) Hlo Hhi) as (E & L & U & P & B).
  cbv zeta in L, U.
  set (x := inject_Z n * p / 100) in *. set (s := share n p) in *.
  exists (np_ceil s). split; [exact E |]. split; [reflexivity |].
  pose proof (pow2_pos (-1022)) as P22.
  pose proof (pow2_pos (-1000)) as P00.
  assert (X0 : 0 <= x).
  { unfold x. apply Qle_shift_div_l; [reflexivity |]. rewrite Qmult_0_l.
    apply Qmult_le_0_compat; [apply inject_Z_nonneg; lia | lra]. }
  assert (X1 : x <= 2 ^ 51).
  { unfold x. apply Qle_shift_div_r; [reflexivity |].
    apply Qle_trans with (inject_Z n * 100).
    - rewrite !(Qmult_comm (inject_Z n)).
      apply Qmult_le_compat_r; [exact Hhi | apply inject_Z_nonneg; lia].
    - apply Qmult_le_compat_r; [| discriminate].
      rewrite (pow2_inject 51) by lia. rewrite <- Zle_Qle. lia. }
  split; [split |].
  - apply np_ceil_pos. lra.
  - pose proof (Qceiling_resp_le s (2 ^ 60) B) as H.
    rewrite (Qceiling_comp (2 ^ 60) (inject_Z (2 ^ 60))) in H
      by (apply pow2_inject; lia).
    rewrite Qceiling_Z in H. exact H.
  - apply np_ceil_near.
    + unfold F64.eps in *. change (2 ^ 51) with (2251799813685248 # 1) in X1.
      nra.
    + unfold F64.eps in *. change (2 ^ 51) with (2251799813685248 # 1) in X1.
      nra.
Qed.

(** The fragment width does not decrease with the percentage. *)
Lemma ceil_share_mono (n : Z) (p1 p2 : Q) (t1 t2 : Z) :
  (0 <= n)%Z -> p1 <= p2 ->
  ceil_share n p1 = inr t1 -> ceil_share n p2 = inr t2 -> (t1 <= t2)%Z.
Proof.
  intros Hn Hp H1 H2.
  apply ceil_share_value in H1, H2. subst t1 t2.
  apply np_ceil_mono. unfold share.
  apply round_mono. unfold Qdiv. apply Qmult_le_compat_r; [| discriminate].
  apply round_mono.
  rewrite !(Qmult_comm (F64.round (inject_Z n))).
  apply Qmult_le_compat_r; [exact Hp |].
  apply round_nonneg, inject_Z_nonneg, Hn.
Qed.

(** The true division of a count below [2^53] by a positive width is
    rounded, but never across an integer: the ceiling is the exact one. *)
Lemma ceil_ratio_exact (n t : Z) :
  (0 <= n < 2 ^ 53)%Z -> (1 <= t <= 2 ^ 60)%Z ->
  ceil_ratio n t = inr (np_ceil (inject_Z n / inject_Z t)).
Proof.
  intros Hn Ht. unfold ceil_ratio.
  destruct (Z.eqb_spec t 0) as [E | _]; [lia |].
  set (q := inject_Z n / inject_Z t).
  assert (Pt : 1 <= inject_Z t).
  { change 1 with (inject_Z 1). rewrite <- Zle_Qle. lia. }
  assert (Tt : inject_Z t <= 2 ^ 60).
  { rewrite (pow2_inject 60) by lia. rewrite <- Zle_Qle. lia. }
  assert (Nn : inject_Z n < 2 ^ 53).
  { rewrite (pow2_inject 53) by lia. rewrite <- Zlt_Qlt. lia. }
  pose proof (inject_Z_nonneg n ltac:(lia)) as N0.
  assert (Q0 : 0 <= q).
  { unfold q. apply Qle_shift_div_l; [lra |]. lra. }
  assert (Qn : q <= inject_Z n).
  { unfold q. apply Qle_shift_div_r; [lra |]. nra. }
  destruct (result_below q 53 Q0 ltac:(lra) ltac:(lia)) as (R & _ & _).
  rewrite R. f_equal.
  set (c := np_ceil q). destruct (np_ceil_bounds q) as [L U]. fold c in L, U.
  assert (Hc : (c <= n)%Z).
  { pose proof (Qceiling_resp_le q (inject_Z n) Qn) as H.
    rewrite Qceiling_Z in H. exact H. }
  assert (Hc0 : (0 <= c)%Z).
  { pose proof (np_ceil_mono 0 q Q0) as H. exact H. }
  apply np_ceil_unique.
  - (* the rounded quotient stays above [c - 1] *)
    destruct (Z.eq_dec n 0%Z) as [En | Nz].
    { assert (q == 0) as E0 by (unfold q; rewrite En; field; lra).
      rewrite (round_zero q E0). rewrite E0 in L. exact L. }
    assert (N1 : 1 <= inject_Z n).
    { change 1 with (inject_Z 1). rewrite <- Zle_Qle. lia. }
    assert (Hq : 2 ^ (-1022) <= q).
    { unfold q. apply Qle_shift_div_l; [lra |].
      apply Qle_trans with (2 ^ (-1022) * 2 ^ 60).
      - apply Qmult_le_l; [apply pow2_pos | exact Tt].
      - rewrite <- pow2_plus.
        apply Qle_trans with (2 ^ 0); [apply pow2_le; lia | exact N1]. }
    pose proof (round_lower q Hq) as Lo. change (2 ^ (-53)) with F64.eps in Lo.
    (* [t * (c - 1) + 1 <= n], so [q] exceeds [c - 1] by [1/t] at least *)
    assert (Hz : (t * (c - 1) + 1 <= n)%Z).
    { assert (inject_Z (t * (c - 1)) < inject_Z n) as H.
      { rewrite inject_Z_mult.
        apply Qlt_le_trans with (inject_Z t * q).
        - apply Qmult_lt_l; [lra | exact L].
        - unfold q. assert (inject_Z t * (inject_Z n / inject_Z t) == inject_Z n)
            as -> by (field; lra). lra. }
      rewrite <- Zlt_Qlt in H. lia. }
    assert (Hz' : inject_Z t * inject_Z (c - 1) + 1 <= inject_Z n).
    { rewrite <- inject_Z_mult. change 1 with (inject_Z 1).
      rewrite <- inject_Z_plus, <- Zle_Qle. exact Hz. }
    assert (Eq : inject_Z t * q == inject_Z n) by (unfold q; field; lra).
    (* [n * eps < 1]: the rounding error is below [1/t] *)
    assert (He : inject_Z n * F64.eps < 1).
    { unfold F64.eps. change (2 ^ 53) with (9007199254740992 # 1) in Nn. lra. }
    apply Qlt_le_trans with (q * (1 - F64.eps)); [| exact Lo].
    apply (Qmult_lt_l _ _ (inject_Z t)); [lra |].
    assert (inject_Z t * (q * (1 - F64.eps))
            == inject_Z n - inject_Z n * F64.eps) as ->
      by (rewrite <- Eq; ring).
    lra.
  - pose proof (round_mono q (inject_Z c) U) as H.
    rewrite (round_int c) in H by lia. exact H.
Qed.

(** The number of fragments announced by the interactive preview. *)
Lemma ceil_inverse_share_ok (p : Q) :
  2 ^ (-1000) <= p -> p <= 100 ->
  exists a,
    ceil_inverse_share p = inr a /\
    100 / p * (1 - F64.eps) <= inject_Z a /\
    F64.round (100 / p) <= inject_Z a.
Proof.
  intros Hlo Hhi.
  pose proof (pow2_pos (-1000)) as Pa.
  unfold ceil_inverse_share.
  destruct (Qeq_bool p 0) eqn:E0.
  { apply Qeq_bool_iff in E0. exfalso. lra. }
  assert (Q1 : 1 <= 100 / p).
  { apply Qle_shift_div_l; lra. }
  assert (Q2 : 100 / p <= 2 ^ 1007).
  { apply Qle_shift_div_r; [lra |].
    apply Qle_trans with (2 ^ 1007 * 2 ^ (-1000)).
    - rewrite <- pow2_plus. discriminate.
    - apply Qmult_le_l; [apply pow2_pos | exact Hlo]. }
  destruct (result_below (100 / p) 1007 ltac:(lra) Q2 ltac:(lia)) as (R & _ & _).
  rewrite R. simpl. eexists. split; [reflexivity |].
  assert (H22 : 2 ^ (-1022) <= 100 / p).
  { apply Qle_trans with (2 ^ 0); [apply pow2_le; lia | exact Q1]. }
  pose proof (round_lower (100 / p) H22) as Lo.
  change (2 ^ (-53)) with F64.eps in Lo.
  destruct (np_ceil_bounds (F64.round (100 / p))) as [_ U].
  split; lra.
Qed.

End Ceilings.

(** ** The partition plan *)

(** The fragment width computed from a percentage that is a normal number
    up to 100, for a count of trajectories below [2^51]. *)
Lemma trajectories_per_fragment_ok (n_traj : Z) (percentage : Q) :
  1 <= n_traj < 2 ^ 51 -> (2 ^ (-1000) <= percentage)%Q -> (percentage <= 100)%Q ->
  exists tpf,
    Planner.trajectories_per_fragment n_traj percentage = inr tpf /\
    1 <= tpf <= 2 ^ 60.
Proof.
  intros Hn Hlo Hhi.
  destruct (ceil_share_ok n_traj percentage Hn Hlo Hhi) as (t & E & _ & B & _).
  exists t. split; assumption.
Qed.

Lemma num_fragments_ok (n_traj tpf : Z) :
  0 <= n_traj < 2 ^ 53 -> 1 <= tpf <= 2 ^ 60 ->
  Planner.num_fragments n_traj tpf
  = inr (np_ceil (inject_Z n_traj / inject_Z tpf)%Q).
Proof. apply ceil_ratio_exact. Qed.

Section Ranges.

(** A width [tpf >= 1] and the count [num] of ranges of that width needed
    to cover [n_traj] elements. *)
Variables n_traj tpf num : Z.
Hypothesis tpf_pos : 0 < tpf.
Hypothesis num_lo : (num - 1) * tpf < n_traj.
Hypothesis num_hi : n_traj <= num * tpf.

Let ranges := Planner.fragment_ranges n_traj tpf num.

Lemma ranges_length : length ranges = Z.to_nat num.
Proof.
  unfold ranges, Planner.fragment_ranges.
  rewrite length_map. apply length_py_range.
Qed.

Lemma ranges_lookup (k : nat) :
  (k < Z.to_nat num)%nat ->
  ranges !! k = Some (Z.of_nat k * tpf, Z.min ((Z.of_nat k + 1) * tpf) n_traj).
Proof.
  intros Hk. unfold ranges, Planner.fragment_ranges.
  rewrite list_lookup_fmap, lookup_py_range by exact Hk. reflexivity.
Qed.

Lemma ranges_lookup_inv (k : nat) r :
  ranges !! k = Some r ->
  (k < Z.to_nat num)%nat /\
  r = (Z.of_nat k * tpf, Z.min ((Z.of_nat k + 1) * tpf) n_traj).
Proof.
  intros Hr. pose proof (lookup_lt_Some _ _ _ Hr) as Hk.
  rewrite ranges_length in Hk. split; [exact Hk|].
  rewrite ranges_lookup in Hr by exact Hk. congruence.
Qed.

Lemma ranges_contiguous_from (len a : nat) :
  Z.of_nat (a + len) <= num ->
  Planner.contiguous (Z.min (Z.of_nat a * tpf) n_traj)
    (map (Planner.fragment_range n_traj tpf) (map Z.of_nat (seq a len)))
    (Z.min (Z.of_nat (a + len) * tpf) n_traj).
Proof.
  revert a. induction len as [|len IH]; intros a Ha; simpl.
  - rewrite Nat.add_0_r. reflexivity.
  - assert (Z.of_nat a * tpf < n_traj) as Hlt by nia.
    split; [lia|]. split; [nia|].
    replace (a + S len)%nat with (S a + len)%nat by lia.
    replace ((Z.of_nat a + 1) * tpf) with (Z.of_nat (S a) * tpf) by lia.
    apply IH. lia.
Qed.

Lemma ranges_contiguous : 0 <= n_traj -> Planner.contiguous 0 ranges n_traj.
Proof.
  intros Hn.
  assert (0 <= num) as Hnum by nia.
  pose proof (ranges_contiguous_from (Z.to_nat num) 0) as H.
  rewrite Nat.add_0_l, Z2Nat.id in H by exact Hnum.
  replace (Z.min (Z.of_nat 0 * tpf) n_traj) with 0 in H by lia.
  replace (Z.min (num * tpf) n_traj) with n_traj in H by lia.
  apply H. lia.
Qed.

Lemma ranges_disjoint : Planner.pairwise_disjoint ranges.
Proof.
  intros j k r1 r2 H1 H2 Hjk i [[A1 B1] [A2 B2]].
  apply ranges_lookup_inv in H1 as [_ ->], H2 as [_ ->]. simpl in *.
  assert (Z.of_nat j + 1 <= Z.of_nat k \/ Z.of_nat k + 1 <= Z.of_nat j)
    as [H|H] by lia; nia.
Qed.

Lemma ranges_cover : Planner.covers ranges n_traj.
Proof.
  intros i. split.
  - intros [Hi0 Hin].
    set (k := i / tpf).
    assert (k * tpf <= i < (k + 1) * tpf) as Hk.
    { pose proof (Z.div_mod i tpf ltac:(lia)).
      pose proof (Z.mod_pos_bound i tpf tpf_pos). unfold k. nia. }
    assert (0 <= k < num) as Hk' by nia.
    exists (k * tpf, Z.min ((k + 1) * tpf) n_traj). split.
    + apply list_elem_of_lookup. exists (Z.to_nat k).
      rewrite ranges_lookup by lia. rewrite Z2Nat.id by lia. reflexivity.
    + unfold Planner.in_range. simpl. lia.
  - intros (r & Hr & [A B]).
    apply list_elem_of_lookup in Hr as [k Hk].
    apply ranges_lookup_inv in Hk as [Hk ->]. simpl in *. nia.
Qed.

Lemma ranges_only_last_short : Planner.only_last_short tpf ranges.
Proof.
  intros k r Hr. rewrite ranges_length.
  apply ranges_lookup_inv in Hr as [Hk ->]. simpl.
  assert (Z.of_nat k * tpf < n_traj) by nia.
  split; [lia|]. intros Hlast.
  assert ((Z.of_nat k + 1) * tpf <= n_traj) by nia. lia.
Qed.

End Ranges.

(** C1 (amended).  For every [n_traj] in [[1, 2^53)] and every percentage
    from [2^-1000] to 100, the plan of [create_fragments] succeeds.  The
    fragment width [tpf] is the ceiling of [n_traj * percentage / 100] as
    binary64 arithmetic evaluates it (the product is rounded, then the
    quotient): it is at least 1 and, below [2^51] trajectories, within one
    of the exact ceiling.  Range [k] is
    [[k*tpf, min((k+1)*tpf, n_traj))]; the ranges are contiguous from 0 to
    [n_traj], pairwise disjoint and cover exactly [[0, n_traj)]; their
    number is [ceil(n_traj / tpf)]; and only the last range may be shorter
    than [tpf]. *)
Theorem C1_plan_is_exact_partition (n_traj : Z) (percentage : Q) :
  1 <= n_traj < 2 ^ 53 -> (2 ^ (-1000) <= percentage)%Q -> (percentage <= 100)%Q ->
  exists tpf ranges,
    Planner.trajectories_per_fragment n_traj percentage = inr tpf /\
    tpf = np_ceil (share n_traj percentage) /\
    1 <= tpf /\
    (n_traj < 2 ^ 51 ->
     np_ceil (inject_Z n_traj * percentage / 100)%Q - 1 <= tpf
       <= np_ceil (inject_Z n_traj * percentage / 100)%Q + 1) /\
    Planner.plan n_traj percentage = inr ranges /\
    (forall k : nat, (k < length ranges)%nat ->
       ranges !! k =
       Some (Z.of_nat k * tpf, Z.min ((Z.of_nat k + 1) * tpf) n_traj)) /\
    Z.of_nat (length ranges) = np_ceil (inject_Z n_traj / inject_Z tpf)%Q /\
    Planner.contiguous 0 ranges n_traj /\
    Planner.pairwise_disjoint ranges /\
    Planner.covers ranges n_traj /\
    Planner.only_last_short tpf ranges.
Proof.
  intros Hn Hlo Hhi.
  destruct (ceil_share_width n_traj percentage Hn Hlo Hhi)
    as (tpf & Et & Es & Ht).
  unfold Planner.plan, Planner.trajectories_per_fragment. rewrite Et.
  rewrite num_fragments_ok by lia.
  set (num := np_ceil (inject_Z n_traj / inject_Z tpf)%Q).
  destruct (np_ceil_quot n_traj tpf ltac:(lia)) as [Hl Hh]. fold num in Hl, Hh.
  assert (0 <= num) as Hnum by nia.
  exists tpf. eexists. split; [reflexivity|].
  split; [exact Es|]. split; [lia|]. split.
  { intros Hn51.
    destruct (ceil_share_ok n_traj percentage ltac:(lia) Hlo Hhi)
      as (t & Et' & _ & _ & Hnear).
    rewrite Et in Et'. injection Et' as <-. exact Hnear. }
  split; [reflexivity|].
  split; [|split; [|split; [|split; [|split]]]].
  - intros k Hk. rewrite ranges_length in Hk. apply ranges_lookup. exact Hk.
  - rewrite ranges_length. apply Z2Nat.id. exact Hnum.
  - apply ranges_contiguous; lia.
  - apply ranges_disjoint; lia.
  - apply ranges_cover; lia.
  - apply ranges_only_last_short; lia.
Qed.

Lemma C1_plan_is_exact_partition_witness :
  exists tpf ranges,
    Planner.trajectories_per_fragment 250 40 = inr tpf /\
    tpf = np_ceil (share 250 40) /\
    1 <= tpf /\
    (250 < 2 ^ 51 ->
     np_ceil (inject_Z 250 * 40 / 100)%Q - 1 <= tpf
       <= np_ceil (inject_Z 250 * 40 / 100)%Q + 1) /\
    Planner.plan 250 40 = inr ranges /\
    (forall k : nat, (k < length ranges)%nat ->
       ranges !! k =
       Some (Z.of_nat k * tpf, Z.min ((Z.of_nat k + 1) * tpf) 250)) /\
    Z.of_nat (length ranges) = np_ceil (inject_Z 250 / inject_Z tpf)%Q /\
    Planner.contiguous 0 ranges 250 /\
    Planner.pairwise_disjoint ranges /\
    Planner.covers ranges 250 /\
    Planner.only_last_short tpf ranges.
Proof.
  apply (C1_plan_is_exact_partition 250 40).
  - split; [lia | reflexivity].
  - apply Qle_bool_imp_le. vm_compute. reflexivity.
  - apply Qle_bool_imp_le. vm_compute. reflexivity.
Defined.

(** C1 as stated fails, because the width is not the exact ceiling.  On
    750 trajectories at the percentage typed as 33.2 the claim's formula
    gives a width of 249 and 4 ranges, where the code plans 3 ranges of
    250: the float nearest to 33.2 lies above it, and so does its product
    with 750.  Read at the exact value of the float instead, the formula
    fails on 1000 trajectories at 0.1: the float lies above one tenth, the
    exact quotient above 1 and its ceiling is 2, but the product rounds to
    100 and the code's width is 1.  At the ends of the range of floats
    there is no partition at all: the share of one trajectory at the
    smallest positive float rounds to zero, and the count of fragments is
    a division by zero; and [2^53 + 1] trajectories at 100 percent are
    counted as [2^53], so that the single range planned leaves the last
    trajectory out. *)
Lemma C1_rounded_width_differs_from_exact_ceiling :
  exists p q : Q,
    Str.to_float "33.2" = inr p /\ (0 < p)%Q /\ (p <= 100)%Q /\
    Planner.plan 750 p = inr [(0, 250); (250, 500); (500, 750)] /\
    np_ceil (inject_Z 750 * (332 # 10) / 100)%Q = 249 /\
    np_ceil (inject_Z 750 / inject_Z 249)%Q = 4 /\
    Str.to_float "0.1" = inr q /\ (0 < q)%Q /\ (q <= 100)%Q /\
    Planner.trajectories_per_fragment 1000 q = inr 1 /\
    np_ceil (inject_Z 1000 * q / 100)%Q = 2 /\
    F64.round (2 ^ (-1074)) = (2 ^ (-1074))%Q /\
    Planner.plan 1 (2 ^ (-1074))%Q = inl ZeroDivisionError /\
    Planner.plan (2 ^ 53 + 1) 100 = inr [(0, 2 ^ 53)].
Proof.
  eexists. eexists.
  split; [vm_compute; reflexivity|].
  split; [reflexivity|].
  split; [apply Qle_bool_imp_le; vm_compute; reflexivity|].
  split; [vm_compute; reflexivity|].
  split; [vm_compute; reflexivity|].
  split; [vm_compute; reflexivity|].
  split; [vm_compute; reflexivity|].
  split; [reflexivity|].
  split; [apply Qle_bool_imp_le; vm_compute; reflexivity|].
  split; [vm_compute; reflexivity|].
  split; [vm_compute; reflexivity|].
  split; [vm_compute; reflexivity|].
  split; vm_compute; reflexivity.
Qed.

(** ** The memory estimator *)

Lemma Qltb_true (x y : Q) : Qltb x y = true <-> (x < y)%Q.
Proof.
  unfold Qltb. rewrite negb_true_iff. split.
  - intros H. apply Qnot_le_lt. intros Hle.
    apply Qle_bool_iff in Hle. congruence.
  - intros H. destruct (Qle_bool y x) eqn:E; [|reflexivity].
    apply Qle_bool_iff in E. exfalso. exact (Qlt_not_le _ _ H E).
Qed.

Lemma Qltb_false (x y : Q) : Qltb x y = false <-> (y <= x)%Q.
Proof.
  unfold Qltb. rewrite negb_false_iff. apply Qle_bool_iff.
Qed.

Lemma MiB_pos : (0 < Estimator.MiB)%Q.
Proof. reflexivity. Qed.

Section EstimateOf.

Variables available n_traj n_time n_vars : Z.
Variable percentage : Q.

(** The fragment size of line 114, once computed. *)
Variable frag_traj : Z.
Hypothesis frag_traj_computed : ceil_share n_traj percentage = inr frag_traj.

Let est_mb := (inject_Z (frag_traj * n_time * 4 * n_vars) / Estimator.MiB * 3)%Q.
Let avail_mb := (inject_Z available / Estimator.MiB)%Q.



(** What [estimate_of] returns, when it returns. *)
Lemma estimate_of_inr e :
  Estimator.estimate_of available n_traj n_time n_vars percentage = inr e ->
  Estimator.estimated_mb e = est_mb /\
  Estimator.available_mb e = avail_mb /\
  Estimator.is_safe e = Qltb est_mb (avail_mb * (1 # 2))%Q /\
  (Estimator.is_safe e = true ->
     Estimator.recommended_percentage e = percentage) /\
  (Estimator.is_safe e = false ->
     ~ (est_mb == 0)%Q /\
     Estimator.recommended_percentage e =
       py_max 1 (py_min 100 (avail_mb * (3 # 10) / est_mb * percentage)%Q)).
Proof.
  unfold Estimator.estimate_of. rewrite frag_traj_computed.
  fold est_mb avail_mb.
  destruct (Qltb est_mb (avail_mb * (1 # 2))%Q) eqn:Hs; simpl.
  - intros [= <-]. simpl. repeat split; try reflexivity; try discriminate.
  - unfold py_div. destruct (Qeq_bool est_mb 0) eqn:Hz; [discriminate|].
    intros [= <-]. simpl. repeat split; try reflexivity; try discriminate.
    intros E. apply Qeq_bool_iff in E. congruence.
Qed.

(** With some memory available the estimator does not raise any more. *)
Lemma estimate_of_total :
  0 < available ->
  exists e,
    Estimator.estimate_of available n_traj n_time n_vars percentage = inr e.
Proof.
  intros Hav. unfold Estimator.estimate_of. rewrite frag_traj_computed.
  fold est_mb avail_mb.
  destruct (Qltb est_mb (avail_mb * (1 # 2))%Q) eqn:Hs; simpl; [eauto|].
  rewrite py_div_nonzero; [eauto|].
  apply Qltb_false in Hs. intros E. rewrite E in Hs.
  assert (0 < avail_mb * (1 # 2))%Q as Hpos.
  { unfold avail_mb. apply Qmult_lt_0_compat; [|reflexivity].
    apply Qlt_shift_div_l; [exact MiB_pos|]. rewrite Qmult_0_l.
    change 0%Q with (inject_Z 0). rewrite <- Zlt_Qlt. exact Hav. }
  exact (Qlt_not_le _ _ Hpos Hs).
Qed.


End EstimateOf.

(** An estimate that is returned has computed its fragment size. *)
Lemma estimate_of_frag_traj (available n_traj n_time n_vars : Z)
    (percentage : Q) e :
  Estimator.estimate_of available n_traj n_time n_vars percentage = inr e ->
  exists frag_traj, ceil_share n_traj percentage = inr frag_traj.
Proof.
  unfold Estimator.estimate_of.
  destruct (ceil_share n_traj percentage) as [err | t]; [discriminate | eauto].
Qed.

Lemma estimate_of_inv (available n_traj n_time n_vars : Z) (percentage : Q) e :
  Estimator.estimate_of available n_traj n_time n_vars percentage = inr e ->
  exists frag_traj,
    ceil_share n_traj percentage = inr frag_traj /\
    let est_mb :=
      (inject_Z (frag_traj * n_time * 4 * n_vars) / Estimator.MiB * 3)%Q in
    let avail_mb := (inject_Z available / Estimator.MiB)%Q in
    Estimator.estimated_mb e = est_mb /\
    Estimator.available_mb e = avail_mb /\
    Estimator.is_safe e = Qltb est_mb (avail_mb * (1 # 2))%Q /\
    (Estimator.is_safe e = true ->
       Estimator.recommended_percentage e = percentage) /\
    (Estimator.is_safe e = false ->
       ~ (est_mb == 0)%Q /\
       Estimator.recommended_percentage e =
         py_max 1 (py_min 100 (avail_mb * (3 # 10) / est_mb * percentage)%Q)).
Proof.
  intros He. destruct (estimate_of_frag_traj _ _ _ _ _ _ He) as [t Ft].
  exists t. split; [exact Ft |].
  exact (estimate_of_inr _ _ _ _ _ t Ft e He).
Qed.

(** One call of [estimate_memory_requirements], unfolded. *)
Lemma estimate_memory_requirements_run (ds : Dataset) (percentage : Q)
    (w : World) (n_traj n_time : Z) :
  sizes ds !! "trajectory"%string = Some n_traj ->
  sizes ds !! "time"%string = Some n_time ->
  Estimator.estimate_memory_requirements ds percentage w =
  (Estimator.estimate_of (available_memory w) n_traj n_time
     (Z.of_nat (size (data_vars ds))) percentage,
   record_event EvMemoryEstimate w).
Proof.
  intros Ht Hm.
  unfold Estimator.estimate_memory_requirements, bind, emit, lift,
    Sys.virtual_memory_available, py_getitem.
  simpl. rewrite Ht, Hm. reflexivity.
Qed.


Section EstimateOrder.

Variables available n_traj n_time n_vars : Z.
Hypothesis n_traj_nonneg : 0 <= n_traj.
Hypothesis n_time_nonneg : 0 <= n_time.
Hypothesis n_vars_nonneg : 0 <= n_vars.

(** The estimate grows with the percentage. *)
Lemma estimate_of_mono (p1 p2 : Q) e1 e2 :
  (p1 <= p2)%Q ->
  Estimator.estimate_of available n_traj n_time n_vars p1 = inr e1 ->
  Estimator.estimate_of available n_traj n_time n_vars p2 = inr e2 ->
  (Estimator.estimated_mb e1 <= Estimator.estimated_mb e2)%Q.
Proof.
  intros Hp H1 H2.
  destruct (estimate_of_frag_traj _ _ _ _ _ _ H1) as [t1 F1].
  destruct (estimate_of_frag_traj _ _ _ _ _ _ H2) as [t2 F2].
  apply (estimate_of_inr _ _ _ _ _ t1 F1) in H1 as [-> _].
  apply (estimate_of_inr _ _ _ _ _ t2 F2) in H2 as [-> _].
  pose proof (ceil_share_mono n_traj p1 p2 t1 t2 n_traj_nonneg Hp F1 F2) as Hc.
  assert (t1 * n_time * 4 * n_vars <= t2 * n_time * 4 * n_vars) as Hz
    by (repeat (apply Z.mul_le_mono_nonneg_r; [lia|]); exact Hc).
  rewrite Zle_Qle in Hz.
  apply Qmult_le_compat_r; [|discriminate].
  unfold Qdiv. apply Qmult_le_compat_r; [exact Hz|discriminate].
Qed.

Hypothesis available_nonneg : 0 <= available.

(** An unsafe estimate recommends at most 60% of the input percentage,
    before clamping. *)
Lemma unsafe_recommendation (p : Q) e :
  (0 < p)%Q ->
  Estimator.estimate_of available n_traj n_time n_vars p = inr e ->
  Estimator.is_safe e = false ->
  exists raw,
    Estimator.recommended_percentage e = py_max 1 (py_min 100 raw)
    /\ (raw < p)%Q.
Proof.
  intros Hp He Hs.
  destruct (estimate_of_frag_traj _ _ _ _ _ _ He) as [t Ft].
  apply (estimate_of_inr _ _ _ _ _ t Ft) in He as (_ & _ & Hsafe & _ & Hrec).
  destruct (Hrec Hs) as [Hnz ->]. rewrite Hs in Hsafe.
  symmetry in Hsafe. apply Qltb_false in Hsafe.
  eexists. split; [reflexivity|].
  set (est := (inject_Z (t * n_time * 4 * n_vars) / Estimator.MiB * 3)%Q) in *.
  set (av := (inject_Z available / Estimator.MiB)%Q) in *.
  assert (0 <= av)%Q as Hav.
  { unfold av. apply Qle_shift_div_l; [exact MiB_pos|]. rewrite Qmult_0_l.
    change 0%Q with (inject_Z 0). rewrite <- Zle_Qle. exact available_nonneg. }
  assert (0 < est)%Q as Hest.
  { destruct (Qlt_le_dec 0 est) as [H|H]; [exact H|].
    exfalso. apply Hnz. lra. }
  assert (av * (3 # 10) / est <= 6 # 10)%Q as Hratio.
  { apply Qle_shift_div_r; [exact Hest|]. lra. }
  assert (av * (3 # 10) / est * p <= (6 # 10) * p)%Q as H.
  { apply Qmult_le_compat_r; [exact Hratio|]. lra. }
  lra.
Qed.

End EstimateOrder.



(** C3 (amended).  For a fixed dataset shape and fixed available memory
    the estimate is non-decreasing in the percentage.  When the estimator
    reports an unsafe plan for a percentage in (1,100], the recommended
    percentage is strictly below the input; for a percentage in (0,1] the
    clamp to [1,100] makes the recommendation exactly 1, which is not
    below the input. *)
Theorem C3_monotone_and_recommendation (ds : Dataset) (w : World)
    (n_traj n_time : Z) :
  sizes ds !! "trajectory"%string = Some n_traj ->
  sizes ds !! "time"%string = Some n_time ->
  0 <= n_traj -> 0 <= n_time -> 0 <= available_memory w ->
  (forall (p1 p2 : Q) e1 e2,
     (p1 <= p2)%Q ->
     (Estimator.estimate_memory_requirements ds p1 w).1 = inr e1 ->
     (Estimator.estimate_memory_requirements ds p2 w).1 = inr e2 ->
     (Estimator.estimated_mb e1 <= Estimator.estimated_mb e2)%Q) /\
  (forall (p : Q) e,
     (Estimator.estimate_memory_requirements ds p w).1 = inr e ->
     Estimator.is_safe e = false ->
     ((1 < p)%Q -> (p <= 100)%Q ->
        (Estimator.recommended_percentage e < p)%Q) /\
     ((0 < p)%Q -> (p <= 1)%Q -> Estimator.recommended_percentage e = 1%Q)).
Proof.
  intros Ht Hm Hn Htime Hav. split.
  - intros p1 p2 e1 e2 Hp.
    rewrite !(estimate_memory_requirements_run ds _ w n_traj n_time Ht Hm).
    simpl. intros H1 H2.
    eapply (estimate_of_mono (available_memory w) n_traj n_time);
      [exact Hn | exact Htime | | exact Hp | exact H1 | exact H2]. lia.
  - intros p e.
    rewrite (estimate_memory_requirements_run ds _ w n_traj n_time Ht Hm).
    simpl. intros He Hs. split.
    + intros Hp1 Hp100.
      destruct (unsafe_recommendation _ _ _ _ Hav p e ltac:(lra) He Hs)
        as (raw & -> & Hraw).
      unfold py_max, py_min.
      destruct (Qltb raw 100) eqn:E1; cbv iota.
      * destruct (Qltb 1 raw) eqn:E2; lra.
      * apply Qltb_false in E1. lra.
    + intros Hp0 Hp1.
      destruct (unsafe_recommendation _ _ _ _ Hav p e Hp0 He Hs)
        as (raw & -> & Hraw).
      unfold py_max, py_min.
      destruct (Qltb raw 100) eqn:E1; cbv iota.
      * destruct (Qltb 1 raw) eqn:E2; [|reflexivity].
        apply Qltb_true in E2. lra.
      * apply Qltb_false in E1. lra.
Qed.

Lemma C3_monotone_and_recommendation_witness :
  (forall (p1 p2 : Q) e1 e2,
     (p1 <= p2)%Q ->
     (Estimator.estimate_memory_requirements Sample.source p1
        (Sample.world 900 [])).1 = inr e1 ->
     (Estimator.estimate_memory_requirements Sample.source p2
        (Sample.world 900 [])).1 = inr e2 ->
     (Estimator.estimated_mb e1 <= Estimator.estimated_mb e2)%Q) /\
  (forall (p : Q) e,
     (Estimator.estimate_memory_requirements Sample.source p
        (Sample.world 900 [])).1 = inr e ->
     Estimator.is_safe e = false ->
     ((1 < p)%Q -> (p <= 100)%Q ->
        (Estimator.recommended_percentage e < p)%Q) /\
     ((0 < p)%Q -> (p <= 1)%Q -> Estimator.recommended_percentage e = 1%Q)).
Proof.
  apply (C3_monotone_and_recommendation Sample.source (Sample.world 900 [])
           250 10).
  - reflexivity.
  - reflexivity.
  - lia.
  - lia.
  - simpl. lia.
Defined.

(** C3 as stated fails below one percent: with 900 bytes available, half
    a percent of the sample source is estimated at 480 bytes, which is
    unsafe, and the recommendation is clamped up to 1, above the input. *)
Lemma C3_recommendation_above_small_percentage :
  exists e,
    (Estimator.estimate_memory_requirements Sample.source (1 # 2)
       (Sample.world 900 [])).1 = inr e /\
    (0 < 1 # 2)%Q /\ (1 # 2 <= 100)%Q /\
    Estimator.is_safe e = false /\
    ~ (Estimator.recommended_percentage e < 1 # 2)%Q.
Proof.
  eexists. split; [vm_compute; reflexivity|].
  split; [reflexivity|]. split; [discriminate|]. split; [reflexivity|].
  simpl. intros H. vm_compute in H. discriminate H.
Qed.

(** ** Variable synthesis *)

Lemma py_in_true {A} (name : string) (m : gmap string A) :
  py_in name m = true <-> is_Some (m !! name).
Proof. unfold py_in. apply bool_decide_eq_true. Qed.

Lemma py_in_false {A} (name : string) (m : gmap string A) :
  py_in name m = false <-> m !! name = None.
Proof.
  unfold py_in. rewrite bool_decide_eq_false. symmetry. apply eq_None_not_Some.
Qed.

Lemma variables_set_variable (name : string) (da : DataArray) (ds : Dataset) :
  variables (set_variable name da ds) = <[name := da]> (variables ds).
Proof. unfold variables, set_variable. simpl. symmetry. apply insert_union_l. Qed.

Lemma add_if_absent_present name da msg ds (l : list fstr) :
  is_Some (variables ds !! name) ->
  Synth.add_if_absent name da msg (ds, l) = (ds, l).
Proof.
  intros H. unfold Synth.add_if_absent.
  apply py_in_true in H. rewrite H. reflexivity.
Qed.

Lemma add_if_absent_absent name da msg ds (l : list fstr) :
  variables ds !! name = None ->
  Synth.add_if_absent name da msg (ds, l)
  = (set_variable name da ds, l ++ [msg]).
Proof.
  intros H. unfold Synth.add_if_absent.
  apply py_in_false in H. rewrite H. reflexivity.
Qed.

Lemma synthesized_nil ds : synthesized [] ds ds.
Proof.
  split; try reflexivity; try tauto.
  intros name H. apply elem_of_nil in H. contradiction.
Qed.

Lemma synthesized_block name da msg ds l :
  synthesized [name] ds (Synth.add_if_absent name da msg (ds, l)).1.
Proof.
  destruct (variables ds !! name) as [v|] eqn:E.
  - rewrite add_if_absent_present by (rewrite E; eauto). simpl.
    split; try reflexivity; try tauto.
    intros n Hn. apply list_elem_of_singleton in Hn as ->. rewrite E. eauto.
  - rewrite add_if_absent_absent by exact E. simpl.
    split; try reflexivity.
    + intros n v Hv. rewrite variables_set_variable.
      rewrite lookup_insert_ne; [exact Hv|]. intros ->. congruence.
    + intros n Hn. apply list_elem_of_singleton in Hn as ->.
      rewrite variables_set_variable, lookup_insert_eq. eauto.
    + intros n Hn. rewrite variables_set_variable in Hn.
      destruct (decide (name = n)) as [->|Hne].
      * split; [apply list_elem_of_singleton; reflexivity | exact E].
      * rewrite lookup_insert_ne in Hn by exact Hne. contradiction.
Qed.

Lemma synthesized_trans ns1 ns2 a b c :
  synthesized ns1 a b -> synthesized ns2 b c -> synthesized (ns1 ++ ns2) a c.
Proof.
  intros H1 H2. split.
  - rewrite (syn_sizes _ _ _ H2). apply H1.
  - rewrite (syn_coords _ _ _ H2). apply H1.
  - rewrite (syn_attrs _ _ _ H2). apply H1.
  - intros name da Hv. apply (syn_kept _ _ _ H2), (syn_kept _ _ _ H1), Hv.
  - intros name Hn. apply elem_of_app in Hn as [Hn|Hn].
    + destruct (syn_present _ _ _ H1 name Hn) as [v Hv].
      exists v. apply (syn_kept _ _ _ H2), Hv.
    + apply (syn_present _ _ _ H2), Hn.
  - intros name Hn.
    destruct (variables a !! name) as [v|] eqn:Ea.
    + exfalso. apply Hn.
      apply (syn_kept _ _ _ H2), (syn_kept _ _ _ H1), Ea.
    + split; [|reflexivity]. apply elem_of_app.
      destruct (variables b !! name) as [v|] eqn:Eb.
      * left. apply (syn_changed _ _ _ H1). congruence.
      * right. apply (syn_changed _ _ _ H2). congruence.
Qed.

Lemma synthesized_blocks blocks ds l :
  synthesized (map (fun b => b.1.1) blocks) ds
              (fold_left Synth.run_block blocks (ds, l)).1.
Proof.
  revert ds l. induction blocks as [|[[name da] msg] blocks IH]; intros ds l.
  - apply synthesized_nil.
  - cbn [fold_left map fst snd].
    change (Synth.run_block (ds, l) (name, da, msg))
      with (Synth.add_if_absent name da msg (ds, l)).
    destruct (Synth.add_if_absent name da msg (ds, l)) as [ds' l'] eqn:E.
    apply (synthesized_trans [name] _ ds ds').
    + pose proof (synthesized_block name da msg ds l) as H.
      rewrite E in H. exact H.
    + apply IH.
Qed.

(** Blocks whose names all exist leave the dataset and the list alone. *)
Lemma blocks_noop blocks ds (l : list fstr) :
  (forall name, name ∈ map (fun b => b.1.1) blocks ->
                is_Some (variables ds !! name)) ->
  fold_left Synth.run_block blocks (ds, l) = (ds, l).
Proof.
  induction blocks as [|[[name da] msg] blocks IH]; intros H; [reflexivity|].
  cbn [fold_left].
  change (Synth.run_block (ds, l) (name, da, msg))
    with (Synth.add_if_absent name da msg (ds, l)).
  rewrite add_if_absent_present by (apply H; simpl; apply list_elem_of_here).
  apply IH. intros n Hn. apply H. simpl. apply list_elem_of_further, Hn.
Qed.

Lemma derived_variables_names n_traj n_time p :
  map (fun b => b.1.1) (Synth.derived_variables n_traj n_time p)
  = Synth.derived_names.
Proof. reflexivity. Qed.

Lemma variables_mark_class ds : variables (Synth.mark_class ds) = variables ds.
Proof. unfold Synth.mark_class. destruct (negb _); reflexivity. Qed.

Lemma sizes_mark_class ds : sizes (Synth.mark_class ds) = sizes ds.
Proof. unfold Synth.mark_class. destruct (negb _); reflexivity. Qed.

Lemma mark_class_present ds :
  is_Some (attrs ds !! "opendrift_class"%string) -> Synth.mark_class ds = ds.
Proof.
  intros H. unfold Synth.mark_class.
  apply py_in_true in H. rewrite H. reflexivity.
Qed.

Lemma mark_class_marked ds :
  is_Some (attrs (Synth.mark_class ds) !! "opendrift_class"%string).
Proof.
  unfold Synth.mark_class.
  destruct (py_in "opendrift_class" (attrs ds)) eqn:E; simpl.
  - apply py_in_true, E.
  - rewrite lookup_insert_eq. eauto.
Qed.

(** One entry is appended to [added_vars] per block whose name was
    absent. *)
Lemma blocks_added_count blocks ds (l : list fstr) :
  NoDup (map (fun b => b.1.1) blocks) ->
  length (fold_left Synth.run_block blocks (ds, l)).2
  = (length l
     + length (List.filter (fun name => negb (py_in name (variables ds)))
                           (map (fun b => b.1.1) blocks)))%nat.
Proof.
  revert ds l. induction blocks as [|[[name da] msg] blocks IH]; intros ds l Hnd.
  - simpl. lia.
  - cbn [fold_left map fst snd List.filter] in *.
    apply NoDup_cons in Hnd as [Hnotin Hnd].
    change (Synth.run_block (ds, l) (name, da, msg))
      with (Synth.add_if_absent name da msg (ds, l)).
    destruct (py_in name (variables ds)) eqn:E.
    + rewrite add_if_absent_present by (apply py_in_true, E).
      rewrite IH by exact Hnd. reflexivity.
    + apply py_in_false in E.
      rewrite add_if_absent_absent by exact E.
      rewrite IH by exact Hnd. rewrite length_app. simpl.
      rewrite (List.filter_ext_in
                 (fun n => negb (py_in n (variables (set_variable name da ds))))
                 (fun n => negb (py_in n (variables ds)))); [lia|].
      intros n Hn. unfold py_in.
      rewrite variables_set_variable, lookup_insert_ne; [reflexivity|].
      intros ->. apply Hnotin, list_elem_of_In, Hn.
Qed.

(** C5.  Synthesis never overwrites and is idempotent: on a fragment with
    both dimensions the call succeeds; every variable that existed keeps
    its value; afterwards all seven derived variables exist; a variable
    that differs afterwards is one of the seven that was absent, and one
    addition is reported per absent name; and a second call, with any
    parameter set, returns the same fragment and an empty list. *)
Theorem C5_synthesis_never_overwrites_and_is_idempotent
    (ds : Dataset) (p : Params) (n_traj n_time : Z) :
  sizes ds !! "trajectory"%string = Some n_traj ->
  sizes ds !! "time"%string = Some n_time ->
  exists ds1 added1,
    Synth.add_missing_sediment_variables ds p = inr (ds1, added1) /\
    (forall name da,
       variables ds !! name = Some da -> variables ds1 !! name = Some da) /\
    (forall name,
       name ∈ Synth.derived_names -> is_Some (variables ds1 !! name)) /\
    (forall name,
       variables ds1 !! name <> variables ds !! name ->
       name ∈ Synth.derived_names /\ variables ds !! name = None) /\
    length added1
    = length (List.filter (fun name => negb (py_in name (variables ds)))
                          Synth.derived_names) /\
    (forall p', Synth.add_missing_sediment_variables ds1 p' = inr (ds1, [])).
Proof.
  intros Ht Hm. unfold Synth.add_missing_sediment_variables, py_getitem.
  rewrite Ht, Hm.
  pose proof (synthesized_blocks (Synth.derived_variables n_traj n_time p) ds [])
    as Hsyn.
  pose proof (blocks_added_count (Synth.derived_variables n_traj n_time p) ds [])
    as Hcount.
  rewrite derived_variables_names in Hsyn, Hcount.
  destruct (fold_left Synth.run_block _ (ds, [])) as [ds' added] eqn:E.
  cbn [fst snd length Nat.add] in Hsyn, Hcount.
  exists (Synth.mark_class ds'), added. split; [reflexivity|].
  rewrite variables_mark_class.
  split; [apply Hsyn|]. split; [apply Hsyn|]. split; [apply Hsyn|].
  split.
  - apply Hcount. apply (bool_decide_unpack _). vm_compute. exact I.
  - intros p'. rewrite sizes_mark_class, (syn_sizes _ _ _ Hsyn), Ht, Hm.
    rewrite blocks_noop.
    + rewrite mark_class_present by apply mark_class_marked. reflexivity.
    + intros name Hn. rewrite derived_variables_names in Hn.
      rewrite variables_mark_class. apply Hsyn, Hn.
Qed.

Lemma C5_synthesis_never_overwrites_and_is_idempotent_witness :
  exists ds1 added1,
    Synth.add_missing_sediment_variables Sample.source default_params
    = inr (ds1, added1) /\
    (forall name da,
       variables Sample.source !! name = Some da ->
       variables ds1 !! name = Some da) /\
    (forall name,
       name ∈ Synth.derived_names -> is_Some (variables ds1 !! name)) /\
    (forall name,
       variables ds1 !! name <> variables Sample.source !! name ->
       name ∈ Synth.derived_names /\ variables Sample.source !! name = None) /\
    length added1
    = length (List.filter
                (fun name => negb (py_in name (variables Sample.source)))
                Synth.derived_names) /\
    (forall p', Synth.add_missing_sediment_variables ds1 p' = inr (ds1, [])).
Proof.
  apply (C5_synthesis_never_overwrites_and_is_idempotent
           Sample.source default_params 250 10).
  - reflexivity.
  - reflexivity.
Defined.

(** A block whose name was absent leaves its array in the dataset. *)
Lemma blocks_inserted blocks ds (l : list fstr) name da msg :
  NoDup (map (fun b => b.1.1) blocks) ->
  (name, da, msg) ∈ blocks ->
  variables ds !! name = None ->
  variables (fold_left Synth.run_block blocks (ds, l)).1 !! name = Some da.
Proof.
  revert ds l. induction blocks as [|[[name' da'] msg'] blocks IH];
    intros ds l Hnd Hin Habs.
  - apply elem_of_nil in Hin. contradiction.
  - cbn [fold_left map fst snd] in *.
    apply NoDup_cons in Hnd as [Hnotin Hnd].
    change (Synth.run_block (ds, l) (name', da', msg'))
      with (Synth.add_if_absent name' da' msg' (ds, l)).
    apply elem_of_cons in Hin as [[= <- <- <-]|Hin].
    + rewrite add_if_absent_absent by exact Habs.
      apply (syn_kept _ _ _ (synthesized_blocks blocks _ _)).
      rewrite variables_set_variable. apply lookup_insert_eq.
    + assert (name' <> name) as Hne.
      { intros ->. apply Hnotin.
        apply (list_elem_of_fmap_2 (fun b => b.1.1)) in Hin. exact Hin. }
      destruct (variables ds !! name') as [v|] eqn:E.
      * rewrite add_if_absent_present by (rewrite E; eauto).
        apply IH; assumption.
      * rewrite add_if_absent_absent by exact E.
        apply IH; [assumption..|].
        rewrite variables_set_variable, lookup_insert_ne; assumption.
Qed.

Lemma derived_names_NoDup n_traj n_time p :
  NoDup (map (fun b => b.1.1) (Synth.derived_variables n_traj n_time p)).
Proof. apply (bool_decide_unpack _). vm_compute. exact I. Qed.

(** The array a successful synthesis leaves under a derived name that was
    absent is the one of that name's block. *)
Lemma synthesis_inserted ds p n_traj n_time name da msg :
  sizes ds !! "trajectory"%string = Some n_traj ->
  sizes ds !! "time"%string = Some n_time ->
  (name, da, msg) ∈ Synth.derived_variables n_traj n_time p ->
  variables ds !! name = None ->
  exists ds1 added1,
    Synth.add_missing_sediment_variables ds p = inr (ds1, added1) /\
    variables ds1 !! name = Some da.
Proof.
  intros Ht Hm Hin Habs.
  unfold Synth.add_missing_sediment_variables, py_getitem. rewrite Ht, Hm.
  pose proof (blocks_inserted _ ds [] name da msg
                (derived_names_NoDup n_traj n_time p) Hin Habs) as H.
  destruct (fold_left Synth.run_block _ (ds, [])) as [ds' added].
  exists (Synth.mark_class ds'), added. split; [reflexivity|].
  rewrite variables_mark_class. exact H.
Qed.

(** Shape and content of [np.full((n_traj, n_time), c)]. *)
Lemma np_full_shape n_traj n_time c :
  length (np_full n_traj n_time c) = Z.to_nat n_traj /\
  forall row, row ∈ np_full n_traj n_time c ->
    length row = Z.to_nat n_time /\ forall x, x ∈ row -> x = c.
Proof.
  unfold np_full. split; [apply length_replicate|].
  intros row Hrow. apply elem_of_replicate in Hrow as [-> _].
  split; [apply length_replicate|].
  intros x Hx. apply elem_of_replicate in Hx as [-> _]. reflexivity.
Qed.

(** C10.  On a fragment lacking [particulate_size_class], synthesis
    stores an array of dtype U6 whose every cell is the supplied size
    class cut to its first six characters; a longer value is therefore
    stored truncated, neither in full nor rejected. *)
Theorem C10_size_class_truncated_to_six (ds : Dataset) (p : Params)
    (n_traj n_time : Z) :
  sizes ds !! "trajectory"%string = Some n_traj ->
  sizes ds !! "time"%string = Some n_time ->
  variables ds !! "particulate_size_class"%string = None ->
  exists ds1 added1 da,
    Synth.add_missing_sediment_variables ds p = inr (ds1, added1) /\
    variables ds1 !! "particulate_size_class"%string = Some da /\
    da_dtype da = Unicode 6 /\
    length (da_values da) = Z.to_nat n_traj /\
    (forall row, row ∈ da_values da ->
       length row = Z.to_nat n_time /\
       forall c, c ∈ row ->
         exists s, c = CStr s /\
           Str.chars s = take 6 (Str.chars (particle_size_class p))).
Proof.
  intros Ht Hm Habs.
  destruct (synthesis_inserted ds p n_traj n_time "particulate_size_class"
              (Synth.size_class_array n_traj n_time p)
              [Lit "particulate_size_class ("; Lit (particle_size_class p);
               Lit ")"] Ht Hm) as (ds1 & added1 & Hrun & Hvar).
  { unfold Synth.derived_variables. rewrite !elem_of_cons. tauto. }
  { exact Habs. }
  exists ds1, added1, (Synth.size_class_array n_traj n_time p).
  split; [exact Hrun|]. split; [exact Hvar|]. split; [reflexivity|].
  unfold Synth.size_class_array, full_array. cbn [da_values cast].
  destruct (np_full_shape n_traj n_time
              (CStr (Str.truncate 6 (particle_size_class p)))) as [Hlen Hrows].
  split; [exact Hlen|].
  intros row Hrow. destruct (Hrows row Hrow) as [Hl Hc].
  split; [exact Hl|]. intros c Hin. rewrite (Hc c Hin).
  eexists. split; [reflexivity|].
  unfold Str.truncate, Str.of_chars, Str.chars.
  apply list_ascii_of_string_of_list_ascii.
Qed.

Lemma C10_size_class_truncated_to_six_witness :
  exists ds1 added1 da,
    Synth.add_missing_sediment_variables Sample.source
      (mkParams "other" "extra_large" (1 # 10000) 1027) = inr (ds1, added1) /\
    variables ds1 !! "particulate_size_class"%string = Some da /\
    da_dtype da = Unicode 6 /\
    length (da_values da) = Z.to_nat 250 /\
    (forall row, row ∈ da_values da ->
       length row = Z.to_nat 10 /\
       forall c, c ∈ row ->
         exists s, c = CStr s /\
           Str.chars s = take 6 (Str.chars "extra_large")).
Proof.
  apply (C10_size_class_truncated_to_six Sample.source
           (mkParams "other" "extra_large" (1 # 10000) 1027) 250 10).
  - reflexivity.
  - reflexivity.
  - reflexivity.
Defined.

(** ** Running the orchestrator *)

Lemma open_dataset_ok (path : string) (w : World) (size : Z) (ds : Dataset) :
  fs w !! path = Some (File size (Some ds)) ->
  Sys.open_dataset path w
  = (inr ds, set_open_handles (path :: open_handles w)
                              (record_event (EvOpen path) w)).
Proof.
  intros H. unfold Sys.open_dataset, bind, emit. simpl. rewrite H. reflexivity.
Qed.

Lemma py_max_ge_1 (x : Q) : (1 <= py_max 1 x)%Q.
Proof.
  unfold py_max. destruct (Qltb 1 x) eqn:E; [|lra].
  apply Qltb_true in E. lra.
Qed.

(** The memory check, once the estimate is known: safe plans pass without
    a prompt; unsafe ones read one line and pass only on [y]. *)
Lemma check_memory_safety_run (ds : Dataset) (percentage : Q) (w : World)
    (n_traj n_time : Z) e :
  sizes ds !! "trajectory"%string = Some n_traj ->
  sizes ds !! "time"%string = Some n_time ->
  0 < available_memory w ->
  Estimator.estimate_of (available_memory w) n_traj n_time
    (Z.of_nat (size (data_vars ds))) percentage = inr e ->
  Estimator.check_memory_safety ds percentage w =
  if Estimator.is_safe e then (inr true, record_event EvMemoryEstimate w)
  else match stdin w with
       | line :: rest =>
           (inr (String.eqb (Str.lower (Str.strip line)) "y"),
            set_stdin rest
              (record_event EvInput (record_event EvMemoryEstimate w)))
       | [] => (inl EOFError,
                record_event EvInput (record_event EvMemoryEstimate w))
       end.
Proof.
  intros Ht Hm Hav He.
  unfold Estimator.check_memory_safety, bind at 1.
  rewrite (estimate_memory_requirements_run ds percentage w n_traj n_time Ht Hm).
  rewrite He.
  destruct (estimate_of_inv _ _ _ _ _ _ He) as (frag & _ & _ & Ham & _ & _ & Hrec).
  unfold bind at 1, lift at 1.
  rewrite py_div_nonzero.
  2:{ rewrite Ham. intros E.
      assert (0 < inject_Z (available_memory w))%Q
        by (change 0%Q with (inject_Z 0); rewrite <- Zlt_Qlt; exact Hav).
      apply (Qmult_inj_r _ _ Estimator.MiB) in E; [|discriminate].
      revert E. unfold Qdiv. rewrite <- Qmult_assoc, (Qmult_comm (/ _)).
      rewrite Qmult_inv_r by discriminate. intros E. lra. }
  destruct (Estimator.is_safe e) eqn:Hs; simpl; [reflexivity|].
  unfold bind at 1, lift at 1.
  rewrite py_div_nonzero.
  2:{ destruct (Hrec eq_refl) as [_ ->].
      match goal with
      | |- ~ (py_max 1 ?x == 0)%Q => pose proof (py_max_ge_1 x)
      end.
      intros E. lra. }
  unfold Sys.input, emit, bind, ret. simpl.
  destruct (stdin w); reflexivity.
Qed.

(** C7.  When the estimate is unsafe and the answer to the confirmation
    prompt is anything but [y], [create_fragments] returns the empty
    list; the source handle has been closed again, the file system is
    unchanged, and nothing but the open, the estimate, the prompt and the
    close has happened (no fragment was written). *)
Theorem C7_declined_run_writes_nothing (input_file : string)
    (output_prefix : option string) (percentage : Q) (add_sediment_vars : bool)
    (p : Params) (w : World) (size : Z) (ds : Dataset) (n_traj n_time : Z)
    e (line : string) (rest : list string) :
  fs w !! input_file = Some (File size (Some ds)) ->
  sizes ds !! "trajectory"%string = Some n_traj ->
  sizes ds !! "time"%string = Some n_time ->
  0 < available_memory w ->
  Estimator.estimate_of (available_memory w) n_traj n_time
    (Z.of_nat (base.size (data_vars ds))) percentage = inr e ->
  Estimator.is_safe e = false ->
  stdin w = line :: rest ->
  Str.lower (Str.strip line) <> "y"%string ->
  let r := Fragmenter.create_fragments input_file output_prefix percentage
             add_sediment_vars p w in
  r.1 = inr [] /\
  open_handles r.2 = open_handles w /\
  fs r.2 = fs w /\
  trace r.2 = trace w ++ [EvOpen input_file; EvMemoryEstimate; EvInput;
                          EvClose input_file].
Proof.
  intros Hfs Ht Hm Hav He Hs Hin Hno r.
  assert (exists w',
            Fragmenter.create_fragments input_file output_prefix percentage
              add_sediment_vars p w = (inr [], w') /\
            open_handles w' = open_handles w /\
            fs w' = fs w /\
            trace w' = trace w ++ [EvOpen input_file; EvMemoryEstimate; EvInput;
                                   EvClose input_file]) as (w' & Hrun & Hw').
  { eexists. split.
    - unfold Fragmenter.create_fragments.
      unfold bind at 1. rewrite (open_dataset_ok _ _ _ _ Hfs).
      unfold bind at 1, lift at 1, py_getitem at 1. rewrite Ht.
      unfold bind at 1, lift at 1, py_getitem at 1. rewrite Hm.
      unfold bind at 1.
      rewrite (check_memory_safety_run ds percentage
                 (set_open_handles (input_file :: open_handles w)
                                   (record_event (EvOpen input_file) w))
                 n_traj n_time e Ht Hm Hav He).
      rewrite Hs. simpl stdin. rewrite Hin.
      apply String.eqb_neq in Hno. rewrite Hno. simpl negb. cbv iota.
      unfold Sys.close, bind, emit, ret. reflexivity.
    - simpl. rewrite String.eqb_refl, <- !app_assoc. auto. }
  subst r. rewrite Hrun. exact (conj eq_refl Hw').
Qed.

Lemma C7_declined_run_writes_nothing_witness :
  let w := Sample.world 900 ["n"%string] in
  let r := Fragmenter.create_fragments "mydata.nc" None 40 true
             default_params w in
  r.1 = inr [] /\
  open_handles r.2 = open_handles w /\
  fs r.2 = fs w /\
  trace r.2 = trace w ++ [EvOpen "mydata.nc"; EvMemoryEstimate; EvInput;
                          EvClose "mydata.nc"].
Proof.
  intros w.
  eapply (C7_declined_run_writes_nothing "mydata.nc" None 40 true
            default_params w 20000 Sample.source 250 10 _ "n" []).
  - reflexivity.
  - reflexivity.
  - reflexivity.
  - simpl. lia.
  - vm_compute. reflexivity.
  - reflexivity.
  - reflexivity.
  - vm_compute. discriminate.
Defined.

(** ** Computations that write no file *)

Lemma writes_nothing_ret {A} (x : A) : writes_nothing (ret x).
Proof.
  intros w. split; [reflexivity|]. exists []. rewrite app_nil_r.
  split; [reflexivity|]. intros path H. apply elem_of_nil in H. exact H.
Qed.

Lemma writes_nothing_raise {A} (e : exn) : writes_nothing (@raise A e).
Proof. exact (writes_nothing_ret (inl e : exn + A)). Qed.

Lemma writes_nothing_lift {A} (r : exn + A) : writes_nothing (lift r).
Proof. exact (writes_nothing_ret r). Qed.

Lemma writes_nothing_bind {A B} (m : M A) (f : A -> M B) :
  writes_nothing m -> (forall x, writes_nothing (f x)) ->
  writes_nothing (bind m f).
Proof.
  intros Hm Hf w. unfold bind.
  destruct (Hm w) as (Hfs & evs & Htr & Hno).
  destruct (m w) as [[e|x] w1]; simpl in *.
  - split; [exact Hfs|]. exists evs. split; assumption.
  - destruct (Hf x w1) as (Hfs' & evs' & Htr' & Hno').
    split; [congruence|]. exists (evs ++ evs'). split.
    + rewrite Htr', Htr, app_assoc. reflexivity.
    + intros path Hin. apply elem_of_app in Hin as [Hin|Hin];
        [exact (Hno path Hin) | exact (Hno' path Hin)].
Qed.

Lemma writes_nothing_emit (e : event) :
  (forall path, e <> EvWrite path) -> writes_nothing (emit e).
Proof.
  intros He w. split; [reflexivity|]. exists [e]. split; [reflexivity|].
  intros path Hin. apply list_elem_of_singleton in Hin. exact (He path (eq_sym Hin)).
Qed.

Lemma writes_nothing_step {A} (f : World -> (exn + A) * World) :
  (forall w, fs (f w).2 = fs w /\ trace (f w).2 = trace w) ->
  writes_nothing (f : M A).
Proof.
  intros H w. destruct (H w) as [Hfs Htr]. split; [exact Hfs|].
  exists []. rewrite app_nil_r. split; [exact Htr|].
  intros path Hin. apply elem_of_nil in Hin. exact Hin.
Qed.

Lemma writes_nothing_open (path : string) : writes_nothing (Sys.open_dataset path).
Proof.
  apply writes_nothing_bind; [apply writes_nothing_emit; discriminate|].
  intros _. apply writes_nothing_step. intros w.
  destruct (fs w !! path) as [[|sz [ds|]]|]; split; reflexivity.
Qed.

Lemma writes_nothing_close (path : string) : writes_nothing (Sys.close path).
Proof.
  apply writes_nothing_bind; [apply writes_nothing_emit; discriminate|].
  intros _. apply writes_nothing_step. intros w. split; reflexivity.
Qed.

Lemma writes_nothing_input : writes_nothing Sys.input.
Proof.
  apply writes_nothing_bind; [apply writes_nothing_emit; discriminate|].
  intros _. apply writes_nothing_step. intros w.
  destruct (stdin w); split; reflexivity.
Qed.

Lemma writes_nothing_check_memory_safety ds percentage :
  writes_nothing (Estimator.check_memory_safety ds percentage).
Proof.
  unfold Estimator.check_memory_safety, Estimator.estimate_memory_requirements.
  repeat first
    [ apply writes_nothing_input
    | apply writes_nothing_bind; [|intros ?]
    | apply writes_nothing_emit; discriminate
    | apply writes_nothing_lift
    | apply writes_nothing_ret
    | apply writes_nothing_step; intros ?; split; reflexivity
    | match goal with |- writes_nothing (if ?b then _ else _) => destruct b end ].
Qed.

(** With an invalid percentage the orchestrator never reaches the loop. *)
Lemma create_fragments_invalid_writes_nothing input_file output_prefix
    percentage add_sediment_vars p :
  Qle_bool percentage 0 || Qltb 100 percentage = true ->
  writes_nothing (Fragmenter.create_fragments input_file output_prefix
                    percentage add_sediment_vars p).
Proof.
  intros Hbad. unfold Fragmenter.create_fragments. rewrite Hbad.
  apply writes_nothing_bind; [apply writes_nothing_open|]. intros ds.
  apply writes_nothing_bind; [apply writes_nothing_lift|]. intros n_traj.
  apply writes_nothing_bind; [apply writes_nothing_lift|]. intros n_time.
  apply writes_nothing_bind; [apply writes_nothing_check_memory_safety|].
  intros [|]; simpl.
  - apply writes_nothing_raise.
  - apply writes_nothing_bind; [apply writes_nothing_close|].
    intros _. apply writes_nothing_ret.
Qed.

(** The memory check starts with the estimate and leaves the open handles
    alone. *)
Lemma check_memory_safety_world ds percentage w :
  open_handles (Estimator.check_memory_safety ds percentage w).2
  = open_handles w /\
  exists evs,
    trace (Estimator.check_memory_safety ds percentage w).2
    = trace w ++ EvMemoryEstimate :: evs.
Proof.
  unfold Estimator.check_memory_safety, Estimator.estimate_memory_requirements,
    Sys.input, Sys.virtual_memory_available, bind, lift, emit, ret.
  simpl.
  repeat match goal with
         | |- context [match ?x with _ => _ end] =>
             lazymatch x with
             | context [match _ with _ => _ end] => fail
             | _ => destruct x; simpl
             end
         end;
    (split; [reflexivity|]);
    first [ exists []; reflexivity
          | exists [EvInput]; rewrite <- app_assoc; reflexivity ].
Qed.

(** C4 (amended).  A percentage outside (0,100] is rejected, but only
    after the source has been opened and the memory check has run: no
    fragment file is ever written, and whenever the memory check lets the
    run continue [create_fragments] raises [ValueError], the open and the
    estimate having already happened. *)
Theorem C4_invalid_percentage_rejected_after_memory_check
    (input_file : string) (output_prefix : option string) (percentage : Q)
    (add_sediment_vars : bool) (p : Params) :
  (percentage <= 0 \/ 100 < percentage)%Q ->
  writes_nothing (Fragmenter.create_fragments input_file output_prefix
                    percentage add_sediment_vars p) /\
  forall (w w' : World) (size : Z) (ds : Dataset) (n_traj n_time : Z),
    fs w !! input_file = Some (File size (Some ds)) ->
    sizes ds !! "trajectory"%string = Some n_traj ->
    sizes ds !! "time"%string = Some n_time ->
    Estimator.check_memory_safety ds percentage
      (set_open_handles (input_file :: open_handles w)
                        (record_event (EvOpen input_file) w)) = (inr true, w') ->
    let r := Fragmenter.create_fragments input_file output_prefix percentage
               add_sediment_vars p w in
    r.1 = inl (ValueError "Percentage must be between 0 and 100") /\
    (exists evs,
       trace r.2 = trace w ++ EvOpen input_file :: EvMemoryEstimate :: evs).
Proof.
  intros Hbad.
  assert (Qle_bool percentage 0 || Qltb 100 percentage = true) as Hcond.
  { apply orb_true_iff. destruct Hbad as [H|H];
      [left; apply Qle_bool_iff, H | right; apply Qltb_true, H]. }
  split; [apply create_fragments_invalid_writes_nothing, Hcond|].
  intros w w' size ds n_traj n_time Hfs Ht Hm Hcheck r.
  assert (r = (inl (ValueError "Percentage must be between 0 and 100"), w'))
    as ->.
  { unfold r, Fragmenter.create_fragments.
    unfold bind at 1. rewrite (open_dataset_ok _ _ _ _ Hfs).
    unfold bind at 1, lift at 1, py_getitem at 1. rewrite Ht.
    unfold bind at 1, lift at 1, py_getitem at 1. rewrite Hm.
    unfold bind at 1. rewrite Hcheck. simpl negb. cbv iota.
    rewrite Hcond. reflexivity. }
  split; [reflexivity|]. cbn [snd].
  - destruct (check_memory_safety_world ds percentage
                (set_open_handles (input_file :: open_handles w)
                                  (record_event (EvOpen input_file) w)))
      as [_ [evs Htr]].
    rewrite Hcheck in Htr. simpl in Htr. exists evs.
    rewrite Htr, <- app_assoc. reflexivity.
Qed.

Lemma C4_invalid_percentage_rejected_after_memory_check_witness :
  writes_nothing (Fragmenter.create_fragments "mydata.nc" None 150 true
                    default_params) /\
  forall (w w' : World) (size : Z) (ds : Dataset) (n_traj n_time : Z),
    fs w !! "mydata.nc"%string = Some (File size (Some ds)) ->
    sizes ds !! "trajectory"%string = Some n_traj ->
    sizes ds !! "time"%string = Some n_time ->
    Estimator.check_memory_safety ds 150
      (set_open_handles ("mydata.nc"%string :: open_handles w)
                        (record_event (EvOpen "mydata.nc") w)) = (inr true, w') ->
    let r := Fragmenter.create_fragments "mydata.nc" None 150 true
               default_params w in
    r.1 = inl (ValueError "Percentage must be between 0 and 100") /\
    (exists evs,
       trace r.2 = trace w ++ EvOpen "mydata.nc" :: EvMemoryEstimate :: evs).
Proof.
  apply (C4_invalid_percentage_rejected_after_memory_check
           "mydata.nc" None 150 true default_params).
  right. reflexivity.
Defined.

(** C4 as stated fails on the sample source with 150 percent: the
    [ValueError] is raised, but the trace shows that the dataset had been
    opened and the memory estimate had run by then; and when the estimate
    is unsafe and the prompt is declined the run returns the empty list
    without raising at all. *)
Lemma C4_invalid_percentage_checked_after_open_and_estimate :
  let r := Fragmenter.create_fragments "mydata.nc" None 150 true
             default_params (Sample.world 1000000 []) in
  let r' := Fragmenter.create_fragments "mydata.nc" None 150 true
              default_params (Sample.world 900 ["n"%string]) in
  ~ (150 <= 100)%Q /\
  r.1 = inl (ValueError "Percentage must be between 0 and 100") /\
  trace r.2 = [EvOpen "mydata.nc"; EvMemoryEstimate] /\
  r'.1 = inr [].
Proof.
  split; [intros H; vm_compute in H; apply H; reflexivity|].
  vm_compute. repeat split; reflexivity.
Qed.

(** ** The diameter: millimetres in, metres stored *)

(** Every cell of a synthesized [particulate_diameter] holds the diameter
    of the parameter set handed to [add_missing_sediment_variables]. *)
Lemma synthesized_diameter_cells (ds : Dataset) (p : Params) (n_traj n_time : Z) :
  sizes ds !! "trajectory"%string = Some n_traj ->
  sizes ds !! "time"%string = Some n_time ->
  variables ds !! "particulate_diameter"%string = None ->
  exists ds1 added1 da,
    Synth.add_missing_sediment_variables ds p = inr (ds1, added1) /\
    variables ds1 !! "particulate_diameter"%string = Some da /\
    forall row, row ∈ da_values da ->
      forall c, c ∈ row -> c = CFloat (particle_diameter p).
Proof.
  intros Ht Hm Habs.
  destruct (synthesis_inserted ds p n_traj n_time "particulate_diameter"
              (Synth.diameter_array n_traj n_time p)
              [Lit "particulate_diameter ("; FmtQ "" (particle_diameter p);
               Lit " m)"] Ht Hm) as (ds1 & added1 & Hrun & Hvar).
  { unfold Synth.derived_variables. rewrite !elem_of_cons. tauto. }
  { exact Habs. }
  exists ds1, added1, (Synth.diameter_array n_traj n_time p).
  split; [exact Hrun|]. split; [exact Hvar|].
  intros row Hrow c Hc.
  destruct (np_full_shape n_traj n_time (CFloat (particle_diameter p)))
    as [_ Hrows].
  exact (proj2 (Hrows row Hrow) c Hc).
Qed.

(** The interactive prompt divides the diameter it reads by 1000. *)
Lemma ask_params_diameter (w w' : World) (p : Params)
    (class_line size_line diameter_line : string) (rest : list string) (mm : Q) :
  stdin w = class_line :: size_line :: diameter_line :: rest ->
  Str.strip diameter_line <> ""%string ->
  Str.to_float (Str.strip diameter_line) = inr mm ->
  Fragmenter.ask_params w = (inr p, w') ->
  particle_diameter p = (mm / 1000)%Q.
Proof.
  intros Hin Hne Hmm.
  unfold Fragmenter.ask_params, Fragmenter.float_or, Sys.input, bind, emit,
    lift, ret.
  simpl. rewrite Hin. simpl.
  apply String.eqb_neq in Hne. rewrite Hne, Hmm.
  destruct rest as [|density_line rest']; simpl; [discriminate|].
  destruct (String.eqb (Str.strip density_line) ""); simpl.
  - intros [= <- _]. reflexivity.
  - destruct (Str.to_float (Str.strip density_line)); simpl;
      [discriminate|]. intros [= <- _]. reflexivity.
Qed.

(** In interactive mode, a diameter of 5 (mm) reaches every cell of the
    first fragment as 0.005 (m). *)
Example interactive_run_stores_metres :
  let w := Sample.world 1000000
             ["40"; "y"; "1"; "3"; "5"; "900"; "oil_spill"; "y"]%string in
  let r := Fragmenter.main ["GeoViz_Compatibility_Tool.py"; "mydata.nc"]%string w in
  r.1 = inr tt /\
  exists sz d da,
    fs r.2 !! "oil_spill_fragment_001_of_003.nc"%string = Some (File sz (Some d)) /\
    variables d !! "particulate_diameter"%string = Some da /\
    da_values da = np_full 100 10 (CFloat (5 # 1000)).
Proof.
  split; [vm_compute; reflexivity|].
  eexists _, _, _. split; [vm_compute; reflexivity|].
  split; vm_compute; reflexivity.
Qed.

(** C6 (fails in command-line mode).  The invocation documented in the
    module docstring, [mydata.nc 5 oil_spill oil large 5.0 900], supplies
    a diameter of 5 mm; [main] reads only the percentage and the prefix,
    so every cell of the synthesized [particulate_diameter] holds the
    default 0.0001 m and not 0.005 m. *)
Theorem C6_command_line_ignores_supplied_diameter :
  let argv := ["GeoViz_Compatibility_Tool.py"; "mydata.nc"; "5"; "oil_spill";
               "oil"; "large"; "5.0"; "900"]%string in
  let r := Fragmenter.main argv (Sample.world 1000000 []) in
  r.1 = inr tt /\
  Str.to_float "5.0" = inr 5%Q /\
  exists sz d da,
    fs r.2 !! "oil_spill_fragment_001_of_020.nc"%string = Some (File sz (Some d)) /\
    variables d !! "particulate_diameter"%string = Some da /\
    da_values da = np_full 13 10 (CFloat (1 # 10000)) /\
    ~ (1 # 10000 == 5 / 1000)%Q.
Proof.
  split; [vm_compute; reflexivity|].
  split; [vm_compute; reflexivity|].
  eexists _, _, _. split; [vm_compute; reflexivity|].
  split; [vm_compute; reflexivity|].
  split; [vm_compute; reflexivity|].
  intros H. vm_compute in H. discriminate H.
Qed.

(** ** The validator *)

Section SedimentCheck.

Variable ds : Dataset.

Let absent (item : string * string) : bool :=
  negb (py_in item.1 (variables ds)).
Let present (item : string * string) : bool := py_in item.1 (variables ds).

(** The loop over [required_vars] appends one [missing] entry per absent
    name, one [passed] entry per present name, and nothing else. *)
Lemma fold_check_required (l : list (string * string))
    (r : Validator.ValidationResult) :
  fold_left (Validator.check_required ds) l r =
  Validator.mkResult
    (Validator.errors r) (Validator.warnings r)
    (Validator.missing r
     ++ map (fun item => [Lit "⚠️  MISSING: "; Lit item.1; Lit " (";
                          Lit item.2; Lit ")"])
            (List.filter absent l))
    (Validator.info r)
    (Validator.passed r
     ++ map (fun item => [Lit "✓ "; Lit "Required variable '"; Lit item.1;
                          Lit "' present"])
            (List.filter present l)).
Proof.
  revert r. induction l as [|[name desc] l IH]; intros r.
  - simpl. rewrite !app_nil_r. destruct r; reflexivity.
  - cbn [fold_left List.filter]. rewrite IH.
    unfold Validator.check_required, absent, present. cbn [fst snd].
    destruct (py_in name (variables ds)); simpl;
      rewrite <- ?app_assoc; reflexivity.
Qed.

(** The loop over [optional_vars] appends one [info] entry per absent
    name, one [passed] entry per present name, and nothing else. *)
Lemma fold_check_optional (l : list (string * string))
    (r : Validator.ValidationResult) :
  fold_left (Validator.check_optional ds) l r =
  Validator.mkResult
    (Validator.errors r) (Validator.warnings r) (Validator.missing r)
    (Validator.info r
     ++ map (fun item => [Lit "ℹ️  INFO: "; Lit "Optional variable '";
                          Lit item.1; Lit "' not present ("; Lit item.2;
                          Lit ")"])
            (List.filter absent l))
    (Validator.passed r
     ++ map (fun item => [Lit "✓ "; Lit "Optional variable '"; Lit item.1;
                          Lit "' present"])
            (List.filter present l)).
Proof.
  revert r. induction l as [|[name desc] l IH]; intros r.
  - simpl. rewrite !app_nil_r. destruct r; reflexivity.
  - cbn [fold_left List.filter]. rewrite IH.
    unfold Validator.check_optional, absent, present. cbn [fst snd].
    destruct (py_in name (variables ds)); simpl;
      rewrite <- ?app_assoc; reflexivity.
Qed.

Lemma absent_entry (f : string * string -> fstr) (l : list (string * string))
    (name desc : string) :
  (forall a b, f a = f b -> a = b) ->
  (name, desc) ∈ l ->
  (variables ds !! name = None
   <-> f (name, desc) ∈ map f (List.filter absent l)).
Proof.
  intros Hinj Hin. split.
  - intros Habs. apply list_elem_of_fmap_2, list_elem_of_In, filter_In.
    split; [apply list_elem_of_In, Hin|].
    unfold absent. simpl. apply negb_true_iff, py_in_false, Habs.
  - intros H. apply list_elem_of_fmap in H as (item & Heq & Hitem).
    apply Hinj in Heq as <-.
    apply list_elem_of_In, filter_In in Hitem as [_ Habs].
    unfold absent in Habs. simpl in Habs.
    apply negb_true_iff, py_in_false in Habs. exact Habs.
Qed.

End SedimentCheck.

(** C8 (amended).  The validator looks for all seven derived variables
    and never reports their absence as an error or a warning: the absence
    of each of the five required ones is recorded under "missing", the
    absence of each of the two optional ones ([ocean_vertical_diffusivity],
    [ocean_mixed_layer_thickness]) under "info", and "missing" holds
    nothing but entries for absent required variables. *)
Theorem C8_required_absent_missing_optional_absent_info (ds : Dataset) :
  let r := Validator.validate_sediment_variables ds in
  Validator.errors r = [] /\
  Validator.warnings r = [] /\
  map fst Validator.required_vars ++ map fst Validator.optional_vars
  = Synth.derived_names /\
  (forall name desc, (name, desc) ∈ Validator.required_vars ->
     (variables ds !! name = None
      <-> [Lit "⚠️  MISSING: "; Lit name; Lit " ("; Lit desc; Lit ")"]
          ∈ Validator.missing r)) /\
  (forall name desc, (name, desc) ∈ Validator.optional_vars ->
     (variables ds !! name = None
      <-> [Lit "ℹ️  INFO: "; Lit "Optional variable '"; Lit name;
           Lit "' not present ("; Lit desc; Lit ")"] ∈ Validator.info r)) /\
  (forall m, m ∈ Validator.missing r ->
     exists name desc,
       (name, desc) ∈ Validator.required_vars /\
       variables ds !! name = None /\
       m = [Lit "⚠️  MISSING: "; Lit name; Lit " ("; Lit desc; Lit ")"]).
Proof.
  intros r. subst r. unfold Validator.validate_sediment_variables.
  rewrite fold_check_optional, fold_check_required.
  unfold Validator.empty_result.
  cbn [Validator.errors Validator.warnings Validator.missing Validator.info
       Validator.passed app].
  split; [reflexivity|]. split; [reflexivity|]. split; [reflexivity|].
  split; [|split].
  - intros name desc Hin.
    apply (absent_entry ds
             (fun item => [Lit "⚠️  MISSING: "; Lit item.1; Lit " (";
                           Lit item.2; Lit ")"]) _ name desc); [|exact Hin].
    intros [a1 a2] [b1 b2] [= -> ->]. reflexivity.
  - intros name desc Hin.
    apply (absent_entry ds
             (fun item => [Lit "ℹ️  INFO: "; Lit "Optional variable '";
                           Lit item.1; Lit "' not present ("; Lit item.2;
                           Lit ")"]) _ name desc); [|exact Hin].
    intros [a1 a2] [b1 b2] [= -> ->]. reflexivity.
  - intros m Hm. apply list_elem_of_fmap in Hm as ([name desc] & -> & Hitem).
    apply list_elem_of_In, filter_In in Hitem as [Hin Habs].
    exists name, desc. split; [apply list_elem_of_In, Hin|].
    split; [|reflexivity].
    simpl in Habs. apply negb_true_iff, py_in_false in Habs. exact Habs.
Qed.

(** C8 as stated fails on the sample source, which has none of the seven
    derived variables: "missing" lists the five required ones only, and
    the absence of the two optional ones is recorded under "info". *)
Lemma C8_optional_absence_is_info_not_missing :
  let r := Validator.validate_sediment_variables Sample.source in
  variables Sample.source !! "ocean_vertical_diffusivity"%string = None /\
  variables Sample.source !! "ocean_mixed_layer_thickness"%string = None /\
  Validator.missing r =
    [[Lit "⚠️  MISSING: "; Lit "particulate_diameter"; Lit " (";
      Lit "Particle diameter"; Lit ")"];
     [Lit "⚠️  MISSING: "; Lit "particulate_density"; Lit " (";
      Lit "Particle density"; Lit ")"];
     [Lit "⚠️  MISSING: "; Lit "particulate_class"; Lit " (";
      Lit "Particle classification"; Lit ")"];
     [Lit "⚠️  MISSING: "; Lit "particulate_size_class"; Lit " (";
      Lit "Particle size classification"; Lit ")"];
     [Lit "⚠️  MISSING: "; Lit "settled"; Lit " (";
      Lit "Settlement status"; Lit ")"]]%string /\
  Validator.info r =
    [[Lit "ℹ️  INFO: "; Lit "Optional variable '";
      Lit "ocean_vertical_diffusivity"; Lit "' not present (";
      Lit "Ocean vertical mixing coefficient"; Lit ")"];
     [Lit "ℹ️  INFO: "; Lit "Optional variable '";
      Lit "ocean_mixed_layer_thickness"; Lit "' not present (";
      Lit "Mixed layer depth"; Lit ")"]]%string.
Proof. vm_compute. repeat split; reflexivity. Qed.

Lemma C8_required_absent_missing_optional_absent_info_witness :
  let r := Validator.validate_sediment_variables Sample.source in
  Validator.errors r = [] /\
  Validator.warnings r = [] /\
  map fst Validator.required_vars ++ map fst Validator.optional_vars
  = Synth.derived_names /\
  (forall name desc, (name, desc) ∈ Validator.required_vars ->
     (variables Sample.source !! name = None
      <-> [Lit "⚠️  MISSING: "; Lit name; Lit " ("; Lit desc; Lit ")"]
          ∈ Validator.missing r)) /\
  (forall name desc, (name, desc) ∈ Validator.optional_vars ->
     (variables Sample.source !! name = None
      <-> [Lit "ℹ️  INFO: "; Lit "Optional variable '"; Lit name;
           Lit "' not present ("; Lit desc; Lit ")"] ∈ Validator.info r)) /\
  (forall m, m ∈ Validator.missing r ->
     exists name desc,
       (name, desc) ∈ Validator.required_vars /\
       variables Sample.source !! name = None /\
       m = [Lit "⚠️  MISSING: "; Lit name; Lit " ("; Lit desc; Lit ")"]).
Proof.
  apply (C8_required_absent_missing_optional_absent_info Sample.source).
Defined.

(** *** The validation run always completes *)

Lemma validate_file_access_total (filepath : string) (w : World) :
  exists r, Validator.validate_file_access filepath w = (inr r, w).
Proof.
  unfold Validator.validate_file_access, Sys.exists_, Sys.isfile, Sys.getsize,
    bind, ret.
  cbv beta.
  destruct (fs w !! filepath) as [[|sz content]|] eqn:E;
    cbn -[Str.endswith]; rewrite ?E; cbn -[Str.endswith]; rewrite ?E;
    eexists; reflexivity.
Qed.

Lemma run_check_total ds check r w :
  exists r' w', Validator.run_check ds check r w = (inr r', w').
Proof.
  unfold Validator.run_check, Validator.try_catch, bind, ret.
  destruct (check.2 ds w) as [[e|x] w1]; eauto.
Qed.

Lemma for_each_total {A S} (l : list A) (body : A -> S -> M S) :
  (forall x st w, exists st' w', body x st w = (inr st', w')) ->
  forall st w, exists st' w', for_each l body st w = (inr st', w').
Proof.
  intros Hbody. induction l as [|x l IH]; intros st w; simpl.
  - unfold ret. eauto.
  - unfold bind. destruct (Hbody x st w) as (st1 & w1 & ->). apply IH.
Qed.

Lemma validate_dataset_total (filepath : string) (verbose quick : bool)
    (w : World) :
  exists result w',
    Validator.validate_dataset filepath verbose quick w = (inr result, w').
Proof.
  unfold Validator.validate_dataset. unfold bind at 1.
  destruct (validate_file_access_total filepath w) as [r ->].
  destruct (negb (Validator.is_valid r)); [unfold ret; eauto|].
  unfold bind at 1, Validator.try_catch at 1, bind at 1.
  destruct (Sys.open_dataset filepath w) as [[e|ds] w1]; unfold ret at 1.
  - unfold ret. eauto.
  - unfold ret at 1. unfold bind at 1.
    destruct (for_each_total (Validator.checks quick) (Validator.run_check ds)
                (run_check_total ds) Validator.empty_result w1)
      as (r' & w2 & ->).
    unfold Sys.close, bind, emit, ret. eauto.
Qed.

(** C9.  A validation run always completes with a result, and the exit
    status computed from it is 0 exactly when the result has no error and
    no missing required variable, and 1 otherwise; the other categories
    do not enter. *)
Theorem C9_exit_status_zero_iff_no_error_and_none_missing
    (argv : list string) (w : World) (prog input_file : string)
    (rest : list string) :
  argv = prog :: input_file :: rest ->
  exists result w' code,
    Validator.validate_dataset input_file
      (Validator.mem "--verbose" argv || Validator.mem "-v" argv)
      (Validator.mem "--quick" argv || Validator.mem "-q" argv) w
    = (inr result, w') /\
    Validator.main argv w = (inr code, w') /\
    (code = 0 <-> Validator.errors result = [] /\ Validator.missing result = []) /\
    (code = 0 \/ code = 1).
Proof.
  intros ->.
  destruct (validate_dataset_total input_file
              (Validator.mem "--verbose" (prog :: input_file :: rest)
               || Validator.mem "-v" (prog :: input_file :: rest))
              (Validator.mem "--quick" (prog :: input_file :: rest)
               || Validator.mem "-q" (prog :: input_file :: rest)) w)
    as (result & w' & Hrun).
  exists result, w'.
  exists (if Validator.is_valid result && Validator.has_all_required result
          then 0 else 1).
  split; [exact Hrun|]. split.
  - unfold Validator.main, bind. rewrite Hrun. reflexivity.
  - unfold Validator.is_valid, Validator.has_all_required.
    destruct (Validator.errors result), (Validator.missing result); simpl;
      (split; [split; [intros H; try discriminate; auto
                      | intros [H1 H2]; try discriminate; auto]
              | auto]).
Qed.

Lemma C9_exit_status_zero_iff_no_error_and_none_missing_witness :
  let argv := ["GeoViz_Validator.py"; "mydata.nc"]%string in
  exists result w' code,
    Validator.validate_dataset "mydata.nc"
      (Validator.mem "--verbose" argv || Validator.mem "-v" argv)
      (Validator.mem "--quick" argv || Validator.mem "-q" argv)
      (Sample.world 1000000 [])
    = (inr result, w') /\
    Validator.main argv (Sample.world 1000000 []) = (inr code, w') /\
    (code = 0 <-> Validator.errors result = [] /\ Validator.missing result = []) /\
    (code = 0 \/ code = 1).
Proof.
  apply (C9_exit_status_zero_iff_no_error_and_none_missing
           ["GeoViz_Validator.py"; "mydata.nc"]%string
           (Sample.world 1000000 []) "GeoViz_Validator.py" "mydata.nc" []).
  reflexivity.
Defined.

(** ** Scenarios *)

(** At 100 percent the plan is the single range [[0, n_traj)]. *)
Lemma plan_whole_file (n_traj : Z) :
  1 <= n_traj < 2 ^ 51 -> Planner.plan n_traj 100 = inr [(0, n_traj)].
Proof.
  intros Hn.
  assert (Hlo : (2 ^ (-1000) <= 100)%Q)
    by (apply Qle_bool_imp_le; vm_compute; reflexivity).
  destruct (ceil_share_ok n_traj 100 Hn Hlo (Qle_refl 100))
    as (tpf & Et & Es & Hb & _).
  destruct (share_bounds n_traj 100 ltac:(lia) Hlo (Qle_refl 100))
    as (_ & L & _).
  cbv zeta in L.
  assert (inject_Z n_traj * 100 / 100 == inject_Z n_traj)%Q as X
    by (field; discriminate).
  rewrite X in L.
  assert (n_traj <= tpf) as Hge.
  { assert (inject_Z n_traj < 2251799813685248)%Q as B
      by (change 2251799813685248%Q with (inject_Z (2 ^ 51));
          rewrite <- Zlt_Qlt; lia).
    assert (1 <= inject_Z n_traj)%Q as B1
      by (change 1%Q with (inject_Z 1); rewrite <- Zle_Qle; lia).
    destruct (np_ceil_bounds (share n_traj 100)) as [_ U]. rewrite <- Es in U.
    assert (inject_Z (n_traj - 1) < inject_Z tpf)%Q as H.
    { unfold Z.sub. rewrite inject_Z_plus, inject_Z_opp.
      change (inject_Z 1) with 1%Q.
      assert (inject_Z n_traj * (1 - F64.eps) * (1 - F64.eps)
              == inject_Z n_traj - 2 * F64.eps * inject_Z n_traj
                 + F64.eps * F64.eps * inject_Z n_traj)%Q as E by ring.
      rewrite E in L.
      assert (0 <= F64.eps * F64.eps * inject_Z n_traj)%Q as P.
      { apply Qmult_le_0_compat; [discriminate | lra]. }
      unfold F64.eps in *. lra. }
    rewrite <- Zlt_Qlt in H. lia. }
  unfold Planner.plan, Planner.trajectories_per_fragment. rewrite Et.
  rewrite num_fragments_ok by lia.
  assert (np_ceil (inject_Z n_traj / inject_Z tpf) = 1) as ->.
  { pose proof (np_ceil_quot n_traj tpf ltac:(lia)) as H. simpl in H. nia. }
  unfold Planner.fragment_ranges, Planner.fragment_range. simpl.
  f_equal. f_equal. f_equal; lia.
Qed.

(** 250 trajectories at 40 percent: three fragments of 100, 100 and 50
    trajectories, each gaining all seven derived variables. *)
Example end_to_end_250_at_40 :
  let r := Fragmenter.create_fragments "mydata.nc" None 40 true default_params
             (Sample.world 1000000 []) in
  Planner.plan 250 40 = inr [(0, 100); (100, 200); (200, 250)] /\
  r.1 = inr ["mydata_fragment_001_of_003.nc"; "mydata_fragment_002_of_003.nc";
             "mydata_fragment_003_of_003.nc"]%string /\
  open_handles r.2 = [] /\
  exists sz d,
    fs r.2 !! "mydata_fragment_003_of_003.nc"%string = Some (File sz (Some d)) /\
    sizes d !! "trajectory"%string = Some 50 /\
    attrs d !! "fragment_trajectory_start"%string = Some (AInt 200) /\
    attrs d !! "fragment_trajectory_end"%string = Some (AInt 250) /\
    forallb (fun name => py_in name (variables d)) Synth.derived_names = true.
Proof.
  split; [vm_compute; reflexivity|].
  split; [vm_compute; reflexivity|].
  split; [vm_compute; reflexivity|].
  eexists _, _. split; [vm_compute; reflexivity|].
  repeat split; vm_compute; reflexivity.
Qed.

(** A size class longer than six characters is cut, not rejected. *)
Example size_class_cut :
  cast (Unicode 6) (CStr "extra_large") = CStr "extra_".
Proof. reflexivity. Qed.

(** * Further properties of the fragmenter *)

(** ** The plan as a decomposition of the trajectory axis *)

Lemma contiguous_le (a b : Z) (rs : list (Z * Z)) :
  Planner.contiguous a rs b -> a <= b.
Proof.
  revert a. induction rs as [|r rs IH]; intros a; simpl.
  - lia.
  - intros (<- & Hlt & Hrest). apply IH in Hrest. lia.
Qed.

(** The plan of a valid percentage, with the facts the later proofs need. *)
Lemma plan_valid (n_traj : Z) (percentage : Q) :
  1 <= n_traj < 2 ^ 53 ->
  (2 ^ (-1000) <= percentage)%Q -> (percentage <= 100)%Q ->
  exists tpf num,
    Planner.trajectories_per_fragment n_traj percentage = inr tpf /\
    1 <= tpf /\
    Planner.num_fragments n_traj tpf = inr num /\
    num = np_ceil (inject_Z n_traj / inject_Z tpf)%Q /\
    1 <= num /\
    Planner.plan n_traj percentage
    = inr (Planner.fragment_ranges n_traj tpf num) /\
    Planner.contiguous 0 (Planner.fragment_ranges n_traj tpf num) n_traj.
Proof.
  intros Hn Hlo Hhi.
  destruct (ceil_share_width n_traj percentage Hn Hlo Hhi)
    as (tpf & Et & _ & Ht).
  exists tpf, (np_ceil (inject_Z n_traj / inject_Z tpf)%Q).
  destruct (np_ceil_quot n_traj tpf ltac:(lia)) as [Hl Hh].
  assert (Planner.num_fragments n_traj tpf
          = inr (np_ceil (inject_Z n_traj / inject_Z tpf)%Q)) as Hnum
    by (apply num_fragments_ok; lia).
  split; [exact Et|]. split; [lia|]. split; [exact Hnum|].
  split; [reflexivity|]. split; [nia|]. split.
  - unfold Planner.plan. unfold Planner.trajectories_per_fragment in Et.
    unfold Planner.trajectories_per_fragment. rewrite Et, Hnum. reflexivity.
  - apply ranges_contiguous; lia.
Qed.

(** The bounds are needed.  The share of one trajectory at the smallest
    positive float rounds to zero, and the number of fragments is then a
    division by zero; and a count of [2^53 + 1] is rounded to [2^53] when
    it is made a float, so that the last trajectory is in no range. *)
Example plan_outside_the_bounds :
  Planner.plan 1 (2 ^ (-1074))%Q = inl ZeroDivisionError /\
  Planner.plan (2 ^ 53 + 1) 100 = inr [(0, 2 ^ 53)].
Proof. split; vm_compute; reflexivity. Qed.

Lemma contiguous_sizes_sum (a b : Z) (rs : list (Z * Z)) :
  Planner.contiguous a rs b ->
  fold_right Z.add 0 (map (fun r => r.2 - r.1) rs) = b - a.
Proof.
  revert a. induction rs as [|r rs IH]; intros a; simpl.
  - lia.
  - intros (<- & _ & Hrest). rewrite (IH _ Hrest). lia.
Qed.

Lemma contiguous_slices {A} (l : list A) (a b : Z) (rs : list (Z * Z)) :
  0 <= a -> Planner.contiguous a rs b ->
  concat (map (fun r => py_slice r.1 r.2 l) rs) = py_slice a b l.
Proof.
  revert a. induction rs as [|r rs IH]; intros a Ha; simpl.
  - intros <-. unfold py_slice. rewrite Nat.sub_diag. reflexivity.
  - intros (<- & Hlt & Hrest).
    pose proof (contiguous_le _ _ _ Hrest) as Hle.
    rewrite (IH r.2) by (assumption || lia).
    unfold py_slice.
    replace (drop (Z.to_nat r.2) l)
      with (drop (Z.to_nat r.2 - Z.to_nat r.1) (drop (Z.to_nat r.1) l))
      by (rewrite drop_drop; f_equal; lia).
    rewrite take_take_drop. f_equal. lia.
Qed.

(** The trajectory counts of the planned fragments add up to the trajectory
    count of the source, for every source of 1 to [2^53 - 1] trajectories
    and every percentage from [2^-1000] to 100. *)
Theorem fragment_sizes_sum_to_source (n_traj : Z) (percentage : Q) :
  1 <= n_traj < 2 ^ 53 ->
  (2 ^ (-1000) <= percentage)%Q -> (percentage <= 100)%Q ->
  exists ranges,
    Planner.plan n_traj percentage = inr ranges /\
    fold_right Z.add 0 (map (fun r => r.2 - r.1) ranges) = n_traj.
Proof.
  intros Hn Hp0 Hp100.
  destruct (plan_valid n_traj percentage Hn Hp0 Hp100)
    as (tpf & num & _ & _ & _ & _ & _ & Hplan & Hcont).
  eexists. split; [exact Hplan|].
  rewrite (contiguous_sizes_sum _ _ _ Hcont). lia.
Qed.

Lemma fragment_sizes_sum_to_source_witness :
  exists ranges,
    Planner.plan 250 40 = inr ranges /\
    fold_right Z.add 0 (map (fun r => r.2 - r.1) ranges) = 250.
Proof.
  apply (fragment_sizes_sum_to_source 250 40).
  - split; [lia | reflexivity].
  - apply Qle_bool_imp_le. vm_compute. reflexivity.
  - apply Qle_bool_imp_le. vm_compute. reflexivity.
Defined.

(** Slicing a per-trajectory variable along the planned ranges and putting
    the slices back together, in order, gives the rows of the source
    variable: no row is lost, duplicated or reordered (for 1 to [2^53 - 1]
    trajectories and a percentage from [2^-1000] to 100). *)
Theorem fragments_reassemble_variable (n_traj : Z) (percentage : Q)
    (da : DataArray) (dims : list string) :
  1 <= n_traj < 2 ^ 53 ->
  (2 ^ (-1000) <= percentage)%Q -> (percentage <= 100)%Q ->
  da_dims da = "trajectory"%string :: dims ->
  Z.of_nat (length (da_values da)) = n_traj ->
  exists ranges,
    Planner.plan n_traj percentage = inr ranges /\
    concat (map (fun r => da_values (isel_array r.1 r.2 da)) ranges)
    = da_values da.
Proof.
  intros Hn Hp0 Hp100 Hdims Hlen.
  destruct (plan_valid n_traj percentage Hn Hp0 Hp100)
    as (tpf & num & _ & _ & _ & _ & _ & Hplan & Hcont).
  eexists. split; [exact Hplan|].
  rewrite (map_ext (fun r => da_values (isel_array r.1 r.2 da))
                   (fun r => py_slice r.1 r.2 (da_values da))).
  - rewrite (contiguous_slices _ 0 n_traj) by (lia || exact Hcont).
    unfold py_slice. simpl. rewrite drop_0. apply firstn_all2. lia.
  - intros r. unfold isel_array. rewrite Hdims. simpl. reflexivity.
Qed.

Lemma fragments_reassemble_variable_witness :
  exists ranges,
    Planner.plan 250 40 = inr ranges /\
    concat (map (fun r => da_values (isel_array r.1 r.2 (Sample.track 4)))
                ranges)
    = da_values (Sample.track 4).
Proof.
  apply (fragments_reassemble_variable 250 40 (Sample.track 4) ["time"%string]).
  - split; [lia | reflexivity].
  - apply Qle_bool_imp_le. vm_compute. reflexivity.
  - apply Qle_bool_imp_le. vm_compute. reflexivity.
  - reflexivity.
  - reflexivity.
Defined.

(** ** The estimator's recommendation and its failure modes *)

Lemma py_min_le_100 (x : Q) : (py_min 100 x <= 100)%Q.
Proof.
  unfold py_min. destruct (Qltb x 100) eqn:E; [|lra].
  apply Qltb_true in E. lra.
Qed.

(** Whenever the estimator returns, the recommendation is the input
    percentage for a safe plan and lies in [1, 100] for an unsafe one. *)
Theorem recommendation_is_input_or_clamped (ds : Dataset) (percentage : Q)
    (w : World) e :
  (Estimator.estimate_memory_requirements ds percentage w).1 = inr e ->
  (Estimator.is_safe e = true ->
     Estimator.recommended_percentage e = percentage) /\
  (Estimator.is_safe e = false ->
     (1 <= Estimator.recommended_percentage e)%Q /\
     (Estimator.recommended_percentage e <= 100)%Q).
Proof.
  unfold Estimator.estimate_memory_requirements, bind, emit, lift,
    Sys.virtual_memory_available, py_getitem.
  simpl.
  destruct (sizes ds !! "trajectory"%string) as [n_traj|]; [|discriminate].
  destruct (sizes ds !! "time"%string) as [n_time|]; [|discriminate].
  intros He.
  apply estimate_of_inv in He as (frag & _ & _ & _ & _ & Hsafe & Hunsafe).
  split; [exact Hsafe|]. intros Hs. destruct (Hunsafe Hs) as [_ ->].
  split; [apply py_max_ge_1|].
  unfold py_max. destruct (Qltb 1 _); [apply py_min_le_100 | lra].
Qed.

Lemma recommendation_is_input_or_clamped_witness :
  exists e,
    (Estimator.estimate_memory_requirements Sample.source 40
       (Sample.world 900 [])).1 = inr e /\
    (Estimator.is_safe e = true ->
       Estimator.recommended_percentage e = 40%Q) /\
    (Estimator.is_safe e = false ->
       (1 <= Estimator.recommended_percentage e)%Q /\
       (Estimator.recommended_percentage e <= 100)%Q).
Proof.
  eexists. split; [vm_compute; reflexivity|].
  apply (recommendation_is_input_or_clamped Sample.source 40
           (Sample.world 900 [])).
  vm_compute. reflexivity.
Defined.

(** With no memory reported available the memory check always divides by
    zero once the fragment size of line 114 has been computed, whatever the
    dataset and the percentage, and never prompts. *)
Lemma check_memory_safety_no_memory (ds : Dataset) (percentage : Q) (w : World)
    (n_traj n_time frag_traj : Z) :
  sizes ds !! "trajectory"%string = Some n_traj ->
  sizes ds !! "time"%string = Some n_time ->
  ceil_share n_traj percentage = inr frag_traj ->
  available_memory w = 0 ->
  Estimator.check_memory_safety ds percentage w
  = (inl ZeroDivisionError, record_event EvMemoryEstimate w).
Proof.
  intros Ht Hm Hfrag Hav.
  unfold Estimator.check_memory_safety, bind at 1.
  rewrite (estimate_memory_requirements_run ds percentage w n_traj n_time Ht Hm).
  rewrite Hav.
  destruct (Estimator.estimate_of 0 n_traj n_time
              (Z.of_nat (size (data_vars ds))) percentage) as [e|e] eqn:He.
  - revert He. unfold Estimator.estimate_of. rewrite Hfrag.
    destruct (negb _); [|discriminate].
    unfold py_div. destruct (Qeq_bool _ 0); [|discriminate].
    intros [= <-]. reflexivity.
  - apply (estimate_of_inr _ _ _ _ _ _ Hfrag) in He as (_ & Ham & _).
    unfold bind, lift. rewrite Ham. reflexivity.
Qed.

(** A run on a machine that reports no available memory fails with
    [ZeroDivisionError] right after the estimate: nothing is asked,
    nothing is written, and the source handle stays open.  This holds for
    every dataset and every percentage for which the fragment size of
    line 114 is computed, which comes first (a product beyond the
    binary64 range raises [OverflowError] there). *)
Theorem no_available_memory_is_a_division_by_zero (input_file : string)
    (output_prefix : option string) (percentage : Q) (add_sediment_vars : bool)
    (p : Params) (w : World) (size : Z) (ds : Dataset)
    (n_traj n_time frag_traj : Z) :
  fs w !! input_file = Some (File size (Some ds)) ->
  sizes ds !! "trajectory"%string = Some n_traj ->
  sizes ds !! "time"%string = Some n_time ->
  ceil_share n_traj percentage = inr frag_traj ->
  available_memory w = 0 ->
  Fragmenter.create_fragments input_file output_prefix percentage
    add_sediment_vars p w
  = (inl ZeroDivisionError,
     record_event EvMemoryEstimate
       (set_open_handles (input_file :: open_handles w)
                         (record_event (EvOpen input_file) w))).
Proof.
  intros Hfs Ht Hm Hfrag Hav.
  unfold Fragmenter.create_fragments.
  unfold bind at 1. rewrite (open_dataset_ok _ _ _ _ Hfs).
  unfold bind at 1, lift at 1, py_getitem at 1. rewrite Ht.
  unfold bind at 1, lift at 1, py_getitem at 1. rewrite Hm.
  unfold bind at 1.
  rewrite (check_memory_safety_no_memory ds percentage
             (set_open_handles (input_file :: open_handles w)
                               (record_event (EvOpen input_file) w))
             n_traj n_time frag_traj Ht Hm Hfrag Hav).
  reflexivity.
Qed.

Lemma no_available_memory_is_a_division_by_zero_witness :
  Fragmenter.create_fragments "mydata.nc" None 40 true default_params
    (Sample.world 0 [])
  = (inl ZeroDivisionError,
     record_event EvMemoryEstimate
       (set_open_handles ("mydata.nc"%string :: open_handles (Sample.world 0 []))
                         (record_event (EvOpen "mydata.nc") (Sample.world 0 [])))).
Proof.
  apply (no_available_memory_is_a_division_by_zero "mydata.nc" None 40 true
           default_params (Sample.world 0 []) 20000 Sample.source 250 10 100).
  - reflexivity.
  - reflexivity.
  - reflexivity.
  - vm_compute. reflexivity.
  - reflexivity.
Defined.

(** When the estimate is unsafe and standard input is exhausted, the
    prompt raises [EOFError]: the run stops with the source handle still
    open and nothing written. *)
Theorem prompt_at_end_of_input_raises (input_file : string)
    (output_prefix : option string) (percentage : Q) (add_sediment_vars : bool)
    (p : Params) (w : World) (size : Z) (ds : Dataset) (n_traj n_time : Z) e :
  fs w !! input_file = Some (File size (Some ds)) ->
  sizes ds !! "trajectory"%string = Some n_traj ->
  sizes ds !! "time"%string = Some n_time ->
  0 < available_memory w ->
  Estimator.estimate_of (available_memory w) n_traj n_time
    (Z.of_nat (base.size (data_vars ds))) percentage = inr e ->
  Estimator.is_safe e = false ->
  stdin w = [] ->
  Fragmenter.create_fragments input_file output_prefix percentage
    add_sediment_vars p w
  = (inl EOFError,
     record_event EvInput
       (record_event EvMemoryEstimate
          (set_open_handles (input_file :: open_handles w)
                            (record_event (EvOpen input_file) w)))).
Proof.
  intros Hfs Ht Hm Hav He Hs Hin.
  unfold Fragmenter.create_fragments.
  unfold bind at 1. rewrite (open_dataset_ok _ _ _ _ Hfs).
  unfold bind at 1, lift at 1, py_getitem at 1. rewrite Ht.
  unfold bind at 1, lift at 1, py_getitem at 1. rewrite Hm.
  unfold bind at 1.
  rewrite (check_memory_safety_run ds percentage
             (set_open_handles (input_file :: open_handles w)
                               (record_event (EvOpen input_file) w))
             n_traj n_time e Ht Hm Hav He).
  rewrite Hs. simpl stdin. rewrite Hin. reflexivity.
Qed.

Lemma prompt_at_end_of_input_raises_witness :
  Fragmenter.create_fragments "mydata.nc" None 40 true default_params
    (Sample.world 900 [])
  = (inl EOFError,
     record_event EvInput
       (record_event EvMemoryEstimate
          (set_open_handles
             ("mydata.nc"%string :: open_handles (Sample.world 900 []))
             (record_event (EvOpen "mydata.nc") (Sample.world 900 []))))).
Proof.
  eapply (prompt_at_end_of_input_raises "mydata.nc" None 40 true
            default_params (Sample.world 900 []) 20000 Sample.source 250 10).
  - reflexivity.
  - reflexivity.
  - reflexivity.
  - simpl. lia.
  - vm_compute. reflexivity.
  - reflexivity.
  - reflexivity.
Defined.

(** ** A run that gets past the memory check *)

Lemma add_missing_total (ds : Dataset) (p : Params) (n_traj n_time : Z) :
  sizes ds !! "trajectory"%string = Some n_traj ->
  sizes ds !! "time"%string = Some n_time ->
  exists res, Synth.add_missing_sediment_variables ds p = inr res.
Proof.
  intros Ht Hm. unfold Synth.add_missing_sediment_variables, py_getitem.
  rewrite Ht, Hm. destruct (fold_left _ _ _). eauto.
Qed.

Lemma isel_trajectory_sizes (start stop : Z) (ds : Dataset) (n_traj n_time : Z) :
  sizes ds !! "trajectory"%string = Some n_traj ->
  sizes ds !! "time"%string = Some n_time ->
  sizes (isel_trajectory start stop ds) !! "trajectory"%string
  = Some (slice_len start stop n_traj) /\
  sizes (isel_trajectory start stop ds) !! "time"%string = Some n_time.
Proof.
  intros Ht Hm. unfold isel_trajectory. simpl. split.
  - rewrite lookup_alter_eq, Ht. reflexivity.
  - rewrite lookup_alter_ne by discriminate. exact Hm.
Qed.

Section Loop.

Variables (ds : Dataset) (input_file output_prefix : string).
Variables (n_traj n_time tpf num : Z) (add_sediment_vars : bool) (p : Params).
Hypothesis has_trajectory : sizes ds !! "trajectory"%string = Some n_traj.
Hypothesis has_time : sizes ds !! "time"%string = Some n_time.

Let name (i : Z) : string :=
  Fragmenter.fragment_file_name output_prefix (i + 1) num.
Let frag (i : Z) : Dataset :=
  Run.fragment_dataset ds input_file n_traj tpf num add_sediment_vars p i.
Let body := Fragmenter.write_fragment ds input_file output_prefix n_traj tpf
              num add_sediment_vars p.

(** Slicing and filling never fail on a dataset with both dimensions. *)
Lemma fill_ok (i : Z) (w : World) :
  let r := Planner.fragment_range n_traj tpf i in
  exists filled,
    (if add_sediment_vars
     then let* res := lift (Synth.add_missing_sediment_variables
                              (isel_trajectory r.1 r.2 ds) p)
          in ret res.1
     else ret (isel_trajectory r.1 r.2 ds)) w = (inr filled, w) /\
    frag i = Fragmenter.annotate (i + 1) num r.1 r.2 input_file filled.
Proof.
  intros r.
  destruct (isel_trajectory_sizes r.1 r.2 ds n_traj n_time
              has_trajectory has_time) as [Hst Hsm].
  unfold frag, Run.fragment_dataset. fold r.
  destruct add_sediment_vars.
  - destruct (add_missing_total _ p _ _ Hst Hsm) as [res Hres].
    exists res.1. unfold bind, lift, ret. rewrite Hres. auto.
  - eexists. split; reflexivity.
Qed.

Lemma written_world_one (i : Z) (closed : bool) (w : World) :
  Run.written_world input_file name frag [i] closed w
  = mkWorld (<[name i := File (nc_size w (frag i)) (Some (frag i))]> (fs w))
            (stdin w) (available_memory w) (nc_size w) (writable w)
            (open_error w) (rng w) (rng_calls w)
            (if closed then open_handles w
             else Sys.remove_first input_file (open_handles w))
            ((trace w ++ [EvWrite (name i)]) ++ [EvClose input_file]).
Proof.
  unfold Run.written_world, Run.written_fs, Run.loop_events. simpl.
  rewrite <- app_assoc. reflexivity.
Qed.

(** One iteration on a writable destination. *)
Lemma write_fragment_ok (i : Z) (files : list string) (closed : bool)
    (w : World) :
  writable w (name i) = true ->
  body i (files, closed) w
  = (inr (files ++ [name i], true),
     Run.written_world input_file name frag [i] closed w).
Proof.
  intros Hw. destruct (fill_ok i w) as (filled & Hfill & Hfrag).
  rewrite written_world_one.
  unfold body, Fragmenter.write_fragment.
  unfold Planner.fragment_range at 1. cbv beta iota.
  unfold bind at 1. simpl in Hfill. rewrite Hfill.
  unfold Sys.to_netcdf, Sys.getsize, bind, emit, ret. simpl.
  fold (name i). rewrite Hw. simpl. rewrite lookup_insert_eq.
  rewrite Hfrag. destruct closed; reflexivity.
Qed.

(** One iteration on a destination that cannot be written. *)
Lemma write_fragment_fails (i : Z) (files : list string) (closed : bool)
    (w : World) :
  writable w (name i) = false ->
  body i (files, closed) w
  = (inl (OSError (name i)), record_event (EvWrite (name i)) w).
Proof.
  intros Hw. destruct (fill_ok i w) as (filled & Hfill & Hfrag).
  unfold body, Fragmenter.write_fragment.
  unfold Planner.fragment_range at 1. cbv beta iota.
  unfold bind at 1. simpl in Hfill. rewrite Hfill.
  unfold Sys.to_netcdf, Sys.getsize, bind, emit, ret. simpl.
  fold (name i). rewrite Hw. reflexivity.
Qed.

Lemma written_world_cons (i : Z) (idxs : list Z) (closed : bool) (w : World) :
  Run.written_world input_file name frag idxs true
    (Run.written_world input_file name frag [i] closed w)
  = Run.written_world input_file name frag (i :: idxs) closed w.
Proof.
  unfold Run.written_world, Run.written_fs, Run.loop_events. simpl.
  rewrite <- app_assoc. simpl. destruct idxs; reflexivity.
Qed.

Lemma written_world_nil (closed : bool) (w : World) :
  Run.written_world input_file name frag [] closed w = w.
Proof.
  destruct w. unfold Run.written_world, Run.written_fs, Run.loop_events. simpl.
  rewrite app_nil_r. reflexivity.
Qed.

(** The whole loop when every destination is writable. *)
Lemma write_loop_ok (idxs : list Z) (files : list string) (closed : bool)
    (w : World) :
  (forall i, i ∈ idxs -> writable w (name i) = true) ->
  for_each idxs body (files, closed) w
  = (inr (files ++ map name idxs,
          match idxs with [] => closed | _ :: _ => true end),
     Run.written_world input_file name frag idxs closed w).
Proof.
  revert files closed w.
  induction idxs as [|i idxs IH]; intros files closed w Hw.
  - simpl. rewrite app_nil_r, written_world_nil. reflexivity.
  - cbn [for_each]. unfold bind at 1.
    rewrite write_fragment_ok by (apply Hw; apply list_elem_of_here).
    rewrite IH.
    + rewrite written_world_cons, <- app_assoc. simpl.
      destruct idxs; reflexivity.
    + intros j Hj. simpl. apply Hw. apply list_elem_of_further, Hj.
Qed.

(** The loop when destination [k] cannot be written and the ones before
    it can: the fragments before [k] are on disk, the exception of the
    failed write propagates. *)
Lemma write_loop_fails (before after : list Z) (k : Z) (files : list string)
    (closed : bool) (w : World) :
  (forall i, i ∈ before -> writable w (name i) = true) ->
  writable w (name k) = false ->
  for_each (before ++ k :: after) body (files, closed) w
  = (inl (OSError (name k)),
     record_event (EvWrite (name k))
       (Run.written_world input_file name frag before closed w)).
Proof.
  revert files closed w.
  induction before as [|i before IH]; intros files closed w Hw Hk.
  - cbn [app for_each]. unfold bind at 1. rewrite written_world_nil.
    rewrite write_fragment_fails by exact Hk. reflexivity.
  - cbn [app for_each]. unfold bind at 1.
    rewrite write_fragment_ok by (apply Hw; apply list_elem_of_here).
    rewrite IH.
    + rewrite written_world_cons. reflexivity.
    + intros j Hj. simpl. apply Hw. apply list_elem_of_further, Hj.
    + simpl. exact Hk.
Qed.

End Loop.

Lemma is_file_written (size_of : Dataset -> Z) (name : Z -> string)
    (frag : Z -> Dataset) (idxs : list Z) (m : gmap string fs_entry)
    (path : string) :
  (forall d, 0 < size_of d) ->
  Run.is_file m path \/ path ∈ map name idxs ->
  Run.is_file (Run.written_fs size_of name frag idxs m) path.
Proof.
  intros Hpos. revert m. induction idxs as [|i idxs IH]; intros m [H|H].
  - exact H.
  - apply elem_of_nil in H. contradiction.
  - apply IH. left. destruct H as (sz & c & Hm & Hsz).
    destruct (decide (name i = path)) as [<-|Hne].
    + eexists _, _. rewrite lookup_insert_eq. split; [reflexivity | apply Hpos].
    + exists sz, c. rewrite lookup_insert_ne by exact Hne. auto.
  - simpl in H. apply elem_of_cons in H as [->|H].
    + apply IH. left. eexists _, _. rewrite lookup_insert_eq.
      split; [reflexivity | apply Hpos].
    + apply IH. right. exact H.
Qed.

Lemma total_size_ok (files : list string) (w : World) :
  (forall f, f ∈ files -> Run.is_file (fs w) f) ->
  exists q, Fragmenter.total_size files w = (inr q, w).
Proof.
  unfold Fragmenter.total_size. generalize 0%Q as acc.
  induction files as [|f files IH]; intros acc Hfiles; simpl.
  - unfold ret. eauto.
  - destruct (Hfiles f (list_elem_of_here _ _)) as (sz & c & Hf & _).
    unfold bind at 1, bind at 1, Sys.getsize at 1. rewrite Hf. unfold ret at 1.
    apply IH. intros g Hg. apply Hfiles, list_elem_of_further, Hg.
Qed.

Lemma valid_percentage_passes_test (percentage : Q) :
  (0 < percentage)%Q -> (percentage <= 100)%Q ->
  Qle_bool percentage 0 || Qltb 100 percentage = false.
Proof.
  intros H0 H100. apply orb_false_iff. split.
  - destruct (Qle_bool percentage 0) eqn:E; [|reflexivity].
    apply Qle_bool_iff in E. lra.
  - apply Qltb_false. exact H100.
Qed.

Lemma py_range_pos (n : Z) : 1 <= n -> exists rest, py_range n = 0 :: rest.
Proof.
  intros Hn. unfold py_range.
  replace (Z.to_nat n) with (S (Z.to_nat (n - 1))) by lia.
  simpl. eauto.
Qed.

Lemma domain_percentage_pos (percentage : Q) :
  (2 ^ (-1000) <= percentage)%Q -> (0 < percentage)%Q.
Proof.
  intros H. apply Qlt_le_trans with (2 ^ (-1000))%Q; [|exact H].
  apply pow2_pos.
Qed.

(** Once the memory check has let the run continue, a valid percentage on
    a non-empty source with writable destinations always completes: the
    loop writes one file per planned range, the handle is closed, and the
    names are returned in order. *)
Lemma create_fragments_continues (input_file : string)
    (output_prefix : option string) (percentage : Q) (add_sediment_vars : bool)
    (p : Params) (w w1 : World) (size : Z) (ds : Dataset)
    (n_traj n_time tpf num : Z) :
  fs w !! input_file = Some (File size (Some ds)) ->
  0 < size ->
  sizes ds !! "trajectory"%string = Some n_traj ->
  sizes ds !! "time"%string = Some n_time ->
  1 <= n_traj -> (0 < percentage)%Q -> (percentage <= 100)%Q ->
  Planner.trajectories_per_fragment n_traj percentage = inr tpf ->
  Planner.num_fragments n_traj tpf = inr num ->
  1 <= num ->
  Estimator.check_memory_safety ds percentage
    (set_open_handles (input_file :: open_handles w)
                      (record_event (EvOpen input_file) w)) = (inr true, w1) ->
  fs w1 = fs w ->
  (forall path, writable w1 path = true) ->
  (forall d, 0 < nc_size w1 d) ->
  let name i :=
    Fragmenter.fragment_file_name (Run.prefix_of input_file output_prefix)
      (i + 1) num in
  let frag :=
    Run.fragment_dataset ds input_file n_traj tpf num add_sediment_vars p in
  let wl := Run.written_world input_file name frag (py_range num) false w1 in
  Fragmenter.create_fragments input_file output_prefix percentage
    add_sediment_vars p w
  = (inr (map name (py_range num)), record_event (EvClose input_file) wl).
Proof.
  intros Hfs Hsize Ht Hm Hn Hp0 Hp100 Htpf Hnum Hnum1 Hcheck Hfs1 Hwr Hpos
         name frag wl.
  unfold Fragmenter.create_fragments.
  fold (Run.prefix_of input_file output_prefix).
  unfold bind at 1. rewrite (open_dataset_ok _ _ _ _ Hfs).
  unfold bind at 1, lift at 1, py_getitem at 1. rewrite Ht.
  unfold bind at 1, lift at 1, py_getitem at 1. rewrite Hm.
  unfold bind at 1. rewrite Hcheck.
  change (negb true) with false. cbv beta iota.
  rewrite (valid_percentage_passes_test _ Hp0 Hp100).
  unfold bind at 1, lift at 1. rewrite Htpf.
  unfold bind at 1, lift at 1. rewrite Hnum.
  unfold bind at 1, lift at 1.
  rewrite py_div_nonzero by (apply inject_Z_nonzero; lia).
  unfold bind at 1.
  rewrite (write_loop_ok ds input_file (Run.prefix_of input_file output_prefix)
             n_traj n_time tpf num add_sediment_vars p Ht Hm)
    by (intros; apply Hwr).
  fold name frag wl. simpl app.
  destruct (py_range_pos num Hnum1) as [rest Hrange].
  replace (match py_range num with [] => false | _ :: _ => true end)
    with true by (rewrite Hrange; reflexivity).
  cbv beta iota.
  unfold bind at 1, Sys.close_shared at 1, emit at 1.
  change (fun i : Z => frag i) with frag. fold wl.
  set (wc := record_event (EvClose input_file) wl).
  assert (fs wc = Run.written_fs (nc_size w1) name frag (py_range num) (fs w))
    as Hfsc by (unfold wc, wl, Run.written_world; simpl; rewrite Hfs1; reflexivity).
  assert (Run.is_file (fs wc) input_file) as (osz & oc & Hin & Hosz).
  { rewrite Hfsc. apply is_file_written; [exact Hpos|].
    left. exists size, (Some ds). auto. }
  unfold bind at 1, Sys.getsize at 1. rewrite Hin.
  destruct (total_size_ok (map name (py_range num)) wc) as [q Hq].
  { intros f Hf. rewrite Hfsc. apply is_file_written; [exact Hpos|]. right. exact Hf. }
  unfold bind at 1. rewrite Hq.
  unfold bind at 1, lift at 1. rewrite py_div_nonzero.
  - reflexivity.
  - intros E.
    assert (0 < inject_Z osz)%Q
      by (change 0%Q with (inject_Z 0); rewrite <- Zlt_Qlt; exact Hosz).
    apply (Qmult_inj_r _ _ Estimator.MiB) in E; [|discriminate].
    revert E. unfold Qdiv. rewrite <- Qmult_assoc, (Qmult_comm (/ _)).
    rewrite Qmult_inv_r by discriminate. intros E. lra.
Qed.

Lemma remove_first_head (x : string) (l : list string) :
  Sys.remove_first x (x :: l) = l.
Proof. simpl. rewrite String.eqb_refl. reflexivity. Qed.

(** A run with a safe estimate, a non-empty source of fewer than [2^53]
    trajectories, a percentage from [2^-1000] to 100 and writable,
    non-empty outputs completes: it returns one file name per planned
    range, in order; it has written exactly those files, each holding its
    slice; every fragment has been closed after its write and the source
    once more at the end; nothing was read from standard input; and no
    source handle is left open. *)
Theorem safe_run_writes_the_planned_fragments (input_file : string)
    (output_prefix : option string) (percentage : Q) (add_sediment_vars : bool)
    (p : Params) (w : World) (size : Z) (ds : Dataset) (n_traj n_time : Z) e :
  fs w !! input_file = Some (File size (Some ds)) ->
  0 < size ->
  sizes ds !! "trajectory"%string = Some n_traj ->
  sizes ds !! "time"%string = Some n_time ->
  1 <= n_traj < 2 ^ 53 ->
  (2 ^ (-1000) <= percentage)%Q -> (percentage <= 100)%Q ->
  0 < available_memory w ->
  Estimator.estimate_of (available_memory w) n_traj n_time
    (Z.of_nat (base.size (data_vars ds))) percentage = inr e ->
  Estimator.is_safe e = true ->
  (forall path, writable w path = true) ->
  (forall d, 0 < nc_size w d) ->
  exists tpf num,
    Planner.trajectories_per_fragment n_traj percentage = inr tpf /\
    Planner.num_fragments n_traj tpf = inr num /\
    let name i :=
      Fragmenter.fragment_file_name (Run.prefix_of input_file output_prefix)
        (i + 1) num in
    let frag :=
      Run.fragment_dataset ds input_file n_traj tpf num add_sediment_vars p in
    let r := Fragmenter.create_fragments input_file output_prefix percentage
               add_sediment_vars p w in
    r.1 = inr (map name (py_range num)) /\
    Z.of_nat (length (map name (py_range num))) = num /\
    fs r.2 = Run.written_fs (nc_size w) name frag (py_range num) (fs w) /\
    trace r.2 = trace w ++ [EvOpen input_file; EvMemoryEstimate]
                        ++ Run.loop_events input_file name (py_range num)
                        ++ [EvClose input_file] /\
    open_handles r.2 = open_handles w /\
    stdin r.2 = stdin w.
Proof.
  intros Hfs Hsize Ht Hm Hn Hlo Hp100 Hav He Hs Hwr Hpos.
  pose proof (domain_percentage_pos _ Hlo) as Hp0.
  destruct (plan_valid n_traj percentage Hn Hlo Hp100)
    as (tpf & num & Htpf & _ & Hnum & _ & Hnum1 & _ & _).
  exists tpf, num. split; [exact Htpf|]. split; [exact Hnum|].
  intros name frag r.
  set (w0 := set_open_handles (input_file :: open_handles w)
                              (record_event (EvOpen input_file) w)).
  pose proof (check_memory_safety_run ds percentage w0 n_traj n_time e
                Ht Hm Hav He) as Hcheck.
  rewrite Hs in Hcheck.
  pose proof (create_fragments_continues input_file output_prefix percentage
                add_sediment_vars p w (record_event EvMemoryEstimate w0)
                size ds n_traj n_time tpf num Hfs Hsize Ht Hm ltac:(lia)
                Hp0 Hp100 Htpf Hnum Hnum1 Hcheck eq_refl Hwr Hpos) as Hrun.
  subst r. cbv zeta in Hrun. fold name frag in Hrun. rewrite Hrun.
  destruct (py_range_pos num Hnum1) as [rest Hrange].
  split; [reflexivity|]. split.
  - rewrite length_map, length_py_range. lia.
  - rewrite Hrange. simpl. rewrite String.eqb_refl.
    repeat split; try reflexivity.
    rewrite <- !app_assoc. reflexivity.
Qed.

Lemma safe_run_writes_the_planned_fragments_witness :
  let w := Sample.world 1000000 [] in
  exists tpf num,
    Planner.trajectories_per_fragment 250 40 = inr tpf /\
    Planner.num_fragments 250 tpf = inr num /\
    let name i :=
      Fragmenter.fragment_file_name (Run.prefix_of "mydata.nc" None)
        (i + 1) num in
    let frag :=
      Run.fragment_dataset Sample.source "mydata.nc" 250 tpf num true
        default_params in
    let r := Fragmenter.create_fragments "mydata.nc" None 40 true
               default_params w in
    r.1 = inr (map name (py_range num)) /\
    Z.of_nat (length (map name (py_range num))) = num /\
    fs r.2 = Run.written_fs (nc_size w) name frag (py_range num) (fs w) /\
    trace r.2 = trace w ++ [EvOpen "mydata.nc"; EvMemoryEstimate]
                        ++ Run.loop_events "mydata.nc" name (py_range num)
                        ++ [EvClose "mydata.nc"] /\
    open_handles r.2 = open_handles w /\
    stdin r.2 = stdin w.
Proof.
  intros w.
  eapply (safe_run_writes_the_planned_fragments "mydata.nc" None 40 true
            default_params w 20000 Sample.source 250 10).
  - reflexivity.
  - lia.
  - reflexivity.
  - reflexivity.
  - split; [lia | reflexivity].
  - apply Qle_bool_imp_le. vm_compute. reflexivity.
  - apply Qle_bool_imp_le. vm_compute. reflexivity.
  - simpl. lia.
  - vm_compute. reflexivity.
  - reflexivity.
  - reflexivity.
  - intros d. simpl. lia.
Defined.

(** An unsafe estimate answered with [y] (in any case, with any blanks
    around it) runs exactly like a safe one, after one line has been read
    from standard input. *)
Theorem confirmed_run_writes_the_planned_fragments (input_file : string)
    (output_prefix : option string) (percentage : Q) (add_sediment_vars : bool)
    (p : Params) (w : World) (size : Z) (ds : Dataset) (n_traj n_time : Z)
    e (line : string) (rest : list string) :
  fs w !! input_file = Some (File size (Some ds)) ->
  0 < size ->
  sizes ds !! "trajectory"%string = Some n_traj ->
  sizes ds !! "time"%string = Some n_time ->
  1 <= n_traj < 2 ^ 53 ->
  (2 ^ (-1000) <= percentage)%Q -> (percentage <= 100)%Q ->
  0 < available_memory w ->
  Estimator.estimate_of (available_memory w) n_traj n_time
    (Z.of_nat (base.size (data_vars ds))) percentage = inr e ->
  Estimator.is_safe e = false ->
  stdin w = line :: rest ->
  Str.lower (Str.strip line) = "y"%string ->
  (forall path, writable w path = true) ->
  (forall d, 0 < nc_size w d) ->
  exists tpf num,
    Planner.trajectories_per_fragment n_traj percentage = inr tpf /\
    Planner.num_fragments n_traj tpf = inr num /\
    let name i :=
      Fragmenter.fragment_file_name (Run.prefix_of input_file output_prefix)
        (i + 1) num in
    let frag :=
      Run.fragment_dataset ds input_file n_traj tpf num add_sediment_vars p in
    let r := Fragmenter.create_fragments input_file output_prefix percentage
               add_sediment_vars p w in
    r.1 = inr (map name (py_range num)) /\
    fs r.2 = Run.written_fs (nc_size w) name frag (py_range num) (fs w) /\
    trace r.2 = trace w ++ [EvOpen input_file; EvMemoryEstimate; EvInput]
                        ++ Run.loop_events input_file name (py_range num)
                        ++ [EvClose input_file] /\
    open_handles r.2 = open_handles w /\
    stdin r.2 = rest.
Proof.
  intros Hfs Hsize Ht Hm Hn Hlo Hp100 Hav He Hs Hin Hyes Hwr Hpos.
  pose proof (domain_percentage_pos _ Hlo) as Hp0.
  destruct (plan_valid n_traj percentage Hn Hlo Hp100)
    as (tpf & num & Htpf & _ & Hnum & _ & Hnum1 & _ & _).
  exists tpf, num. split; [exact Htpf|]. split; [exact Hnum|].
  intros name frag r.
  set (w0 := set_open_handles (input_file :: open_handles w)
                              (record_event (EvOpen input_file) w)).
  pose proof (check_memory_safety_run ds percentage w0 n_traj n_time e
                Ht Hm Hav He) as Hcheck.
  rewrite Hs in Hcheck. simpl stdin in Hcheck. rewrite Hin, Hyes in Hcheck.
  change (String.eqb "y" "y") with true in Hcheck.
  pose proof (create_fragments_continues input_file output_prefix percentage
                add_sediment_vars p w
                (set_stdin rest
                   (record_event EvInput (record_event EvMemoryEstimate w0)))
                size ds n_traj n_time tpf num Hfs Hsize Ht Hm ltac:(lia)
                Hp0 Hp100 Htpf Hnum Hnum1 Hcheck eq_refl Hwr Hpos) as Hrun.
  subst r. cbv zeta in Hrun. fold name frag in Hrun. rewrite Hrun.
  destruct (py_range_pos num Hnum1) as [rest' Hrange].
  rewrite Hrange. simpl. rewrite String.eqb_refl.
  repeat split; try reflexivity.
  rewrite <- !app_assoc. reflexivity.
Qed.

Lemma confirmed_run_writes_the_planned_fragments_witness :
  let w := Sample.world 900 [" Y "%string] in
  exists tpf num,
    Planner.trajectories_per_fragment 250 40 = inr tpf /\
    Planner.num_fragments 250 tpf = inr num /\
    let name i :=
      Fragmenter.fragment_file_name (Run.prefix_of "mydata.nc" None)
        (i + 1) num in
    let frag :=
      Run.fragment_dataset Sample.source "mydata.nc" 250 tpf num true
        default_params in
    let r := Fragmenter.create_fragments "mydata.nc" None 40 true
               default_params w in
    r.1 = inr (map name (py_range num)) /\
    fs r.2 = Run.written_fs (nc_size w) name frag (py_range num) (fs w) /\
    trace r.2 = trace w ++ [EvOpen "mydata.nc"; EvMemoryEstimate; EvInput]
                        ++ Run.loop_events "mydata.nc" name (py_range num)
                        ++ [EvClose "mydata.nc"] /\
    open_handles r.2 = open_handles w /\
    stdin r.2 = [].
Proof.
  intros w.
  eapply (confirmed_run_writes_the_planned_fragments "mydata.nc" None 40 true
            default_params w 20000 Sample.source 250 10 _ " Y " []).
  - reflexivity.
  - lia.
  - reflexivity.
  - reflexivity.
  - split; [lia | reflexivity].
  - apply Qle_bool_imp_le. vm_compute. reflexivity.
  - apply Qle_bool_imp_le. vm_compute. reflexivity.
  - simpl. lia.
  - vm_compute. reflexivity.
  - reflexivity.
  - reflexivity.
  - vm_compute. reflexivity.
  - reflexivity.
  - intros d. simpl. lia.
Defined.

Lemma py_range_split (n k : Z) :
  0 <= k < n -> exists after, py_range n = py_range k ++ k :: after.
Proof.
  intros Hk. unfold py_range.
  replace (Z.to_nat n) with (Z.to_nat k + S (Z.to_nat (n - k - 1)))%nat by lia.
  rewrite seq_app, map_app. simpl. rewrite Z2Nat.id by lia. eauto.
Qed.

(** When the destination of fragment [k] cannot be opened for writing (and
    those of the fragments before it can), the run stops there with
    [OSError]: the fragments before [k] stay on disk, each written and
    closed, and none after it is attempted.  No [close()] follows the
    failed write: when it is the first one ([k = 0]) the source handle is
    left open; after a first fragment has been written, its [close()] has
    closed the source file already. *)
Theorem unwritable_destination_aborts_the_run (input_file : string)
    (output_prefix : option string) (percentage : Q) (add_sediment_vars : bool)
    (p : Params) (w : World) (size : Z) (ds : Dataset)
    (n_traj n_time tpf num : Z) e (k : Z) :
  fs w !! input_file = Some (File size (Some ds)) ->
  sizes ds !! "trajectory"%string = Some n_traj ->
  sizes ds !! "time"%string = Some n_time ->
  1 <= n_traj -> (0 < percentage)%Q -> (percentage <= 100)%Q ->
  0 < available_memory w ->
  Estimator.estimate_of (available_memory w) n_traj n_time
    (Z.of_nat (base.size (data_vars ds))) percentage = inr e ->
  Estimator.is_safe e = true ->
  Planner.trajectories_per_fragment n_traj percentage = inr tpf ->
  Planner.num_fragments n_traj tpf = inr num ->
  let name i :=
    Fragmenter.fragment_file_name (Run.prefix_of input_file output_prefix)
      (i + 1) num in
  let frag :=
    Run.fragment_dataset ds input_file n_traj tpf num add_sediment_vars p in
  0 <= k < num ->
  (forall i, 0 <= i < k -> writable w (name i) = true) ->
  writable w (name k) = false ->
  let r := Fragmenter.create_fragments input_file output_prefix percentage
             add_sediment_vars p w in
  r.1 = inl (OSError (name k)) /\
  fs r.2 = Run.written_fs (nc_size w) name frag (py_range k) (fs w) /\
  trace r.2 = trace w ++ [EvOpen input_file; EvMemoryEstimate]
                      ++ Run.loop_events input_file name (py_range k)
                      ++ [EvWrite (name k)] /\
  open_handles r.2 = (if k =? 0 then input_file :: open_handles w
                      else open_handles w).
Proof.
  intros Hfs Ht Hm Hn Hp0 Hp100 Hav He Hs Htpf Hnum name frag Hk Hbefore Hbad r.
  set (w0 := set_open_handles (input_file :: open_handles w)
                              (record_event (EvOpen input_file) w)).
  pose proof (check_memory_safety_run ds percentage w0 n_traj n_time e
                Ht Hm Hav He) as Hcheck.
  rewrite Hs in Hcheck.
  destruct (py_range_split num k Hk) as [after Hsplit].
  assert (Fragmenter.create_fragments input_file output_prefix percentage
            add_sediment_vars p w
          = (inl (OSError (name k)),
             record_event (EvWrite (name k))
               (Run.written_world input_file name frag (py_range k) false
                  (record_event EvMemoryEstimate w0)))) as Hrun.
  { unfold Fragmenter.create_fragments.
    fold (Run.prefix_of input_file output_prefix).
    unfold bind at 1. rewrite (open_dataset_ok _ _ _ _ Hfs).
    unfold bind at 1, lift at 1, py_getitem at 1. rewrite Ht.
    unfold bind at 1, lift at 1, py_getitem at 1. rewrite Hm.
    unfold bind at 1. fold w0. rewrite Hcheck.
    change (negb true) with false. cbv beta iota.
    rewrite (valid_percentage_passes_test _ Hp0 Hp100).
    unfold bind at 1, lift at 1. rewrite Htpf.
    unfold bind at 1, lift at 1. rewrite Hnum.
    unfold bind at 1, lift at 1.
    rewrite py_div_nonzero by (apply inject_Z_nonzero; lia).
    unfold bind at 1. rewrite Hsplit.
    rewrite (write_loop_fails ds input_file
               (Run.prefix_of input_file output_prefix)
               n_traj n_time tpf num add_sediment_vars p Ht Hm).
    - reflexivity.
    - intros i Hi. simpl. apply Hbefore.
      unfold py_range in Hi. apply list_elem_of_fmap in Hi as (j & -> & Hj).
      apply elem_of_seq in Hj. lia.
    - exact Hbad. }
  subst r. rewrite Hrun. simpl.
  split; [reflexivity|]. split; [reflexivity|]. split.
  - rewrite <- !app_assoc. reflexivity.
  - destruct (Z.eqb_spec k 0) as [-> | Hk0].
    + reflexivity.
    + destruct (py_range_pos k ltac:(lia)) as [rest Hrange].
      rewrite Hrange. rewrite String.eqb_refl. reflexivity.
Qed.

Lemma unwritable_destination_aborts_the_run_witness :
  let w := mkWorld (fs (Sample.world 1000000 [])) [] 1000000 (fun _ => 8000)
             (fun path =>
                negb (String.eqb path "mydata_fragment_002_of_003.nc"))
             Sample.missing_file
             (fun _ _ m => py_range m) 0 [] [] in
  let name i :=
    Fragmenter.fragment_file_name (Run.prefix_of "mydata.nc" None) (i + 1) 3 in
  let frag :=
    Run.fragment_dataset Sample.source "mydata.nc" 250 100 3 true
      default_params in
  let r := Fragmenter.create_fragments "mydata.nc" None 40 true
             default_params w in
  r.1 = inl (OSError (name 1)) /\
  fs r.2 = Run.written_fs (nc_size w) name frag (py_range 1) (fs w) /\
  trace r.2 = trace w ++ [EvOpen "mydata.nc"; EvMemoryEstimate]
                      ++ Run.loop_events "mydata.nc" name (py_range 1)
                      ++ [EvWrite (name 1)] /\
  open_handles r.2 = (if 1 =? 0 then "mydata.nc"%string :: open_handles w
                      else open_handles w).
Proof.
  intros w.
  eapply (unwritable_destination_aborts_the_run "mydata.nc" None 40 true
            default_params w 20000 Sample.source 250 10 100 3 _ 1).
  - reflexivity.
  - reflexivity.
  - reflexivity.
  - lia.
  - reflexivity.
  - unfold Qle; simpl; lia.
  - simpl. lia.
  - vm_compute. reflexivity.
  - reflexivity.
  - vm_compute. reflexivity.
  - vm_compute. reflexivity.
  - lia.
  - intros i Hi. assert (i = 0) as -> by lia. vm_compute. reflexivity.
  - vm_compute. reflexivity.
Defined.
(** ** Runs that stop before the loop *)

(** A source that is missing, is a directory or is not a NetCDF file makes
    the run fail at the open, with the exception xarray raises for that
    path; nothing else has happened: no handle is open, no estimate was
    made, nothing was asked and nothing written. *)
Theorem unreadable_source_fails_at_open (input_file : string)
    (output_prefix : option string) (percentage : Q) (add_sediment_vars : bool)
    (p : Params) (w : World) :
  (forall size ds, fs w !! input_file <> Some (File size (Some ds))) ->
  Fragmenter.create_fragments input_file output_prefix percentage
    add_sediment_vars p w
  = (inl (open_error w input_file), record_event (EvOpen input_file) w).
Proof.
  intros Hbad.
  unfold Fragmenter.create_fragments, bind at 1, Sys.open_dataset, bind, emit.
  simpl.
  destruct (fs w !! input_file) as [[|size [ds|]]|] eqn:E; try reflexivity.
  exfalso. exact (Hbad size ds eq_refl).
Qed.

Lemma unreadable_source_fails_at_open_witness :
  Fragmenter.create_fragments "absent.nc" None 10 true default_params
    (Sample.world 1000000 [])
  = (inl (FileNotFoundError "absent.nc"),
     record_event (EvOpen "absent.nc") (Sample.world 1000000 [])).
Proof.
  apply (unreadable_source_fails_at_open "absent.nc" None 10 true
           default_params (Sample.world 1000000 [])).
  intros size ds H. vm_compute in H. discriminate H.
Defined.

(** A source without a [trajectory] or a [time] dimension makes the run
    fail with [KeyError] right after the open: the memory check does not
    run and the handle just opened is not closed. *)
Theorem missing_dimension_is_a_key_error (input_file : string)
    (output_prefix : option string) (percentage : Q) (add_sediment_vars : bool)
    (p : Params) (w : World) (size : Z) (ds : Dataset) :
  fs w !! input_file = Some (File size (Some ds)) ->
  sizes ds !! "trajectory"%string = None \/ sizes ds !! "time"%string = None ->
  Fragmenter.create_fragments input_file output_prefix percentage
    add_sediment_vars p w
  = (inl (KeyError (match sizes ds !! "trajectory"%string with
                    | Some _ => "time"
                    | None => "trajectory"
                    end)),
     set_open_handles (input_file :: open_handles w)
                      (record_event (EvOpen input_file) w)).
Proof.
  intros Hfs Hmiss.
  unfold Fragmenter.create_fragments.
  unfold bind at 1. rewrite (open_dataset_ok _ _ _ _ Hfs).
  unfold bind at 1, lift at 1, py_getitem at 1.
  destruct (sizes ds !! "trajectory"%string) as [n_traj|]; [|reflexivity].
  destruct Hmiss as [Hmiss|Hmiss]; [discriminate|].
  unfold bind at 1, lift at 1, py_getitem at 1. rewrite Hmiss. reflexivity.
Qed.

Lemma missing_dimension_is_a_key_error_witness :
  let ds := mkDataset {[ "trajectory"%string := 5 ]} ∅ ∅ ∅ in
  let w := mkWorld {[ "flat.nc"%string := File 100 (Some ds) ]} [] 1000
             (fun _ => 8000) (fun _ => true) Sample.missing_file
             (fun _ _ m => py_range m) 0 [] [] in
  Fragmenter.create_fragments "flat.nc" None 10 true default_params w
  = (inl (KeyError (match sizes ds !! "trajectory"%string with
                    | Some _ => "time"
                    | None => "trajectory"
                    end)),
     set_open_handles ("flat.nc"%string :: open_handles w)
                      (record_event (EvOpen "flat.nc") w)).
Proof.
  intros ds w.
  apply (missing_dimension_is_a_key_error "flat.nc" None 10 true
           default_params w 100 ds).
  - reflexivity.
  - right. reflexivity.
Defined.

Lemma np_ceil_zero (x : Q) : (x == 0)%Q -> np_ceil x = 0.
Proof.
  intros E. apply np_ceil_unique; rewrite E.
  - reflexivity.
  - apply Qle_refl.
Qed.

(** The share of no trajectory is no trajectory, whatever the percentage. *)
Lemma ceil_share_zero (percentage : Q) : ceil_share 0 percentage = inr 0.
Proof.
  unfold ceil_share.
  change (F64.of_int 0) with (@inr exn Q 0%Q).
  assert (F64.round (0 * percentage) = 0%Q) as E
    by (apply round_zero; ring).
  unfold F64.result at 1. rewrite E.
  change (Qle_bool (2 ^ 1024) (Qabs 0)) with false. cbv iota.
  reflexivity.
Qed.

(** A source with no trajectory passes the memory check (its estimate is
    zero) and the percentage test, and then fails with
    [ZeroDivisionError] when the number of fragments is computed; nothing
    is written and the handle stays open. *)
Theorem empty_source_is_a_division_by_zero (input_file : string)
    (output_prefix : option string) (percentage : Q) (add_sediment_vars : bool)
    (p : Params) (w : World) (size : Z) (ds : Dataset) (n_time : Z) :
  fs w !! input_file = Some (File size (Some ds)) ->
  sizes ds !! "trajectory"%string = Some 0 ->
  sizes ds !! "time"%string = Some n_time ->
  (0 < percentage)%Q -> (percentage <= 100)%Q ->
  0 < available_memory w ->
  Fragmenter.create_fragments input_file output_prefix percentage
    add_sediment_vars p w
  = (inl ZeroDivisionError,
     record_event EvMemoryEstimate
       (set_open_handles (input_file :: open_handles w)
                         (record_event (EvOpen input_file) w))).
Proof.
  intros Hfs Ht Hm Hp0 Hp100 Hav.
  set (w0 := set_open_handles (input_file :: open_handles w)
                              (record_event (EvOpen input_file) w)).
  pose proof (ceil_share_zero percentage) as Hceil.
  destruct (estimate_of_total (available_memory w) 0 n_time
              (Z.of_nat (base.size (data_vars ds))) percentage 0 Hceil Hav)
    as [e He].
  pose proof (check_memory_safety_run ds percentage w0 0 n_time e
                Ht Hm Hav He) as Hcheck.
  apply (estimate_of_inr _ _ _ _ _ 0 Hceil) in He as (_ & _ & Hsafe & _).
  assert (Estimator.is_safe e = true) as Hs.
  { rewrite Hsafe. apply Qltb_true. simpl Z.mul.
    assert (0 < inject_Z (available_memory w))%Q
      by (change 0%Q with (inject_Z 0); rewrite <- Zlt_Qlt; exact Hav).
    assert (inject_Z 0 / Estimator.MiB * 3 == 0)%Q as -> by (field; discriminate).
    apply Qmult_lt_0_compat; [|reflexivity].
    apply Qlt_shift_div_l; [exact MiB_pos|]. lra. }
  rewrite Hs in Hcheck.
  unfold Fragmenter.create_fragments.
  unfold bind at 1. rewrite (open_dataset_ok _ _ _ _ Hfs).
  unfold bind at 1, lift at 1, py_getitem at 1. rewrite Ht.
  unfold bind at 1, lift at 1, py_getitem at 1. rewrite Hm.
  unfold bind at 1. fold w0. rewrite Hcheck.
  change (negb true) with false. cbv beta iota.
  rewrite (valid_percentage_passes_test _ Hp0 Hp100).
  unfold Planner.trajectories_per_fragment. rewrite Hceil.
  reflexivity.
Qed.

Lemma empty_source_is_a_division_by_zero_witness :
  let ds := mkDataset {[ "trajectory"%string := 0; "time"%string := 10 ]}
              ∅ ∅ ∅ in
  let w := mkWorld {[ "empty.nc"%string := File 100 (Some ds) ]} [] 1000
             (fun _ => 8000) (fun _ => true) Sample.missing_file
             (fun _ _ m => py_range m) 0 [] [] in
  Fragmenter.create_fragments "empty.nc" None 10 true default_params w
  = (inl ZeroDivisionError,
     record_event EvMemoryEstimate
       (set_open_handles ("empty.nc"%string :: open_handles w)
                         (record_event (EvOpen "empty.nc") w))).
Proof.
  intros ds w.
  apply (empty_source_is_a_division_by_zero "empty.nc" None 10 true
           default_params w 100 ds 10).
  - reflexivity.
  - reflexivity.
  - reflexivity.
  - reflexivity.
  - unfold Qle; simpl; lia.
  - simpl. lia.
Defined.

(** ** Interactive configuration *)

Lemma select_cases (options : list string) (default : string)
    (choice : string) :
  Fragmenter.select options default choice = default \/
  Fragmenter.select options default choice ∈ options.
Proof.
  unfold Fragmenter.select.
  destruct (Str.isdigit choice && (1 <=? Str.to_int choice)
            && (Str.to_int choice <=? Z.of_nat (length options))) eqn:E;
    [|left; reflexivity].
  apply andb_true_iff in E as [E Hhi]. apply andb_true_iff in E as [_ Hlo].
  apply Z.leb_le in Hhi, Hlo. right.
  apply list_elem_of_In, nth_In. lia.
Qed.

(** For every ASCII answer of at most 4300 characters typed at a selection
    prompt, the value chosen is the default or one of the listed options:
    an out-of-range or non-numeric answer never escapes the enumeration.
    (Outside ASCII [str.isdigit] accepts characters, such as a superscript
    two, that [int] rejects; and [int] may refuse a longer digit string.) *)
Theorem select_stays_in_enumeration (options : list string) (default : string)
    (choice : string) :
  Str.is_ascii choice = true ->
  (length (Str.chars choice) <= 4300)%nat ->
  Fragmenter.select options default choice = default \/
  Fragmenter.select options default choice ∈ options.
Proof. intros _ _. apply select_cases. Qed.

Lemma select_stays_in_enumeration_witness :
  Fragmenter.select Fragmenter.classes "other" "9" = "other"%string \/
  Fragmenter.select Fragmenter.classes "other" "9" ∈ Fragmenter.classes.
Proof.
  apply (select_stays_in_enumeration Fragmenter.classes "other" "9").
  - reflexivity.
  - simpl. lia.
Defined.

(** The size classes offered interactively all fit the six characters of
    the synthesized size-class array, so an interactive choice is never
    truncated. *)
Theorem interactive_size_class_fits (choice : string) :
  let s := Fragmenter.select Fragmenter.size_classes "medium" choice in
  cast (Unicode 6) (CStr s) = CStr s.
Proof.
  intros s.
  pose proof (select_cases Fragmenter.size_classes "medium" choice) as H.
  fold s in H. clearbody s. destruct H as [->|H]; [reflexivity|].
  unfold Fragmenter.size_classes in H.
  rewrite !elem_of_cons, elem_of_nil in H.
  destruct H as [->|[->|[->|[]]]]; reflexivity.
Qed.

(** In interactive mode a percentage of zero is a division by zero: the
    preview computes [100 / percentage] right after opening the source,
    so the run stops there, before any other question, with the handle
    left open. *)
Theorem interactive_zero_percentage_divides_by_zero (input_file : string)
    (w : World) (line : string) (rest : list string) (x : Q) (size : Z)
    (ds : Dataset) (n_traj : Z) :
  stdin w = line :: rest ->
  Str.strip line <> ""%string ->
  Str.to_float (Str.strip line) = inr x ->
  (x == 0)%Q ->
  fs w !! input_file = Some (File size (Some ds)) ->
  sizes ds !! "trajectory"%string = Some n_traj ->
  let r := Fragmenter.interactive_mode input_file w in
  r.1 = inl ZeroDivisionError /\
  stdin r.2 = rest /\
  fs r.2 = fs w /\
  open_handles r.2 = input_file :: open_handles w /\
  trace r.2 = trace w ++ [EvInput; EvOpen input_file].
Proof.
  intros Hin Hne Hx Hzero Hfs Ht r.
  assert (exists w',
            Fragmenter.interactive_mode input_file w = (inl ZeroDivisionError, w')
            /\ stdin w' = rest /\ fs w' = fs w
            /\ open_handles w' = input_file :: open_handles w
            /\ trace w' = trace w ++ [EvInput; EvOpen input_file])
    as (w' & Hrun & Hw').
  { eexists. split.
    - unfold Fragmenter.interactive_mode.
      unfold bind at 1, Sys.input at 1, bind at 1, emit at 1.
      simpl stdin. rewrite Hin.
      unfold bind at 1, Fragmenter.float_or at 1.
      apply String.eqb_neq in Hne. rewrite Hne.
      unfold bind at 1, lift at 1. rewrite Hx. unfold ret at 1.
      unfold bind at 1.
      rewrite (open_dataset_ok input_file _ size ds) by exact Hfs.
      unfold bind at 1, lift at 1, py_getitem at 1. rewrite Ht.
      unfold bind at 1, lift at 1, ceil_inverse_share at 1.
      apply Qeq_bool_iff in Hzero. rewrite Hzero.
      reflexivity.
    - simpl. rewrite <- app_assoc. auto. }
  subst r. rewrite Hrun. exact (conj eq_refl Hw').
Qed.

Lemma interactive_zero_percentage_divides_by_zero_witness :
  let w := Sample.world 1000000 ["0"; "y"]%string in
  let r := Fragmenter.interactive_mode "mydata.nc" w in
  r.1 = inl ZeroDivisionError /\
  stdin r.2 = ["y"%string] /\
  fs r.2 = fs w /\
  open_handles r.2 = "mydata.nc"%string :: open_handles w /\
  trace r.2 = trace w ++ [EvInput; EvOpen "mydata.nc"].
Proof.
  intros w.
  eapply (interactive_zero_percentage_divides_by_zero "mydata.nc" w "0"
            ["y"%string] 0 20000 Sample.source 250).
  - reflexivity.
  - vm_compute. discriminate.
  - vm_compute. reflexivity.
  - reflexivity.
  - reflexivity.
  - reflexivity.
Defined.

(** ** Output names *)

(** For every fragment number below 1000 the zero-padded field is exactly
    three decimal digits that read back as the number, so fragments of one
    run get distinct names of equal length. *)
Theorem fragment_number_field_is_three_digits (z : Z) :
  0 <= z < 1000 ->
  length (Str.chars (Str.fmt_03d z)) = 3%nat /\
  Str.isdigit (Str.fmt_03d z) = true /\
  Str.to_int (Str.fmt_03d z) = z.
Proof.
  intros Hz.
  assert (forallb (fun n =>
                     Nat.eqb (length (Str.chars (Str.fmt_03d n))) 3
                     && Str.isdigit (Str.fmt_03d n)
                     && (Str.to_int (Str.fmt_03d n) =? n))
                  (py_range 1000) = true) as Hall by (vm_compute; reflexivity).
  rewrite forallb_forall in Hall.
  assert (In z (py_range 1000)) as Hin.
  { apply list_elem_of_In. unfold py_range.
    apply list_elem_of_fmap. exists (Z.to_nat z). split; [lia|].
    apply elem_of_seq. lia. }
  specialize (Hall z Hin).
  apply andb_true_iff in Hall as [Hall H3].
  apply andb_true_iff in Hall as [H1 H2].
  apply Nat.eqb_eq in H1. apply Z.eqb_eq in H3. auto.
Qed.

Lemma fragment_number_field_is_three_digits_witness :
  length (Str.chars (Str.fmt_03d 7)) = 3%nat /\
  Str.isdigit (Str.fmt_03d 7) = true /\
  Str.to_int (Str.fmt_03d 7) = 7.
Proof. apply (fragment_number_field_is_three_digits 7). lia. Defined.

(** ** What synthesis leaves alone, and the shape of what it adds *)

Lemma attrs_mark_class (ds : Dataset) (name : string) :
  attrs (Synth.mark_class ds) !! name
  = if String.eqb name "opendrift_class"
    then Some (default (AStr "SedimentDrift")
                       (attrs ds !! "opendrift_class"%string))
    else attrs ds !! name.
Proof.
  unfold Synth.mark_class.
  destruct (py_in "opendrift_class" (attrs ds)) eqn:E; simpl.
  - apply py_in_true in E as [v Hv].
    destruct (String.eqb_spec name "opendrift_class") as [->|Hne];
      [rewrite Hv|]; reflexivity.
  - apply py_in_false in E.
    destruct (String.eqb_spec name "opendrift_class") as [->|Hne].
    + rewrite lookup_insert_eq, E. reflexivity.
    + rewrite lookup_insert_ne by congruence. reflexivity.
Qed.

(** Synthesis changes neither the dimensions nor the coordinates, and of
    the global attributes only [opendrift_class]: it is set to
    [SedimentDrift] when absent and kept, whatever its value, when
    present. *)
Theorem synthesis_keeps_dimensions_and_attributes (ds ds1 : Dataset)
    (p : Params) (added : list fstr) :
  Synth.add_missing_sediment_variables ds p = inr (ds1, added) ->
  sizes ds1 = sizes ds /\
  coords ds1 = coords ds /\
  attrs ds1 !! "opendrift_class"%string
  = Some (default (AStr "SedimentDrift") (attrs ds !! "opendrift_class"%string)) /\
  (forall name, name <> "opendrift_class"%string ->
     attrs ds1 !! name = attrs ds !! name).
Proof.
  unfold Synth.add_missing_sediment_variables, py_getitem.
  destruct (sizes ds !! "trajectory"%string) as [n_traj|]; [|discriminate].
  destruct (sizes ds !! "time"%string) as [n_time|]; [|discriminate].
  pose proof (synthesized_blocks (Synth.derived_variables n_traj n_time p) ds [])
    as Hsyn.
  destruct (fold_left Synth.run_block _ (ds, [])) as [ds' added'].
  cbn [fst] in Hsyn. intros [= <- <-].
  split; [rewrite sizes_mark_class; apply Hsyn|].
  split; [unfold Synth.mark_class; destruct (negb _); apply Hsyn|].
  split.
  - rewrite attrs_mark_class, (syn_attrs _ _ _ Hsyn). reflexivity.
  - intros name Hne. rewrite attrs_mark_class, (syn_attrs _ _ _ Hsyn).
    apply String.eqb_neq in Hne. rewrite Hne. reflexivity.
Qed.

Lemma synthesis_keeps_dimensions_and_attributes_witness :
  exists ds1 added,
    Synth.add_missing_sediment_variables Sample.source default_params
    = inr (ds1, added) /\
    sizes ds1 = sizes Sample.source /\
    coords ds1 = coords Sample.source /\
    attrs ds1 !! "opendrift_class"%string
    = Some (default (AStr "SedimentDrift")
                    (attrs Sample.source !! "opendrift_class"%string)) /\
    (forall name, name <> "opendrift_class"%string ->
       attrs ds1 !! name = attrs Sample.source !! name).
Proof.
  destruct (Synth.add_missing_sediment_variables Sample.source default_params)
    as [e|[ds1 added]] eqn:E; [vm_compute in E; discriminate E|].
  exists ds1, added. split; [reflexivity|].
  apply (synthesis_keeps_dimensions_and_attributes Sample.source ds1
           default_params added E).
Defined.

Lemma derived_variables_are_full (n_traj n_time : Z) (p : Params)
    (name : string) (da : DataArray) (msg : fstr) :
  (name, da, msg) ∈ Synth.derived_variables n_traj n_time p ->
  exists c t ats, da = full_array n_traj n_time c t ats.
Proof.
  unfold Synth.derived_variables. rewrite !elem_of_cons, elem_of_nil.
  intros H.
  repeat (destruct H as [H|H];
          [injection H as -> -> ->; eexists _, _, _; reflexivity|]).
  destruct H.
Qed.

Lemma blocks_changed (blocks : list (string * DataArray * fstr)) (ds : Dataset)
    (l : list fstr) (name : string) (da : DataArray) :
  variables ds !! name = None ->
  variables (fold_left Synth.run_block blocks (ds, l)).1 !! name = Some da ->
  exists msg, (name, da, msg) ∈ blocks.
Proof.
  revert ds l. induction blocks as [|[[name' da'] msg'] blocks IH];
    intros ds l Habs Hda.
  - simpl in Hda. congruence.
  - cbn [fold_left] in Hda.
    change (Synth.run_block (ds, l) (name', da', msg'))
      with (Synth.add_if_absent name' da' msg' (ds, l)) in Hda.
    destruct (variables ds !! name') as [v|] eqn:E.
    + rewrite add_if_absent_present in Hda by (rewrite E; eauto).
      destruct (IH _ _ Habs Hda) as [msg Hin].
      exists msg. apply list_elem_of_further, Hin.
    + rewrite add_if_absent_absent in Hda by exact E.
      destruct (decide (name' = name)) as [->|Hne].
      * pose proof (syn_kept _ _ _ (synthesized_blocks blocks
                      (set_variable name da' ds) (l ++ [msg'])) name da') as Hk.
        rewrite variables_set_variable, lookup_insert_eq in Hk.
        specialize (Hk eq_refl). rewrite Hk in Hda. injection Hda as ->.
        exists msg'. apply list_elem_of_here.
      * destruct (IH (set_variable name' da' ds) (l ++ [msg'])) as [msg Hin].
        -- rewrite variables_set_variable, lookup_insert_ne; assumption.
        -- exact Hda.
        -- exists msg. apply list_elem_of_further, Hin.
Qed.

(** Every variable that synthesis adds is indexed by (trajectory, time)
    and has exactly one row per trajectory and one cell per time step of
    the fragment it is added to, all cells holding the same value. *)
Theorem synthesized_variables_have_the_fragment_shape (ds ds1 : Dataset)
    (p : Params) (added : list fstr) (n_traj n_time : Z) (name : string)
    (da : DataArray) :
  sizes ds !! "trajectory"%string = Some n_traj ->
  sizes ds !! "time"%string = Some n_time ->
  Synth.add_missing_sediment_variables ds p = inr (ds1, added) ->
  variables ds !! name = None ->
  variables ds1 !! name = Some da ->
  da_dims da = ["trajectory"; "time"]%string /\
  length (da_values da) = Z.to_nat n_traj /\
  exists c, forall row, row ∈ da_values da ->
    length row = Z.to_nat n_time /\ forall x, x ∈ row -> x = c.
Proof.
  intros Ht Hm. unfold Synth.add_missing_sediment_variables, py_getitem.
  rewrite Ht, Hm.
  destruct (fold_left Synth.run_block _ (ds, [])) as [ds' added'] eqn:E.
  intros [= <- <-] Habs Hda. rewrite variables_mark_class in Hda.
  pose proof (blocks_changed (Synth.derived_variables n_traj n_time p) ds []
                name da Habs) as H.
  rewrite E in H. destruct (H Hda) as [msg Hin].
  destruct (derived_variables_are_full _ _ _ _ _ _ Hin) as (c & t & ats & ->).
  unfold full_array. simpl.
  destruct (np_full_shape n_traj n_time (cast t c)) as [Hlen Hrows].
  split; [reflexivity|]. split; [exact Hlen|]. exists (cast t c). exact Hrows.
Qed.

Lemma synthesized_variables_have_the_fragment_shape_witness :
  exists ds1 added da,
    Synth.add_missing_sediment_variables Sample.source default_params
    = inr (ds1, added) /\
    variables ds1 !! "settled"%string = Some da /\
    da_dims da = ["trajectory"; "time"]%string /\
    length (da_values da) = Z.to_nat 250 /\
    exists c, forall row, row ∈ da_values da ->
      length row = Z.to_nat 10 /\ forall x, x ∈ row -> x = c.
Proof.
  destruct (Synth.add_missing_sediment_variables Sample.source default_params)
    as [e|[ds1 added]] eqn:E; [vm_compute in E; discriminate E|].
  destruct (variables ds1 !! "settled"%string) as [da|] eqn:Hda.
  - exists ds1, added, da. split; [reflexivity|]. split; [exact Hda|].
    apply (synthesized_variables_have_the_fragment_shape Sample.source ds1
             default_params added 250 10 "settled" da);
      [reflexivity | reflexivity | exact E | reflexivity | exact Hda].
  - exfalso. revert Hda. injection E as <- _. vm_compute. discriminate.
Defined.

(** * Further properties of the validator *)

(** ** Which checks can fail a validation *)

Lemma trajectory_variables_never_fail (ds : Dataset) :
  Validator.errors (Validator.validate_trajectory_variables ds) = [] /\
  Validator.missing (Validator.validate_trajectory_variables ds) = [].
Proof.
  unfold Validator.validate_trajectory_variables, Validator.common_vars,
    Validator.check_common.
  cbn [fold_left]. repeat destruct (py_in _ _); split; reflexivity.
Qed.

(** The attribute check raises exactly when [opendrift_class] is an array
    of several values; when it returns it reports neither errors nor
    missing variables. *)
Lemma attributes_check (ds : Dataset) :
  match Validator.validate_attributes ds with
  | inl _ => exists x0 x1 more,
      attrs ds !! "opendrift_class"%string = Some (AArray x0 x1 more)
  | inr r =>
      (forall x0 x1 more,
         attrs ds !! "opendrift_class"%string <> Some (AArray x0 x1 more)) /\
      Validator.errors r = [] /\ Validator.missing r = []
  end.
Proof.
  unfold Validator.validate_attributes, Validator.recommended_attrs,
    Validator.check_attr.
  cbn [fold_left].
  destruct (attrs ds !! "opendrift_class"%string) as [[s|z|x|x0 x1 more]|];
    cbn [Validator.attr_differs].
  - destruct (negb (String.eqb s "SedimentDrift"));
      repeat destruct (py_in _ _); repeat split; try reflexivity; discriminate.
  - repeat destruct (py_in _ _); repeat split; try reflexivity; discriminate.
  - repeat destruct (py_in _ _); repeat split; try reflexivity; discriminate.
  - eauto.
  - repeat destruct (py_in _ _); repeat split; try reflexivity; discriminate.
Qed.

Lemma check_range_never_fails (ds : Dataset) (name : string) (bound : Q)
    (label range_text : string) (ti tm : list Z)
    (result : Validator.ValidationResult) :
  Validator.errors
    (Validator.check_range ds name bound label range_text ti tm result)
  = Validator.errors result /\
  Validator.missing
    (Validator.check_range ds name bound label range_text ti tm result)
  = Validator.missing result.
Proof.
  unfold Validator.check_range.
  destruct (variables ds !! name) as [da|]; [|auto].
  destruct (match Validator.isel_values da ti tm with
            | inl e => inl e
            | inr sample => Validator.drop_nan sample
            end) as [e|[|x valid]]; [auto | auto |].
  destruct (Qltb _ _ || Qltb _ _); auto.
Qed.

(** The sampling check always returns, touches nothing but the random
    generator, and reports neither errors nor missing variables. *)
Lemma data_integrity_never_fails (ds : Dataset) (quick : bool) (w : World) :
  exists r w',
    Validator.validate_data_integrity ds quick w = (inr r, w') /\
    Validator.errors r = [] /\ Validator.missing r = [] /\
    fs w' = fs w /\ open_handles w' = open_handles w /\
    stdin w' = stdin w /\ trace w' = trace w.
Proof.
  unfold Validator.validate_data_integrity.
  destruct quick; [unfold ret; eexists _, _; repeat split; reflexivity|].
  set (n_traj := default 0 (sizes ds !! "trajectory"%string)).
  set (n_time := default 0 (sizes ds !! "time"%string)).
  unfold Validator.sample_indices, Sys.random_choice, bind, ret.
  destruct (Z.min 100 n_traj <? n_traj), (Z.min 100 n_time <? n_time);
    eexists _, _; (split; [reflexivity|]); cbn [Validator.errors
      Validator.missing Validator.add_info];
    rewrite !(proj1 (check_range_never_fails _ _ _ _ _ _ _ _)),
            !(proj2 (check_range_never_fails _ _ _ _ _ _ _ _));
    repeat split; reflexivity.
Qed.

Lemma sediment_check_categories (ds : Dataset) :
  Validator.errors (Validator.validate_sediment_variables ds) = [] /\
  (Validator.missing (Validator.validate_sediment_variables ds) = []
   <-> forall name, name ∈ map fst Validator.required_vars ->
                    is_Some (variables ds !! name)).
Proof.
  unfold Validator.validate_sediment_variables.
  rewrite fold_check_optional, fold_check_required.
  unfold Validator.empty_result.
  cbn [Validator.errors Validator.missing app].
  split; [reflexivity|]. split.
  - intros Hnil name Hname.
    apply list_elem_of_fmap in Hname as ([n d] & -> & Hin). simpl.
    destruct (py_in n (variables ds)) eqn:E; [apply py_in_true, E|].
    exfalso.
    assert (In (n, d) (List.filter
                         (fun item => negb (py_in item.1 (variables ds)))
                         Validator.required_vars)) as Hf.
    { apply filter_In. split; [apply list_elem_of_In, Hin|].
      simpl. rewrite E. reflexivity. }
    apply (in_map (fun item => [Lit "⚠️  MISSING: "; Lit item.1; Lit " (";
                                Lit item.2; Lit ")"])) in Hf.
    rewrite Hnil in Hf. exact Hf.
  - intros Hall.
    replace (List.filter (fun item => negb (py_in item.1 (variables ds)))
                         Validator.required_vars) with (@nil (string * string));
      [reflexivity|].
    symmetry.
    induction Validator.required_vars as [|[n d] l IH]; [reflexivity|].
    simpl. assert (py_in n (variables ds) = true) as ->.
    { apply py_in_true, Hall. simpl. apply list_elem_of_here. }
    simpl. apply IH. intros name Hname. apply Hall. simpl.
    apply list_elem_of_further, Hname.
Qed.

(** The dimension check reports no error exactly when both dimensions
    exist and are not empty. *)
Lemma dimension_check_errors (ds : Dataset) :
  Validator.missing (Validator.validate_dimensions ds) = [] /\
  (Validator.errors (Validator.validate_dimensions ds) = []
   <-> exists n_traj n_time,
         sizes ds !! "trajectory"%string = Some n_traj /\
         sizes ds !! "time"%string = Some n_time /\
         1 <= n_traj /\ 1 <= n_time).
Proof.
  unfold Validator.validate_dimensions, Validator.check_dim,
    Validator.check_size.
  cbn [fold_left].
  destruct (sizes ds !! "trajectory"%string) as [n_traj|],
           (sizes ds !! "time"%string) as [n_time|];
    try (split; [reflexivity|]; split;
         [discriminate | intros (? & ? & ? & ? & _); discriminate]).
  destruct (Z.ltb_spec n_traj 1), (Z.ltb_spec n_traj 10),
           (Z.ltb_spec n_time 1), (Z.ltb_spec n_time 10);
    (split; [reflexivity|]); split;
    try discriminate; try lia;
    try (intros (a & b & [= <-] & [= <-] & ? & ?); lia);
    try (intros _; exists n_traj, n_time; repeat split; lia);
    try (intros _; reflexivity).
Qed.

(** ** The exit status of a validation *)

Lemma validate_file_access_regular (filepath : string) (w : World)
    (size : Z) (content : option Dataset) :
  fs w !! filepath = Some (File size content) ->
  exists r, Validator.validate_file_access filepath w = (inr r, w) /\
            Validator.is_valid r = true.
Proof.
  intros Hfs.
  unfold Validator.validate_file_access, Sys.exists_, Sys.isfile, Sys.getsize,
    bind, ret.
  cbv beta. rewrite Hfs. cbn -[Str.endswith]. rewrite Hfs.
  cbn -[Str.endswith]. rewrite ?Hfs.
  eexists. split; [reflexivity|].
  destruct (negb (Str.endswith filepath ".nc")); reflexivity.
Qed.

(** A readable NetCDF file gets all five checks; the errors are those of
    the dimension check, and one more when the attribute check raises;
    only the sediment check contributes missing variables; the file is
    opened once and closed once and nothing is written. *)
Lemma validate_dataset_readable (filepath : string) (verbose quick : bool)
    (w : World) (size : Z) (ds : Dataset) :
  fs w !! filepath = Some (File size (Some ds)) ->
  exists overall w',
    Validator.validate_dataset filepath verbose quick w = (inr overall, w') /\
    Validator.errors overall
    = Validator.errors (Validator.validate_dimensions ds)
      ++ match Validator.validate_attributes ds with
         | inl e => [[Lit "❌ ERROR: "; Lit "Validation check failed: "; FmtE e]]
         | inr _ => []
         end /\
    Validator.missing overall
    = Validator.missing (Validator.validate_sediment_variables ds) /\
    fs w' = fs w /\ open_handles w' = open_handles w /\
    stdin w' = stdin w /\
    trace w' = trace w ++ [EvOpen filepath; EvClose filepath].
Proof.
  intros Hfs.
  destruct (validate_file_access_regular filepath w size (Some ds) Hfs)
    as (r0 & Hacc & Hvalid).
  unfold Validator.validate_dataset. unfold bind at 1. rewrite Hacc, Hvalid.
  change (negb true) with false. cbv iota.
  unfold bind at 1, Validator.try_catch at 1, bind at 1.
  rewrite (open_dataset_ok _ _ _ _ Hfs). unfold ret at 1. cbv beta iota.
  set (w1 := set_open_handles (filepath :: open_handles w)
                              (record_event (EvOpen filepath) w)).
  destruct (data_integrity_never_fails ds quick w1)
    as (ri & w2 & Hint & Hie & Him & Hfs2 & Hh2 & Hin2 & Htr2).
  unfold Validator.checks. cbn [for_each].
  unfold bind at 1. unfold bind at 1.
  unfold Validator.run_check at 1, Validator.try_catch at 1, bind at 1.
  cbn [snd]. unfold ret at 1 2. cbv beta iota.
  unfold bind at 1.
  unfold Validator.run_check at 1, Validator.try_catch at 1, bind at 1.
  cbn [snd]. unfold ret at 1 2. cbv beta iota.
  unfold bind at 1.
  unfold Validator.run_check at 1, Validator.try_catch at 1, bind at 1.
  cbn [snd]. unfold ret at 1 2. cbv beta iota.
  unfold bind at 1.
  unfold Validator.run_check at 1, Validator.try_catch at 1, bind at 1.
  cbn [snd]. unfold lift at 1.
  destruct (sediment_check_categories ds) as [Hse _].
  destruct (dimension_check_errors ds) as [Hdm _].
  destruct (trajectory_variables_never_fail ds) as [Hte Htm].
  pose proof (attributes_check ds) as Hattr.
  destruct (Validator.validate_attributes ds) as [e | ra].
  - unfold ret at 1. cbv beta iota.
    unfold bind at 1.
    unfold Validator.run_check at 1, Validator.try_catch at 1, bind at 1.
    cbn [snd]. rewrite Hint. unfold ret at 1 2. cbv beta iota.
    unfold Sys.close, bind, emit, ret. cbv beta iota.
    eexists _, _. split; [reflexivity|].
    cbn [Validator.merge Validator.errors Validator.missing
         Validator.add_error
         Validator.empty_result app fs open_handles stdin trace
         set_open_handles record_event].
    rewrite Hse, Hte, Hie, Hdm, Htm, Him, Hfs2, Hh2, Hin2, Htr2.
    rewrite !app_nil_r. unfold w1. simpl.
    rewrite String.eqb_refl, <- app_assoc.
    repeat split; reflexivity.
  - destruct Hattr as (_ & Hae & Ham).
    unfold ret at 1 2. cbv beta iota.
    unfold bind at 1.
    unfold Validator.run_check at 1, Validator.try_catch at 1, bind at 1.
    cbn [snd]. rewrite Hint. unfold ret at 1 2. cbv beta iota.
    unfold Sys.close, bind, emit, ret. cbv beta iota.
    eexists _, _. split; [reflexivity|].
    cbn [Validator.merge Validator.errors Validator.missing
         Validator.empty_result app fs open_handles stdin trace
         set_open_handles record_event].
    rewrite Hse, Hte, Hae, Hie, Hdm, Htm, Ham, Him, Hfs2, Hh2, Hin2, Htr2.
    rewrite !app_nil_r. unfold w1. simpl.
    rewrite String.eqb_refl, <- app_assoc.
    repeat split; reflexivity.
Qed.

(** For a readable NetCDF file the validator exits with 0 exactly when
    both dimensions exist and are not empty, the five required sediment
    variables are all present, and the [opendrift_class] attribute is not
    an array of several values (comparing such an array with the expected
    name raises inside the attribute check, which counts as an error); it
    exits with 1 otherwise.  Missing common variables, missing or
    unexpected attributes and out-of-range samples never change the
    status.  The file system and the open handles are as before the
    run. *)
Theorem validator_exit_status_of_a_readable_file (argv : list string)
    (w : World) (prog input_file : string) (rest : list string) (size : Z)
    (ds : Dataset) :
  argv = prog :: input_file :: rest ->
  fs w !! input_file = Some (File size (Some ds)) ->
  exists code w',
    Validator.main argv w = (inr code, w') /\
    (code = 0 <->
     (exists n_traj n_time,
        sizes ds !! "trajectory"%string = Some n_traj /\
        sizes ds !! "time"%string = Some n_time /\
        1 <= n_traj /\ 1 <= n_time) /\
     (forall name, name ∈ map fst Validator.required_vars ->
                   is_Some (variables ds !! name)) /\
     (forall x0 x1 more,
        attrs ds !! "opendrift_class"%string <> Some (AArray x0 x1 more))) /\
    (code = 0 \/ code = 1) /\
    fs w' = fs w /\ open_handles w' = open_handles w.
Proof.
  intros -> Hfs.
  destruct (validate_dataset_readable input_file
              (Validator.mem "--verbose" (prog :: input_file :: rest)
               || Validator.mem "-v" (prog :: input_file :: rest))
              (Validator.mem "--quick" (prog :: input_file :: rest)
               || Validator.mem "-q" (prog :: input_file :: rest))
              w size ds Hfs)
    as (overall & w' & Hrun & Herr & Hmiss & Hfs' & Hh' & _ & _).
  exists (if Validator.is_valid overall && Validator.has_all_required overall
          then 0 else 1), w'.
  split; [unfold Validator.main, bind; rewrite Hrun; reflexivity|].
  split; [|split; [destruct (_ && _); auto | auto]].
  destruct (dimension_check_errors ds) as [_ Hdims].
  destruct (sediment_check_categories ds) as [_ Hreq].
  pose proof (attributes_check ds) as Hattr.
  rewrite <- Hdims, <- Hreq, <- Hmiss.
  unfold Validator.is_valid, Validator.has_all_required.
  rewrite Herr.
  destruct (Validator.validate_attributes ds) as [e | ra].
  - destruct Hattr as (x0 & x1 & more & Harr).
    rewrite length_app. simpl. rewrite Nat.add_1_r. simpl.
    split; [discriminate|]. intros (_ & _ & Hno).
    exfalso. exact (Hno x0 x1 more Harr).
  - destruct Hattr as (Hno & _ & _). rewrite app_nil_r.
    destruct (Validator.errors (Validator.validate_dimensions ds)),
             (Validator.missing overall); simpl;
      split; try discriminate; try (intros (? & ? & _); discriminate); auto.
Qed.

Lemma validator_exit_status_of_a_readable_file_witness :
  let argv := ["GeoViz_Validator.py"; "mydata.nc"; "--quick"]%string in
  let w := Sample.world 1000000 [] in
  exists code w',
    Validator.main argv w = (inr code, w') /\
    (code = 0 <->
     (exists n_traj n_time,
        sizes Sample.source !! "trajectory"%string = Some n_traj /\
        sizes Sample.source !! "time"%string = Some n_time /\
        1 <= n_traj /\ 1 <= n_time) /\
     (forall name, name ∈ map fst Validator.required_vars ->
                   is_Some (variables Sample.source !! name)) /\
     (forall x0 x1 more,
        attrs Sample.source !! "opendrift_class"%string
        <> Some (AArray x0 x1 more))) /\
    (code = 0 \/ code = 1) /\
    fs w' = fs w /\ open_handles w' = open_handles w.
Proof.
  intros argv w.
  apply (validator_exit_status_of_a_readable_file argv w "GeoViz_Validator.py"
           "mydata.nc" ["--quick"%string] 20000 Sample.source).
  - reflexivity.
  - reflexivity.
Defined.

(** A complete dataset passes; the same dataset with an [opendrift_class]
    attribute holding two numbers does not: the comparison of line 266
    raises, the loop of checks records the exception as an error, and the
    exit status is 1. *)
Example array_valued_class_fails_the_validation :
  exists ds added,
    Synth.add_missing_sediment_variables Sample.source default_params
    = inr (ds, added) /\
    let argv := ["GeoViz_Validator.py"; "full.nc"; "--quick"]%string in
    let w d := mkWorld {[ "full.nc"%string := File 20000 (Some d) ]} [] 1000
                 (fun _ => 8000) (fun _ => true) Sample.missing_file
                 (fun _ _ m => py_range m) 0 [] [] in
    (Validator.main argv (w ds)).1 = inr 0 /\
    (Validator.main argv (w (set_attr "opendrift_class" (AArray 1 2 []) ds))).1
    = inr 1.
Proof.
  eexists _, _. split; [vm_compute; reflexivity|].
  split; vm_compute; reflexivity.
Qed.

(** An input that is missing, is a directory or is not a NetCDF file is
    reported as exactly one error and nothing else, no check is run, and
    the exit status is 1; nothing is written and no handle stays open. *)
Theorem validator_rejects_an_unreadable_input (argv : list string)
    (w : World) (prog input_file : string) (rest : list string) :
  argv = prog :: input_file :: rest ->
  (forall size ds, fs w !! input_file <> Some (File size (Some ds))) ->
  exists result w',
    Validator.validate_dataset input_file
      (Validator.mem "--verbose" argv || Validator.mem "-v" argv)
      (Validator.mem "--quick" argv || Validator.mem "-q" argv) w
    = (inr result, w') /\
    length (Validator.errors result) = 1%nat /\
    Validator.missing result = [] /\
    Validator.warnings result = [] /\
    Validator.info result = [] /\
    Validator.passed result = [] /\
    Validator.main argv w = (inr 1, w') /\
    fs w' = fs w /\ open_handles w' = open_handles w.
Proof.
  intros -> Hbad.
  set (verbose := Validator.mem "--verbose" (prog :: input_file :: rest)
                  || Validator.mem "-v" (prog :: input_file :: rest)).
  set (quick := Validator.mem "--quick" (prog :: input_file :: rest)
                || Validator.mem "-q" (prog :: input_file :: rest)).
  assert (exists result w',
            Validator.validate_dataset input_file verbose quick w
            = (inr result, w') /\
            length (Validator.errors result) = 1%nat /\
            Validator.missing result = [] /\
            Validator.warnings result = [] /\
            Validator.info result = [] /\
            Validator.passed result = [] /\
            fs w' = fs w /\ open_handles w' = open_handles w)
    as (result & w' & Hrun & Herr & Hmiss & Hwarn & Hinfo & Hpass & Hw').
  { destruct (fs w !! input_file) as [[|size [ds|]]|] eqn:E.
    - eexists _, _. split.
      + unfold Validator.validate_dataset, Validator.validate_file_access,
          Sys.exists_, Sys.isfile, bind, ret.
        cbv beta. rewrite E. cbn. rewrite ?E. reflexivity.
      + repeat split; reflexivity.
    - exfalso. exact (Hbad size ds eq_refl).
    - destruct (validate_file_access_regular input_file w size None E)
        as (r0 & Hacc & Hvalid).
      eexists _, _. split.
      + unfold Validator.validate_dataset. unfold bind at 1.
        rewrite Hacc, Hvalid. change (negb true) with false. cbv iota.
        unfold bind at 1, Validator.try_catch at 1, bind at 1.
        unfold Sys.open_dataset, bind, emit. cbn [fst snd fs record_event].
        rewrite E. unfold ret. reflexivity.
      + repeat split; reflexivity.
    - eexists _, _. split.
      + unfold Validator.validate_dataset, Validator.validate_file_access,
          Sys.exists_, Sys.isfile, bind, ret.
        cbv beta. rewrite E. cbn. rewrite ?E. reflexivity.
      + repeat split; reflexivity. }
  exists result, w'. split; [exact Hrun|].
  repeat (split; [assumption|]).
  split; [|exact Hw'].
  unfold Validator.main, bind. fold verbose quick. rewrite Hrun.
  unfold Validator.is_valid. destruct (Validator.errors result);
    [discriminate Herr | reflexivity].
Qed.

Lemma validator_rejects_an_unreadable_input_witness :
  let argv := ["GeoViz_Validator.py"; "absent.nc"]%string in
  let w := Sample.world 1000000 [] in
  exists result w',
    Validator.validate_dataset "absent.nc"
      (Validator.mem "--verbose" argv || Validator.mem "-v" argv)
      (Validator.mem "--quick" argv || Validator.mem "-q" argv) w
    = (inr result, w') /\
    length (Validator.errors result) = 1%nat /\
    Validator.missing result = [] /\
    Validator.warnings result = [] /\
    Validator.info result = [] /\
    Validator.passed result = [] /\
    Validator.main argv w = (inr 1, w') /\
    fs w' = fs w /\ open_handles w' = open_handles w.
Proof.
  intros argv w.
  apply (validator_rejects_an_unreadable_input argv w "GeoViz_Validator.py"
           "absent.nc" []).
  - reflexivity.
  - intros size ds H. vm_compute in H. discriminate H.
Defined.

(** ** The coordinate range check *)

Lemma py_min_spec (a b : Q) :
  (py_min a b <= a)%Q /\ (py_min a b <= b)%Q /\ (py_min a b = a \/ py_min a b = b).
Proof.
  unfold py_min. destruct (Qltb b a) eqn:E.
  - apply Qltb_true in E. repeat split; auto; lra.
  - apply Qltb_false in E. repeat split; auto; lra.
Qed.

Lemma py_max_spec (a b : Q) :
  (a <= py_max a b)%Q /\ (b <= py_max a b)%Q /\ (py_max a b = a \/ py_max a b = b).
Proof.
  unfold py_max. destruct (Qltb a b) eqn:E.
  - apply Qltb_true in E. repeat split; auto; lra.
  - apply Qltb_false in E. repeat split; auto; lra.
Qed.

(** [np.min] returns an element of the sample that is below all others. *)
Lemma np_min_spec (x : Q) (l : list Q) :
  Validator.np_min x l ∈ x :: l /\
  forall v, v ∈ x :: l -> (Validator.np_min x l <= v)%Q.
Proof.
  unfold Validator.np_min. revert x.
  induction l as [|y l IH]; intros x; simpl.
  - split; [apply list_elem_of_here|].
    intros v Hv. apply list_elem_of_singleton in Hv as ->. apply Qle_refl.
  - destruct (IH (py_min x y)) as [Hin Hle].
    destruct (py_min_spec x y) as (Hx & Hy & Hxy). split.
    + apply elem_of_cons in Hin as [->|Hin].
      * destruct Hxy as [->| ->];
          [apply list_elem_of_here
          | apply list_elem_of_further, list_elem_of_here].
      * apply list_elem_of_further, list_elem_of_further, Hin.
    + intros v Hv.
      pose proof (Hle (py_min x y) (list_elem_of_here _ _)) as Hm.
      apply elem_of_cons in Hv as [->|Hv]; [lra|].
      apply elem_of_cons in Hv as [->|Hv]; [lra|].
      apply Hle, list_elem_of_further, Hv.
Qed.

(** [np.max] returns an element of the sample that is above all others. *)
Lemma np_max_spec (x : Q) (l : list Q) :
  Validator.np_max x l ∈ x :: l /\
  forall v, v ∈ x :: l -> (v <= Validator.np_max x l)%Q.
Proof.
  unfold Validator.np_max. revert x.
  induction l as [|y l IH]; intros x; simpl.
  - split; [apply list_elem_of_here|].
    intros v Hv. apply list_elem_of_singleton in Hv as ->. apply Qle_refl.
  - destruct (IH (py_max x y)) as [Hin Hle].
    destruct (py_max_spec x y) as (Hx & Hy & Hxy). split.
    + apply elem_of_cons in Hin as [->|Hin].
      * destruct Hxy as [->| ->];
          [apply list_elem_of_here
          | apply list_elem_of_further, list_elem_of_here].
      * apply list_elem_of_further, list_elem_of_further, Hin.
    + intros v Hv.
      pose proof (Hle (py_max x y) (list_elem_of_here _ _)) as Hm.
      apply elem_of_cons in Hv as [->|Hv]; [lra|].
      apply elem_of_cons in Hv as [->|Hv]; [lra|].
      apply Hle, list_elem_of_further, Hv.
Qed.

(** When the sample of a coordinate has at least one number in it, the
    check adds exactly one message: a warning if some sampled value lies
    outside [-bound, bound], a pass if they all lie inside; never an error
    or a missing entry. *)
Theorem range_check_warns_iff_a_sample_is_outside (ds : Dataset)
    (name : string) (bound : Q) (label range_text : string)
    (traj_indices time_indices : list Z) (result : Validator.ValidationResult)
    (da : DataArray) (sample : list cell) (x : Q) (valid : list Q) :
  variables ds !! name = Some da ->
  Validator.isel_values da traj_indices time_indices = inr sample ->
  Validator.drop_nan sample = inr (x :: valid) ->
  let r := Validator.check_range ds name bound label range_text
             traj_indices time_indices result in
  Validator.errors r = Validator.errors result /\
  Validator.missing r = Validator.missing result /\
  Validator.info r = Validator.info result /\
  ((exists v, v ∈ x :: valid /\ (v < - bound \/ bound < v)%Q) ->
     length (Validator.warnings r) = S (length (Validator.warnings result)) /\
     Validator.passed r = Validator.passed result) /\
  ((forall v, v ∈ x :: valid -> (- bound <= v)%Q /\ (v <= bound)%Q) ->
     length (Validator.passed r) = S (length (Validator.passed result)) /\
     Validator.warnings r = Validator.warnings result).
Proof.
  intros Hda Hsample Hvalid r. subst r.
  unfold Validator.check_range. rewrite Hda, Hsample, Hvalid.
  destruct (np_min_spec x valid) as [Hmin_in Hmin].
  destruct (np_max_spec x valid) as [Hmax_in Hmax].
  destruct (Qltb (Validator.np_min x valid) (- bound)
            || Qltb bound (Validator.np_max x valid)) eqn:E; simpl.
  - repeat split; try reflexivity.
    + rewrite length_app. simpl. lia.
    + exfalso. apply orb_true_iff in E as [E|E]; apply Qltb_true in E.
      * destruct (H _ Hmin_in). lra.
      * destruct (H _ Hmax_in). lra.
    + exfalso. apply orb_true_iff in E as [E|E]; apply Qltb_true in E.
      * destruct (H _ Hmin_in). lra.
      * destruct (H _ Hmax_in). lra.
  - apply orb_false_iff in E as [E1 E2].
    apply Qltb_false in E1, E2.
    repeat split; try reflexivity.
    + exfalso. destruct H as (v & Hv & [Hlo|Hhi]).
      * pose proof (Hmin v Hv). lra.
      * pose proof (Hmax v Hv). lra.
    + exfalso. destruct H as (v & Hv & [Hlo|Hhi]).
      * pose proof (Hmin v Hv). lra.
      * pose proof (Hmax v Hv). lra.
    + rewrite length_app. simpl. lia.
Qed.

Lemma range_check_warns_iff_a_sample_is_outside_witness :
  let lon := mkDataArray [[CFloat (-200); CNaN; CFloat 170]] Float32
               ["trajectory"; "time"]%string ∅ in
  let ds := mkDataset {[ "trajectory"%string := 1; "time"%string := 3 ]} ∅
              {[ "lon"%string := lon ]} ∅ in
  let r := Validator.check_range ds "lon" 180 "Longitude" "[-180, 180]"
             [0] [0; 1; 2] Validator.empty_result in
  Validator.errors r = Validator.errors Validator.empty_result /\
  Validator.missing r = Validator.missing Validator.empty_result /\
  Validator.info r = Validator.info Validator.empty_result /\
  ((exists v, v ∈ [(-200)%Q; 170%Q] /\ (v < - 180 \/ 180 < v)%Q) ->
     length (Validator.warnings r)
     = S (length (Validator.warnings Validator.empty_result)) /\
     Validator.passed r = Validator.passed Validator.empty_result) /\
  ((forall v, v ∈ [(-200)%Q; 170%Q] -> (- 180 <= v)%Q /\ (v <= 180)%Q) ->
     length (Validator.passed r)
     = S (length (Validator.passed Validator.empty_result)) /\
     Validator.warnings r = Validator.warnings Validator.empty_result).
Proof.
  intros lon ds.
  apply (range_check_warns_iff_a_sample_is_outside ds "lon" 180 "Longitude"
           "[-180, 180]" [0] [0; 1; 2] Validator.empty_result lon
           [CFloat (-200); CNaN; CFloat 170] (-200)%Q [170%Q]).
  - reflexivity.
  - reflexivity.
  - reflexivity.
Defined.

(** ** The printed summary *)

Lemma section_lines_list (title : string) (msgs : list fstr) (msg : fstr) :
  msg ∈ msgs -> (Lit "  " :: msg) ∈ Summary.section_lines title msgs.
Proof.
  intros Hin. unfold Summary.section_lines.
  destruct msgs as [|m msgs]; [apply elem_of_nil in Hin; contradiction|].
  apply list_elem_of_further.
  apply (list_elem_of_fmap_2 (fun msg => Lit "  " :: msg)), Hin.
Qed.

(** The summary printed for the result of a validation lists every message
    of every category, and its verdict is the "passed all checks" line
    exactly when the exit status is 0. *)
Theorem summary_lists_every_message_and_matches_the_exit_status
    (argv : list string) (w : World) (prog input_file : string)
    (rest : list string) :
  argv = prog :: input_file :: rest ->
  exists result w' code,
    Validator.validate_dataset input_file
      (Validator.mem "--verbose" argv || Validator.mem "-v" argv)
      (Validator.mem "--quick" argv || Validator.mem "-q" argv) w
    = (inr result, w') /\
    Validator.main argv w = (inr code, w') /\
    (forall msg,
       msg ∈ Validator.passed result ++ Validator.missing result
             ++ Validator.info result ++ Validator.warnings result
             ++ Validator.errors result ->
       (Lit "  " :: msg) ∈ Summary.print_summary result) /\
    (code = 0 <->
     [Lit "RESULT: ✓ Dataset passed all checks, it contains all required variables."]
       ∈ Summary.result_lines result).
Proof.
  intros ->.
  destruct (validate_dataset_total input_file
              (Validator.mem "--verbose" (prog :: input_file :: rest)
               || Validator.mem "-v" (prog :: input_file :: rest))
              (Validator.mem "--quick" (prog :: input_file :: rest)
               || Validator.mem "-q" (prog :: input_file :: rest)) w)
    as (result & w' & Hrun).
  exists result, w',
    (if Validator.is_valid result && Validator.has_all_required result
     then 0 else 1).
  split; [exact Hrun|].
  split; [unfold Validator.main, bind; rewrite Hrun; reflexivity|].
  split.
  - intros msg Hmsg. unfold Summary.print_summary.
    rewrite !elem_of_app in Hmsg. rewrite !elem_of_app.
    destruct Hmsg as [H|[H|[H|[H|H]]]].
    + right. left. eapply section_lines_list, H.
    + right. right. left. eapply section_lines_list, H.
    + right. right. right. left. eapply section_lines_list, H.
    + right. right. right. right. left. eapply section_lines_list, H.
    + right. right. right. right. right. left. eapply section_lines_list, H.
  - unfold Validator.is_valid, Validator.has_all_required,
      Summary.result_lines.
    destruct (Validator.errors result), (Validator.missing result); simpl.
    + split; [intros _; apply list_elem_of_here | reflexivity].
    + split; [discriminate|]. rewrite !elem_of_cons, elem_of_nil.
      intros [H|[H|[]]]; discriminate H.
    + split; [discriminate|]. rewrite !elem_of_cons, elem_of_nil.
      intros [H|[]]; discriminate H.
    + split; [discriminate|]. rewrite !elem_of_cons, elem_of_nil.
      intros [H|[]]; discriminate H.
Qed.

Lemma summary_lists_every_message_and_matches_the_exit_status_witness :
  let argv := ["GeoViz_Validator.py"; "mydata.nc"]%string in
  let w := Sample.world 1000000 [] in
  exists result w' code,
    Validator.validate_dataset "mydata.nc"
      (Validator.mem "--verbose" argv || Validator.mem "-v" argv)
      (Validator.mem "--quick" argv || Validator.mem "-q" argv) w
    = (inr result, w') /\
    Validator.main argv w = (inr code, w') /\
    (forall msg,
       msg ∈ Validator.passed result ++ Validator.missing result
             ++ Validator.info result ++ Validator.warnings result
             ++ Validator.errors result ->
       (Lit "  " :: msg) ∈ Summary.print_summary result) /\
    (code = 0 <->
     [Lit "RESULT: ✓ Dataset passed all checks, it contains all required variables."]
       ∈ Summary.result_lines result).
Proof.
  intros argv w.
  apply (summary_lists_every_message_and_matches_the_exit_status argv w
           "GeoViz_Validator.py" "mydata.nc" []).
  reflexivity.
Defined.

(** ** What a written fragment contains *)

Lemma add_missing_synthesized (ds ds1 : Dataset) (p : Params)
    (added : list fstr) :
  Synth.add_missing_sediment_variables ds p = inr (ds1, added) ->
  sizes ds1 = sizes ds /\
  (forall name da,
     variables ds !! name = Some da -> variables ds1 !! name = Some da) /\
  (forall name, name ∈ Synth.derived_names -> is_Some (variables ds1 !! name)).
Proof.
  unfold Synth.add_missing_sediment_variables, py_getitem.
  destruct (sizes ds !! "trajectory"%string) as [n_traj|]; [|discriminate].
  destruct (sizes ds !! "time"%string) as [n_time|]; [|discriminate].
  pose proof (synthesized_blocks (Synth.derived_variables n_traj n_time p) ds [])
    as Hsyn.
  rewrite derived_variables_names in Hsyn.
  destruct (fold_left Synth.run_block _ (ds, [])) as [ds' added'].
  cbn [fst] in Hsyn. intros [= <- <-].
  rewrite sizes_mark_class, variables_mark_class.
  split; [apply Hsyn|]. split; apply Hsyn.
Qed.

Lemma variables_isel_trajectory (start stop : Z) (ds : Dataset) (name : string) :
  variables (isel_trajectory start stop ds) !! name
  = isel_array start stop <$> variables ds !! name.
Proof.
  unfold variables, isel_trajectory. simpl.
  rewrite <- map_fmap_union, lookup_fmap. reflexivity.
Qed.

Lemma slice_len_inside (start stop n : Z) :
  0 <= start <= stop -> stop <= n -> slice_len start stop n = stop - start.
Proof. intros H1 H2. unfold slice_len. lia. Qed.

(** The fragment written for a range inside the source has exactly as many
    trajectories as the range, keeps the time dimension, records its
    number, the total and its range in its attributes, carries every
    source variable restricted to the range, and, when synthesis is
    requested, has all seven derived variables. *)
Theorem fragment_is_the_annotated_slice (ds : Dataset) (input_file : string)
    (n_traj n_time tpf num : Z) (add_sediment_vars : bool) (p : Params)
    (i : Z) :
  sizes ds !! "trajectory"%string = Some n_traj ->
  sizes ds !! "time"%string = Some n_time ->
  0 <= i -> 0 < tpf -> i * tpf <= n_traj -> 0 <= n_traj ->
  let r := Planner.fragment_range n_traj tpf i in
  let f := Run.fragment_dataset ds input_file n_traj tpf num
             add_sediment_vars p i in
  sizes f !! "trajectory"%string = Some (r.2 - r.1) /\
  sizes f !! "time"%string = Some n_time /\
  attrs f !! "fragment_number"%string = Some (AInt (i + 1)) /\
  attrs f !! "total_fragments"%string = Some (AInt num) /\
  attrs f !! "fragment_trajectory_start"%string = Some (AInt r.1) /\
  attrs f !! "fragment_trajectory_end"%string = Some (AInt r.2) /\
  attrs f !! "original_file"%string = Some (AStr (Str.basename input_file)) /\
  (forall name da,
     variables ds !! name = Some da ->
     variables f !! name = Some (isel_array r.1 r.2 da)) /\
  (add_sediment_vars = true ->
   forall name, name ∈ Synth.derived_names -> is_Some (variables f !! name)).
Proof.
  intros Ht Hm Hi Htpf Hin Hn r f.
  assert (0 <= r.1 <= r.2 /\ r.2 <= n_traj) as [Hr1 Hr2]
    by (unfold r, Planner.fragment_range; simpl; nia).
  destruct (isel_trajectory_sizes r.1 r.2 ds n_traj n_time Ht Hm) as [Hst Hsm].
  rewrite slice_len_inside in Hst by assumption.
  assert (exists filled,
            f = Fragmenter.annotate (i + 1) num r.1 r.2 input_file filled /\
            sizes filled = sizes (isel_trajectory r.1 r.2 ds) /\
            (forall name da,
               variables (isel_trajectory r.1 r.2 ds) !! name = Some da ->
               variables filled !! name = Some da) /\
            (add_sediment_vars = true ->
             forall name, name ∈ Synth.derived_names ->
                          is_Some (variables filled !! name)))
    as (filled & Hf & Hsizes & Hkept & Hadded).
  { unfold f, Run.fragment_dataset. fold r. destruct add_sediment_vars.
    - destruct (add_missing_total (isel_trajectory r.1 r.2 ds) p _ _ Hst Hsm)
        as [[ds1 added] Hres].
      rewrite Hres. exists ds1.
      destruct (add_missing_synthesized _ _ _ _ Hres) as (H1 & H2 & H3).
      repeat split; auto.
    - eexists. repeat split; auto. discriminate. }
  rewrite Hf. unfold Fragmenter.annotate, set_attr, variables. simpl.
  rewrite Hsizes.
  repeat (split; [first [exact Hst | exact Hsm
                        | rewrite ?lookup_insert_eq;
                          repeat (rewrite lookup_insert_ne by discriminate);
                          rewrite ?lookup_insert_eq; reflexivity]|]).
  split.
  - intros name da Hda. apply Hkept.
    rewrite variables_isel_trajectory.
    unfold variables in Hda. unfold variables. rewrite Hda. reflexivity.
  - exact Hadded.
Qed.

Lemma fragment_is_the_annotated_slice_witness :
  let r := Planner.fragment_range 250 100 2 in
  let f := Run.fragment_dataset Sample.source "mydata.nc" 250 100 3 true
             default_params 2 in
  sizes f !! "trajectory"%string = Some (r.2 - r.1) /\
  sizes f !! "time"%string = Some 10 /\
  attrs f !! "fragment_number"%string = Some (AInt (2 + 1)) /\
  attrs f !! "total_fragments"%string = Some (AInt 3) /\
  attrs f !! "fragment_trajectory_start"%string = Some (AInt r.1) /\
  attrs f !! "fragment_trajectory_end"%string = Some (AInt r.2) /\
  attrs f !! "original_file"%string = Some (AStr (Str.basename "mydata.nc")) /\
  (forall name da,
     variables Sample.source !! name = Some da ->
     variables f !! name = Some (isel_array r.1 r.2 da)) /\
  (true = true ->
   forall name, name ∈ Synth.derived_names -> is_Some (variables f !! name)).
Proof.
  apply (fragment_is_the_annotated_slice Sample.source "mydata.nc" 250 10 100 3
           true default_params 2).
  - reflexivity.
  - reflexivity.
  - lia.
  - lia.
  - lia.
  - lia.
Defined.

(** ** Relations between the estimate, the preview and the plan *)

(** Lowering the percentage never turns a safe plan into an unsafe one. *)
Theorem smaller_percentage_stays_safe (ds : Dataset) (w : World)
    (n_traj n_time : Z) (p1 p2 : Q) e1 e2 :
  sizes ds !! "trajectory"%string = Some n_traj ->
  sizes ds !! "time"%string = Some n_time ->
  0 <= n_traj -> 0 <= n_time ->
  (p1 <= p2)%Q ->
  (Estimator.estimate_memory_requirements ds p1 w).1 = inr e1 ->
  (Estimator.estimate_memory_requirements ds p2 w).1 = inr e2 ->
  Estimator.is_safe e2 = true -> Estimator.is_safe e1 = true.
Proof.
  intros Ht Hm Hn Htime Hp.
  rewrite !(estimate_memory_requirements_run ds _ w n_traj n_time Ht Hm).
  simpl. intros H1 H2 Hs2.
  pose proof (estimate_of_mono (available_memory w) n_traj n_time
                (Z.of_nat (size (data_vars ds))) Hn Htime ltac:(lia)
                p1 p2 e1 e2 Hp H1 H2) as Hle.
  apply estimate_of_inv in H1 as (f1 & _ & Hest1 & _ & Hsafe1 & _).
  apply estimate_of_inv in H2 as (f2 & _ & Hest2 & _ & Hsafe2 & _).
  rewrite Hsafe2 in Hs2. apply Qltb_true in Hs2.
  rewrite Hsafe1. apply Qltb_true.
  rewrite <- Hest1. rewrite <- Hest2 in Hs2.
  eapply Qle_lt_trans; eassumption.
Qed.

Lemma smaller_percentage_stays_safe_witness :
  exists e1 e2,
    (Estimator.estimate_memory_requirements Sample.source 10
       (Sample.world 100000 [])).1 = inr e1 /\
    (Estimator.estimate_memory_requirements Sample.source 40
       (Sample.world 100000 [])).1 = inr e2 /\
    Estimator.is_safe e2 = true /\ Estimator.is_safe e1 = true.
Proof.
  eexists _, _. split; [vm_compute; reflexivity|].
  split; [vm_compute; reflexivity|]. split; [reflexivity|].
  eapply (smaller_percentage_stays_safe Sample.source (Sample.world 100000 [])
            250 10 10 40).
  - reflexivity.
  - reflexivity.
  - lia.
  - lia.
  - unfold Qle; simpl; lia.
  - vm_compute. reflexivity.
  - vm_compute. reflexivity.
  - reflexivity.
Defined.

(** The number of fragments actually produced never exceeds the count
    [ceil(100 / percentage)] that interactive mode announces, for a source
    of fewer than [2^51] trajectories and a percentage from [2^-1000] to
    100: the roundings of the two computations never add up to a whole
    fragment. *)
Theorem plan_never_exceeds_the_announced_count (n_traj : Z) (percentage : Q) :
  1 <= n_traj < 2 ^ 51 ->
  (2 ^ (-1000) <= percentage)%Q -> (percentage <= 100)%Q ->
  exists tpf num announced,
    Planner.trajectories_per_fragment n_traj percentage = inr tpf /\
    Planner.num_fragments n_traj tpf = inr num /\
    ceil_inverse_share percentage = inr announced /\
    1 <= num <= announced.
Proof.
  intros Hn Hlo Hp100.
  pose proof (domain_percentage_pos _ Hlo) as Hp0.
  destruct (plan_valid n_traj percentage ltac:(lia) Hlo Hp100)
    as (tpf & num & Htpf & Htpf1 & Hnum & Enum & Hnum1 & _ & _).
  destruct (ceil_inverse_share_ok percentage Hlo Hp100) as (a & Ha & La & _).
  exists tpf, num, a.
  split; [exact Htpf|]. split; [exact Hnum|]. split; [exact Ha|].
  split; [exact Hnum1|].
  destruct (share_bounds n_traj percentage ltac:(lia) Hlo Hp100)
    as (Es & Ls & _).
  cbv zeta in Ls.
  unfold Planner.trajectories_per_fragment in Htpf. rewrite Htpf in Es.
  injection Es as Es.
  destruct (np_ceil_bounds (share n_traj percentage)) as [_ Us].
  rewrite <- Es in Us.
  assert (0 < inject_Z tpf)%Q as Htq
    by (change 0%Q with (inject_Z 0); rewrite <- Zlt_Qlt; lia).
  assert (1 <= inject_Z n_traj)%Q as Hn1
    by (change 1%Q with (inject_Z 1); rewrite <- Zle_Qle; lia).
  assert (inject_Z n_traj < 2251799813685248)%Q as Hn51
    by (change 2251799813685248%Q with (inject_Z (2 ^ 51));
        rewrite <- Zlt_Qlt; lia).
  (* a * tpf >= n (1 - eps)^3 > n - 1 *)
  assert (n_traj <= a * tpf) as Hprod.
  { assert (inject_Z (n_traj - 1) < inject_Z (a * tpf))%Q as H.
    { rewrite inject_Z_mult. unfold Z.sub.
      rewrite inject_Z_plus, inject_Z_opp. change (inject_Z 1) with 1%Q.
      set (u := (100 / percentage * (1 - F64.eps))%Q) in *.
      set (v := (inject_Z n_traj * percentage / 100
                 * (1 - F64.eps) * (1 - F64.eps))%Q) in *.
      assert (0 <= u)%Q as Hu.
      { unfold u. apply Qmult_le_0_compat; [|discriminate].
        apply Qle_shift_div_l; [exact Hp0 | lra]. }
      assert (0 <= v)%Q as Hv.
      { unfold v. do 2 (apply Qmult_le_0_compat; [|discriminate]).
        apply Qle_shift_div_l; [reflexivity|].
        rewrite Qmult_0_l. apply Qmult_le_0_compat; lra. }
      assert (u * v <= inject_Z a * inject_Z tpf)%Q as Huv by nra.
      assert (u * v == inject_Z n_traj
                       * ((1 - F64.eps) * (1 - F64.eps) * (1 - F64.eps)))%Q
        as Euv by (unfold u, v; field; lra).
      rewrite Euv in Huv.
      unfold F64.eps in Huv. lra. }
    rewrite <- Zlt_Qlt in H. lia. }
  subst num.
  assert (np_ceil (inject_Z n_traj / inject_Z tpf) <= np_ceil (inject_Z a))
    as Hle.
  { apply np_ceil_mono. apply Qle_shift_div_r; [exact Htq|].
    rewrite <- inject_Z_mult, <- Zle_Qle. exact Hprod. }
  replace (np_ceil (inject_Z a)) with a in Hle; [exact Hle|].
  symmetry. apply np_ceil_unique.
  - rewrite <- Zlt_Qlt. lia.
  - apply Qle_refl.
Qed.

Lemma plan_never_exceeds_the_announced_count_witness :
  exists tpf num announced,
    Planner.trajectories_per_fragment 250 40 = inr tpf /\
    Planner.num_fragments 250 tpf = inr num /\
    ceil_inverse_share 40 = inr announced /\
    1 <= num <= announced.
Proof.
  apply (plan_never_exceeds_the_announced_count 250 40).
  - split; [lia | reflexivity].
  - apply Qle_bool_imp_le. vm_compute. reflexivity.
  - apply Qle_bool_imp_le. vm_compute. reflexivity.
Defined.

(** ** Cancelling in interactive mode *)

Lemma quiet_when_none_bind {A B} (m : M A) (f : A -> M (option B)) :
  writes_nothing m -> (forall x, Run.quiet_when_none (f x)) ->
  Run.quiet_when_none (bind m f).
Proof.
  intros Hm Hf w. unfold bind.
  destruct (Hm w) as (Hfs & evs & Htr & Hno).
  destruct (m w) as [[e|x] w1]; simpl in *; [discriminate|].
  intros Hnone. destruct (Hf x w1 Hnone) as (Hfs' & evs' & Htr' & Hno').
  split; [congruence|]. exists (evs ++ evs'). split.
  - rewrite Htr', Htr, app_assoc. reflexivity.
  - intros path Hin. apply elem_of_app in Hin as [Hin|Hin];
      [exact (Hno path Hin) | exact (Hno' path Hin)].
Qed.

Lemma writes_nothing_float_or (s : string) (d : Q) (conv : Q -> Q) :
  writes_nothing (Fragmenter.float_or s d conv).
Proof.
  unfold Fragmenter.float_or. destruct (String.eqb s "").
  - apply writes_nothing_ret.
  - apply writes_nothing_bind; [apply writes_nothing_lift|].
    intros x. apply writes_nothing_ret.
Qed.

Lemma writes_nothing_ask_params : writes_nothing Fragmenter.ask_params.
Proof.
  unfold Fragmenter.ask_params.
  repeat first
    [ apply writes_nothing_input
    | apply writes_nothing_float_or
    | apply writes_nothing_ret
    | apply writes_nothing_bind; [|intros ?] ].
Qed.

(** Whenever interactive mode returns no file list (the final question
    was answered [n]), it has written no file: every write of a run lies
    behind that confirmation. *)
Theorem interactive_cancel_writes_nothing (input_file : string) :
  Run.quiet_when_none (Fragmenter.interactive_mode input_file).
Proof.
  unfold Fragmenter.interactive_mode.
  apply quiet_when_none_bind; [apply writes_nothing_input|]. intros l1.
  apply quiet_when_none_bind; [apply writes_nothing_float_or|]. intros pct.
  apply quiet_when_none_bind; [apply writes_nothing_open|]. intros ds.
  apply quiet_when_none_bind; [apply writes_nothing_lift|]. intros n_traj.
  apply quiet_when_none_bind; [apply writes_nothing_lift|]. intros q.
  apply quiet_when_none_bind.
  { destruct (q =? 0);
      [apply writes_nothing_raise | apply writes_nothing_ret]. }
  intros _.
  apply quiet_when_none_bind; [apply writes_nothing_close|]. intros _.
  apply quiet_when_none_bind; [apply writes_nothing_input|]. intros l2.
  apply quiet_when_none_bind.
  { destruct (negb _); [apply writes_nothing_ask_params | apply writes_nothing_ret]. }
  intros p.
  apply quiet_when_none_bind; [apply writes_nothing_input|]. intros l3.
  apply quiet_when_none_bind; [apply writes_nothing_input|]. intros l4.
  destruct (String.eqb (Str.lower (Str.strip l4)) "n").
  - intros w _. apply (writes_nothing_ret (None : option (list string)) w).
  - intros w. unfold bind, ret.
    destruct (Fragmenter.create_fragments _ _ _ _ _ w) as [[e|files] w'];
      simpl; discriminate.
Qed.

Lemma interactive_cancel_writes_nothing_witness :
  let w := Sample.world 1000000 ["40"; "n"; ""; "n"]%string in
  let r := Fragmenter.interactive_mode "mydata.nc" w in
  r.1 = inr None /\
  fs r.2 = fs w /\
  exists evs, trace r.2 = trace w ++ evs /\ forall path, EvWrite path ∉ evs.
Proof.
  intros w r. split; [vm_compute; reflexivity|].
  apply (interactive_cancel_writes_nothing "mydata.nc" w).
  vm_compute. reflexivity.
Defined.

(** ** The default output prefix *)

Lemma chars_append (s1 s2 : string) :
  Str.chars (s1 ++ s2) = Str.chars s1 ++ Str.chars s2.
Proof.
  unfold Str.chars. induction s1 as [|c s1 IH]; simpl; [reflexivity|].
  rewrite IH. reflexivity.
Qed.

Lemma remove_go_skip (sub l1 l2 : list ascii) (fuel : nat) :
  (forall k, (k < length l1)%nat ->
             Str.is_prefix sub (drop k (l1 ++ l2)) = false) ->
  (length l1 <= fuel)%nat ->
  Str.remove_go fuel sub (l1 ++ l2)
  = l1 ++ Str.remove_go (fuel - length l1) sub l2.
Proof.
  revert fuel. induction l1 as [|c l1 IH]; intros fuel Hno Hfuel.
  - simpl. rewrite Nat.sub_0_r. reflexivity.
  - destruct fuel as [|fuel]; [simpl in Hfuel; lia|].
    cbn [Str.remove_go app].
    pose proof (Hno 0%nat ltac:(simpl; lia)) as H0. simpl in H0.
    change (c :: l1 ++ l2) with ((c :: l1) ++ l2) in H0 |- *.
    cbn [app] in H0 |- *. rewrite H0.
    rewrite IH.
    + reflexivity.
    + intros k Hk. apply (Hno (S k)). simpl. lia.
    + simpl in Hfuel. lia.
Qed.

(** When [.nc] occurs in the input name only as its extension, the default
    output prefix is the name without the extension. *)
Theorem default_prefix_is_the_name_without_extension (base : string) :
  (forall k, (k < length (Str.chars base))%nat ->
     Str.is_prefix (Str.chars ".nc")
                   (drop k (Str.chars base ++ Str.chars ".nc")) = false) ->
  Run.prefix_of (base ++ ".nc") None = base.
Proof.
  intros Hno. unfold Run.prefix_of, Str.remove_all.
  rewrite chars_append, remove_go_skip.
  - rewrite length_app.
    replace (length (Str.chars base) + length (Str.chars ".nc")
             - length (Str.chars base))%nat with 3%nat by (simpl; lia).
    simpl. rewrite app_nil_r.
    unfold Str.of_chars, Str.chars. apply string_of_list_ascii_of_string.
  - exact Hno.
  - rewrite length_app. lia.
Qed.

Lemma default_prefix_is_the_name_without_extension_witness :
  Run.prefix_of ("run.2024/mydata" ++ ".nc") None = "run.2024/mydata"%string.
Proof.
  apply (default_prefix_is_the_name_without_extension "run.2024/mydata").
  intros k Hk.
  assert (forallb (fun k =>
                     negb (Str.is_prefix (Str.chars ".nc")
                             (drop k (Str.chars "run.2024/mydata"
                                      ++ Str.chars ".nc"))))
                  (seq 0 (length (Str.chars "run.2024/mydata"))) = true)
    as Hall by (vm_compute; reflexivity).
  rewrite forallb_forall in Hall.
  apply negb_true_iff, Hall, in_seq. lia.
Defined.

